(** * The multifill plugin: subtask strings, score strings and the sampler

    A shallow embedding of [plugins/ntnu_inginious_multifill/__init__.py]:
    the two small grammars ([SubtaskString], [ScoreString]), the seeded
    bag/pull sampler ([sample_subtasks]) and the part of
    [MultifillProblem.__init__] that chooses and cross-checks them; and
    the two functions around them, [parse_problem], which turns what the
    studio sends into the content of a problem, and [show_input], which
    shows the sampled subtasks.

    Python values are modelled as follows.
    - [str] is the type of strings of 8-bit characters: the model covers
      the texts whose code points are below 256.
    - [int] is [Z] (Python integers are unbounded).
    - a [list] is a list; where the plugin builds a list whose length is a
      number that it read, with [list(range(a, b))], the limits of the
      interpreter on the length of a list are part of the model
      ([PyLimits]).
    - a raised exception is the [Raise] branch of [result]; the constructors
      of [exn] are named after the message of the [raise] they stand for.
    - objects with fields are records with the source's field names. *)

From Stdlib Require Import ZArith Ascii List Bool Lia DecimalString DecimalNat.
From Stdlib Require String.
From stdpp Require Import base tactics option list list_numbers gmap strings
  sorting.

Local Open Scope Z_scope.

(** Python's [str]. *)
Abbreviation str := String.string.

(** ** Exceptions *)

Inductive exn : Type :=
  (* ValueError("Subtask string contains illegal group: {string}") *)
  | IllegalGroup (s : str)
  (* ValueError("Subtask string contains negative pull: {string}") *)
  | NegativePull (s : str)
  (* ValueError("Subtask string contains empty bag: {string}") *)
  | EmptyBag (s : str)
  (* ValueError("Subtask string has pull > bag size: {string}") *)
  | PullGtBag (s : str)
  (* ValueError("Expected 3 parts in score string (min/expected/total), ...") *)
  | ScoreParts (s : str)
  (* ValueError("Score string contains illegal score: '{string}'") *)
  | IllegalScore (s : str)
  (* ValueError("Minimum score is outside valid range: {minimum}") *)
  | MinimumOutOfRange (minimum : Z)
  (* ValueError("Expected score is outside valid range: {expected}") *)
  | ExpectedOutOfRange (expected : Z)
  (* ValueError("Total score can not be negative: {total}") *)
  | NegativeTotal (total : Z)
  (* ValueError("Multifill problem {problemid} does not have any subtasks") *)
  | NoSubtasks (problemid : str)
  (* ValueError("Subtask {index} is missing text") *)
  | MissingText (index : nat)
  (* ValueError("Problem {problemid} has {num_subtasks} subtasks, but the
     subtask string expects {total_bag}.") *)
  | BagMismatch (problemid : str) (num_subtasks total_bag : Z)
  (* random.sample: ValueError("Sample larger than population or is negative") *)
  | SampleRange
  (* the [assert] at the end of [sample_subtasks] *)
  | AssertionError
  (* list(range(a, b)): OverflowError("Python int too large to convert to
     C ssize_t") *)
  | OverflowError
  (* list(range(a, b)): MemoryError() *)
  | MemoryError
  (* whatever the base class initialiser [Problem.__init__] raises *)
  | BaseError (e : str)
  (* a method call on a generator that was never created; Python has no
     such reference, the store of the model needs a value for it *)
  | NoSuchObject.

Inductive result (A : Type) : Type :=
  | Ok (a : A)
  | Raise (e : exn).
Arguments Ok {A} a.
Arguments Raise {A} e.

#[global] Instance result_ret : MRet result := fun A a => Ok a.
#[global] Instance result_bind : MBind result := fun A B f m =>
  match m with
  | Ok a => f a
  | Raise e => Raise e
  end.

Definition is_Ok {A} (r : result A) : Prop := exists a, r = Ok a.

(** A [for] loop that updates its variables [s] and stops at the first
    exception, in the monad [m] of its body. *)
Fixpoint for_each {m : Type -> Type} `{!MRet m, !MBind m} {A S : Type}
    (body : S -> A -> m S) (l : list A) (s : S) : m S :=
  match l with
  | [] => mret s
  | a :: l' => s' ← body s a; for_each body l' s'
  end.

(** ** The limits of the interpreter on lists

    A list has at most [sys.maxsize] items, the largest [ssize_t]
    ([2^31 - 1] or [2^63 - 1]); and it has no more items than the
    interpreter finds memory for.  [list_max] is the length of the longest
    list that it finds memory for.  Memory for the strings, and for the
    lists that the plugin builds item by item from what it holds, is
    taken for granted; so is the memory for a list of two items. *)
Class PyLimits : Type := {
  maxsize : Z;
  list_max : Z;
  list_max_maxsize : list_max <= maxsize;
  list_max_two : 2 <= list_max;
}.

(** ** Python's string primitives *)

Module Py.

(** [c in s] for a one-character [c]. *)
Fixpoint contains (c : ascii) (s : str) : bool :=
  match s with
  | EmptyString => false
  | String d r => Ascii.eqb d c || contains c r
  end.

(** [s.split(sep)] for a one-character separator: never empty, one more
    field than there are separators. *)
Fixpoint split (sep : ascii) (s : str) : list str :=
  match s with
  | EmptyString => [EmptyString]
  | String c r =>
      if Ascii.eqb c sep then EmptyString :: split sep r
      else match split sep r with
           | [] => [String c EmptyString]
           | f :: fs => String c f :: fs
           end
  end.

(** [sep.join(l)]. *)
Fixpoint join (sep : str) (l : list str) : str :=
  match l with
  | [] => EmptyString
  | [x] => x
  | x :: r => x +:+ sep +:+ join sep r
  end.

(** [str(n)] for a length. *)
Definition str_of_nat (n : nat) : str :=
  NilEmpty.string_of_uint (Nat.to_uint n).

(** [str.isspace] on one code point below 256: TAB..CR, FS..US, space,
    NEL, NBSP. *)
Definition isspace (c : ascii) : bool :=
  let n := nat_of_ascii c in
  ((9 <=? n) && (n <=? 13) || (28 <=? n) && (n <=? 32)
   || (n =? 133) || (n =? 160))%nat.

Fixpoint lstrip (s : str) : str :=
  match s with
  | EmptyString => EmptyString
  | String c r => if isspace c then lstrip r else s
  end.

Fixpoint rstrip (s : str) : str :=
  match s with
  | EmptyString => EmptyString
  | String c r =>
      match rstrip r with
      | EmptyString => if isspace c then EmptyString else String c EmptyString
      | r' => String c r'
      end
  end.

(** [s.strip()]. *)
Definition strip (s : str) : str := rstrip (lstrip s).

(** *** [int(s)]

    CPython reads a decimal literal as: white space, an optional sign,
    digits with single underscores between them, white space.  The white
    space of [int] is narrower than that of [strip]: among the code points
    below 127 only TAB..CR and the space are skipped (FS..US are not), and
    above them NEL and NBSP.  No code point between 128 and 255 is a decimal
    digit.  A literal of more than [int_max_str_digits] digits is refused
    with a [ValueError] as well. *)

Definition int_space (c : ascii) : bool :=
  let n := nat_of_ascii c in
  ((9 <=? n) && (n <=? 13) || (n =? 32) || (n =? 133) || (n =? 160))%nat.

Definition digit (c : ascii) : option Z :=
  let n := nat_of_ascii c in
  if ((48 <=? n) && (n <=? 57))%nat then Some (Z.of_nat n - 48) else None.

Fixpoint skip_space (s : str) : str :=
  match s with
  | EmptyString => EmptyString
  | String c r => if int_space c then skip_space r else s
  end.

(** The digit scan: [prev_us] tells whether the last character was an
    underscore, [acc] is the value and [n] the number of digits so far.
    It stops at the first character that is neither digit nor underscore
    and fails on a doubled or a trailing underscore. *)
Fixpoint scan_digits (s : str) (prev_us : bool) (acc : Z) (n : nat)
  : option (Z * nat * str) :=
  match s with
  | EmptyString => if prev_us then None else Some (acc, n, s)
  | String c r =>
      match digit c with
      | Some d => scan_digits r false (10 * acc + d) (S n)
      | None =>
          if Ascii.eqb c "_"%char then
            if prev_us then None else scan_digits r true acc n
          else if prev_us then None else Some (acc, n, s)
      end
  end.

(** [sys.get_int_max_str_digits()], at its default. *)
Definition int_max_str_digits : nat := 4300.

(** The literal after the sign. *)
Definition int_digits (s : str) : option Z :=
  match s with
  | String "_"%char _ => None
  | _ =>
      match scan_digits s false 0 0 with
      | Some (v, n, rest) =>
          if ((n =? 0) || (int_max_str_digits <? n))%nat then None
          else match skip_space rest with
               | EmptyString => Some v
               | String _ _ => None
               end
      | None => None
      end
  end.

Definition int (s : str) : option Z :=
  match skip_space s with
  | String "+"%char r => int_digits r
  | String "-"%char r => Z.opp <$> int_digits r
  | s1 => int_digits s1
  end.

(** [list(range(a, b))].  The range has [max(0, b - a)] items, whatever
    the size of [a] and [b].  [list] first asks the range for its length,
    which is an [OverflowError] when the length is above [sys.maxsize],
    and then for the memory of as many items, which is a [MemoryError]
    when there is none. *)
Definition range `{PyLimits} (a b : Z) : result (list Z) :=
  let length := Z.max 0 (b - a) in
  if maxsize <? length then Raise OverflowError
  else if list_max <? length then Raise MemoryError
  else Ok (seqZ a (b - a)).

End Py.

(** ** The [random] module

    [random.Random] belongs to the interpreter, not to the plugin.  The
    plugin relies on three of its operations; they are taken here with the
    contract of the library's documentation.
    - [Random(x)] for a string [x] creates a generator whose state is a
      function of the characters of [x] alone;
    - [sample(population, k)], for [0 <= k <= len(population)], returns [k]
      elements from distinct positions of the population, and advances the
      generator;
    - [shuffle(x)] reorders [x], and advances the generator.
    All three return: they are functions here.  Which elements, and in
    which order, is left to the generator. *)
Class PyRandom : Type := {
  generator : Type;
  seed_of_str : str -> generator;
  sample_of : generator -> list Z -> nat -> list Z * generator;
  shuffle_of : generator -> list Z -> list Z * generator;
  sample_of_length g population k :
    (k <= length population)%nat -> length (sample_of g population k).1 = k;
  sample_of_submseteq g population k :
    (k <= length population)%nat -> (sample_of g population k).1 ⊆+ population;
  shuffle_of_perm g x : (shuffle_of g x).1 ≡ₚ x;
}.

(** Generators are objects: each lives at a location of the store, and a
    method call updates the store at the location of its receiver.  A
    computation takes the store and returns a value or an exception
    together with the new store. *)
Section Store.
Context `{PyRandom}.

Definition M (A : Type) : Type :=
  gmap positive generator -> result A * gmap positive generator.

#[global] Instance M_ret : MRet M := fun A a h => (Ok a, h).
#[global] Instance M_bind : MBind M := fun A B f c h =>
  match c h with
  | (Ok a, h') => f a h'
  | (Raise e, h') => (Raise e, h')
  end.

Definition raise {A} (e : exn) : M A := fun h => (Raise e, h).

(** A computation that leaves the store alone. *)
Definition of_result {A} (r : result A) : M A := fun h => (r, h).

(** [assert b]. *)
Definition assert (b : bool) : M unit :=
  if b then mret tt else raise AssertionError.

(** [Random(x)]: a new object, at a location the store does not use. *)
Definition Random (x : str) : M positive := fun h =>
  let rand := fresh (dom h) in
  (Ok rand, <[rand := seed_of_str x]> h).

(** [rand.sample(population, k)]. *)
Definition sample (rand : positive) (population : list Z) (k : Z)
  : M (list Z) := fun h =>
  match h !! rand with
  | None => (Raise NoSuchObject, h)
  | Some g =>
      if (0 <=? k) && (k <=? Z.of_nat (length population)) then
        let '(picked, g') := sample_of g population (Z.to_nat k) in
        (Ok picked, <[rand := g']> h)
      else (Raise SampleRange, h)
  end.

(** [rand.shuffle(x)]; the list that Python reorders in place is
    returned. *)
Definition shuffle (rand : positive) (x : list Z) : M (list Z) := fun h =>
  match h !! rand with
  | None => (Raise NoSuchObject, h)
  | Some g =>
      let '(x', g') := shuffle_of g x in
      (Ok x', <[rand := g']> h)
  end.
End Store.

(** ** class SubtaskString *)

Module SubtaskString.

(** The fields of the object.  [groups] is a list of loose groups (the
    parts between semicolons), each a list of [(pull, bag)]. *)
Record t : Type := mk {
  string : str;
  total_pull : Z;
  total_bag : Z;
  groups : list (list (Z * Z));
}.

(** The [try] block of [__init__]: a group with a slash is unpacked into
    exactly two parts (any other number of parts is the [ValueError] of the
    unpacking), a group without one is used for both; either [int] may
    fail.  Every [ValueError] is re-raised as the illegal-group error. *)
Definition read_group (self_string group : str) : result (Z * Z) :=
  let parts :=
    if Py.contains "/"%char group then
      match Py.split "/"%char group with
      | [pull; bag] => Some (pull, bag)
      | _ => None
      end
    else Some (group, group) in
  match parts with
  | Some (pull, bag) =>
      match Py.int pull, Py.int bag with
      | Some pull, Some bag => Ok (pull, bag)
      | _, _ => Raise (IllegalGroup self_string)
      end
  | None => Raise (IllegalGroup self_string)
  end.

(** The body of the inner loop of [__init__]; its variables are the object
    under construction and [loose_group_result]. *)
Definition group_body (st : t * list (Z * Z)) (group : str)
  : result (t * list (Z * Z)) :=
  let '(self, loose_group_result) := st in
  '(pull, bag) ← read_group (string self) group;
  let loose_group_result := loose_group_result ++ [(pull, bag)] in
  let self := mk (string self) (total_pull self + pull)
                 (total_bag self + bag) (groups self) in
  if pull <? 0 then Raise (NegativePull (string self))
  else if bag <? 1 then Raise (EmptyBag (string self))
  else if bag <? pull then Raise (PullGtBag (string self))
  else Ok (self, loose_group_result).

(** The body of the outer loop of [__init__]. *)
Definition loose_group_body (self : t) (loose_group : str) : result t :=
  '(self, loose_group_result) ←
    for_each group_body (Py.split ","%char loose_group) (self, []);
  Ok (mk (string self) (total_pull self) (total_bag self)
         (groups self ++ [loose_group_result])).

(** [SubtaskString(string)]. *)
Definition init (string : str) : result t :=
  for_each loose_group_body (Py.split ";"%char string) (mk string 0 0 []).

(** [SubtaskString.default_for_subtasks(subtasks)]. *)
Definition default_for_subtasks {T} (subtasks : list T) : result t :=
  let synthesized_string := Py.join ";" (replicate (length subtasks) "1") in
  init synthesized_string.

Definition get_total_bag_size (self : t) : Z := total_bag self.
Definition get_total_pull_size (self : t) : Z := total_pull self.

Section sampling.
Context `{PyRandom} `{PyLimits}.

(** The inner loop of [sample_subtasks]; its variables are [shuffler]
    and [bag_counter]. *)
Definition pick_body (rand : positive) (st : list Z * Z) (group : Z * Z)
  : M (list Z * Z) :=
  let '(shuffler, bag_counter) := st in
  let '(pull, bag) := group in
  this_bag ← of_result (Py.range bag_counter (bag_counter + bag));
  let bag_counter := bag_counter + bag in
  picked ← sample rand this_bag pull;
  mret (shuffler ++ picked, bag_counter).

(** The outer loop; its variables are [result] and [bag_counter]. *)
Definition segment_body (rand : positive) (st : list Z * Z)
    (loose_group : list (Z * Z)) : M (list Z * Z) :=
  let '(result, bag_counter) := st in
  '(shuffler, bag_counter) ← for_each (pick_body rand) loose_group ([], bag_counter);
  shuffler ← shuffle rand shuffler;
  mret (result ++ shuffler, bag_counter).

(** [sample_subtasks] up to its assertion: the result and the final
    [bag_counter]. *)
Definition sample_loop (self : t) (task_id seed : str) : M (list Z * Z) :=
  rand ← Random (task_id +:+ "#" +:+ seed);
  for_each (segment_body rand) (groups self) ([], 0).

(** [self.sample_subtasks(task_id, seed)]. *)
Definition sample_subtasks (self : t) (task_id seed : str) : M (list Z) :=
  '(result, bag_counter) ← sample_loop self task_id seed;
  assert (bag_counter =? total_bag self);;
  mret result.
End sampling.

End SubtaskString.

(** ** class ScoreString *)

Module ScoreString.

Record t : Type := mk {
  string : str;
  _minimum : Z;
  _expected : Z;
  _total : Z;
}.

(** [ScoreString(string)]. *)
Definition init (string : str) : result t :=
  let parts := Py.split "/"%char string in
  match parts with
  | [p0; p1; p2] =>
      match Py.int p0, Py.int p1, Py.int p2 with
      | Some minimum, Some expected, Some total =>
          if (minimum <? 0) || (total <? minimum) then
            Raise (MinimumOutOfRange minimum)
          else if (expected <? 0) || (total <? expected) then
            Raise (ExpectedOutOfRange expected)
          else if total <? 0 then Raise (NegativeTotal total)
          else Ok (mk string minimum expected total)
      | _, _, _ => Raise (IllegalScore string)
      end
  | _ => Raise (ScoreParts string)
  end.

(** [ScoreString.default_for_subtasks(subtasks)]. *)
Definition default_for_subtasks {T} (subtasks : list T) : result t :=
  let synthesized_string :=
    "0/" +:+ Py.str_of_nat (length subtasks) +:+ "/"
         +:+ Py.str_of_nat (length subtasks) in
  init synthesized_string.

End ScoreString.

(** ** class MultifillProblem *)

Module MultifillProblem.

(** A subtask is a dictionary; the constructor only asks whether it has
    the key ["text"]. *)
Record Subtask : Type := {
  text : option str;
  giveDetailedFeedback : option bool;
}.

(** The entries of [content] that the constructor reads.  [None] is an
    absent key; for [subtasks] it also stands for a value that is neither
    a list nor a tuple.  The two strings, when present, are strings. *)
Record Content : Type := {
  header : option str;
  subtasks : option (list Subtask);
  subtask_string : option str;
  score_string : option str;
}.

Record t : Type := mk {
  _header : str;
  _subtasks : list Subtask;
  _subtask_string : SubtaskString.t;
  _score_string : ScoreString.t;
}.

Section init.
(** The initialiser of the base class [Problem] is not part of the
    plugin: it is a parameter, run first, and may raise. *)
Variable Problem_init : str -> Content -> result unit.

(** The loop over [enumerate(self._subtasks)]. *)
Definition check_text (_ : unit) (entry : nat * Subtask) : result unit :=
  let '(index, subtask) := entry in
  match text subtask with
  | None => Raise (MissingText index)
  | Some _ => Ok tt
  end.

(** The choice between the string of the problem and the default. *)
Definition choose_subtask_string (content : Content)
    (subtasks : list Subtask) : result SubtaskString.t :=
  if negb (String.eqb (Py.strip (default "" (subtask_string content))) "")
  then SubtaskString.init (default "" (subtask_string content))
  else SubtaskString.default_for_subtasks subtasks.

Definition choose_score_string (content : Content)
    (subtasks : list Subtask) : result ScoreString.t :=
  if negb (String.eqb (Py.strip (default "" (score_string content))) "")
  then ScoreString.init (default "" (score_string content))
  else ScoreString.default_for_subtasks subtasks.

(** [MultifillProblem(problemid, content, translations, taskfs)]. *)
Definition init (problemid : str) (content : Content) : result t :=
  Problem_init problemid content;;
  let _header := default "" (header content) in
  match subtasks content with
  | None => Raise (NoSubtasks problemid)
  | Some _subtasks =>
      for_each check_text (imap pair _subtasks) tt;;
      _subtask_string ← choose_subtask_string content _subtasks;
      let num_subtasks := Z.of_nat (length _subtasks) in
      let total_bag := SubtaskString.get_total_bag_size _subtask_string in
      if negb (num_subtasks =? total_bag) then
        Raise (BagMismatch problemid num_subtasks total_bag)
      else
        _score_string ← choose_score_string content _subtasks;
        Ok (mk _header _subtasks _subtask_string _score_string)
  end.
End init.

End MultifillProblem.

(** ** Functions with exceptions of their own

    [show_input] and [parse_problem] raise exceptions that the classes
    above do not: a function whose exceptions are in [E] returns in
    [outcome E]. *)

Inductive outcome (E A : Type) : Type :=
  | Return (a : A)
  | Throw (e : E).
Arguments Return {E A} a.
Arguments Throw {E A} e.

#[global] Instance outcome_ret {E} : MRet (outcome E) := fun A a => Return a.
#[global] Instance outcome_bind {E} : MBind (outcome E) := fun A B f m =>
  match m with
  | Return a => f a
  | Throw e => Throw e
  end.

(** ** [MultifillProblem.parse_problem] *)

Module ParseProblem.

(** The exceptions that [parse_problem] can raise by itself. *)
Inductive exn : Type :=
  (* int(key): ValueError("invalid literal for int() with base 10: ...") *)
  | IntValueError (key : str)
  (* subtasks.sort(): TypeError("'<' not supported between instances of
     'dict' and 'dict'") *)
  | NotOrdered.

(** [str.lower] on one code point below 256: the letters [A..Z], and the
    capital letters of Latin-1 (192 to 222, but for the multiplication
    sign), are 32 below their small letters. *)
Definition lower_char (c : ascii) : ascii :=
  let n := nat_of_ascii c in
  if ((65 <=? n) && (n <=? 90)
      || (192 <=? n) && (n <=? 222) && negb (n =? 215))%nat
  then ascii_of_nat (n + 32) else c.

(** [s.lower()]. *)
Fixpoint lower (s : str) : str :=
  match s with
  | EmptyString => EmptyString
  | String c r => String (lower_char c) (lower r)
  end.

(** A subtask as the studio sends it is a dict from strings to strings;
    once parsed, its ["giveDetailedFeedback"] is a boolean. *)
Inductive value : Type :=
  | Str (s : str)
  | Bool (b : bool).

(** The content that the studio sends.  [None] is an absent key.  The
    value of ["subtasks"] is a dict from strings to subtasks: it is
    given by its items, in their order.  [rest] stands for the other
    entries. *)
Record Content (Rest : Type) : Type := {
  subtasks : option (list (str * gmap str str));
  rest : Rest;
}.
Arguments subtasks {Rest} _.
Arguments rest {Rest} _.

(** The content that [parse_problem] returns: the subtasks are a list. *)
Record Parsed (Rest : Type) : Type := {
  parsed_subtasks : option (list (gmap str value));
  parsed_rest : Rest;
}.
Arguments parsed_subtasks {Rest} _.
Arguments parsed_rest {Rest} _.

(** [[(int(key), value) for key, value in items]]. *)
Fixpoint int_keys (items : list (str * gmap str str))
  : outcome exn (list (Z * gmap str str)) :=
  match items with
  | [] => Return []
  | (key, value) :: items =>
      match Py.int key with
      | Some key => subtasks ← int_keys items; Return ((key, value) :: subtasks)
      | None => Throw (IntValueError key)
      end
  end.

(** Two pairs that [<] does not compare: when the integers are equal the
    dicts are compared, and dicts that are not equal are not ordered. *)
Definition unordered (x y : Z * gmap str str) : Prop :=
  x.1 = y.1 /\ x.2 <> y.2.

#[global] Instance unordered_dec x y : Decision (unordered x y).
Proof. unfold unordered. apply _. Defined.

(** The order of the pairs that are compared. *)
Definition key_le (x y : Z * gmap str str) : Prop := x.1 <= y.1.

#[global] Instance key_le_dec x y : Decision (key_le x y).
Proof. unfold key_le. apply _. Defined.

(** [subtasks.sort()] on pairs of an integer and a dict.  Python compares
    two pairs by their integers and, when these are equal, by their
    dicts: equal dicts make equal pairs, and dicts that are not equal
    raise a [TypeError], dicts having no order.  To put the list in order
    a sort has to compare two pairs with the same integer, no other
    comparison telling which of them comes first; so the call raises
    exactly when two pairs have the same integer and dicts that are not
    equal.  Otherwise pairs with the same integer are equal, and the list
    in order is the same whatever the algorithm: a merge sort gives it
    here. *)
Definition sort (subtasks : list (Z * gmap str str))
  : outcome exn (list (Z * gmap str str)) :=
  if decide (Exists (fun x => Exists (unordered x) subtasks) subtasks)
  then Throw NotOrdered
  else Return (merge_sort key_le subtasks).

(** The body of the loop over the subtasks, each a dict from strings to
    strings (so that the assertion and the call of [lower] go through).
    The dict that Python updates in place is returned. *)
Definition parse_subtask (subtask : gmap str str) : gmap str value :=
  let parsed : gmap str value := Str <$> subtask in
  let parsed :=
    if decide (is_Some (parsed !! "text")) then parsed
    else <["text" := Str ""]> parsed in
  let giveDetailedFeedback :=
    lower (default "off" (subtask !! "giveDetailedFeedback")) in
  <["giveDetailedFeedback" :=
      Bool (bool_decide (giveDetailedFeedback ∈ ["on"; "true"]))]> parsed.

Section parse_problem.
Variable Rest : Type.
(** [parse_problem] of the base class [Problem], which is not part of
    the plugin: a function on contents. *)
Variable Problem_parse_problem : Content Rest -> Content Rest.

(** [MultifillProblem.parse_problem(problem_content)]. *)
Definition parse_problem (problem_content : Content Rest)
  : outcome exn (Parsed Rest) :=
  let problem_content := Problem_parse_problem problem_content in
  match subtasks problem_content with
  | Some items =>
      subtasks ← int_keys items;
      subtasks ← sort subtasks;
      let subtasks := snd <$> subtasks in
      let subtasks := parse_subtask <$> subtasks in
      Return {| parsed_subtasks := Some subtasks;
                parsed_rest := rest problem_content |}
  | None =>
      Return {| parsed_subtasks := None; parsed_rest := rest problem_content |}
  end.
End parse_problem.

End ParseProblem.

(** ** class DisplayableMultifillProblem *)

Module DisplayableMultifillProblem.

(** The exceptions that the code of [show_input] can raise by itself. *)
Inductive exn : Type :=
  (* chr: ValueError("chr() arg not in range(0x110000)") *)
  | ChrRange
  (* self._subtasks[subtask_id]: IndexError("list index out of range") *)
  | IndexError
  (* subtask["text"]: KeyError("text") *)
  | KeyError (key : str).

(** A text with code points of any size is the list of its code points;
    [of_str] is a string of this file as such a text. *)
Definition text : Type := list Z.

Definition of_str (s : str) : text :=
  (fun c => Z.of_nat (nat_of_ascii c)) <$> String.list_ascii_of_string s.

(** [ord("a")]. *)
Definition ord_a : Z := 97.

(** [chr(i)]: the text of the one code point [i]. *)
Definition chr (i : Z) : outcome exn text :=
  if (0 <=? i) && (i <? 1114112) then Return [i] else Throw ChrRange.

(** [l[i]] for a list [l] and an integer [i]; a negative [i] counts from
    the end. *)
Definition getitem {A} (l : list A) (i : Z) : outcome exn A :=
  let n := Z.of_nat (length l) in
  let j := if i <? 0 then i + n else i in
  if (0 <=? j) && (j <? n) then
    match l !! Z.to_nat j with
    | Some a => Return a
    | None => Throw IndexError
    end
  else Throw IndexError.

(** The double quote, and the constants of the loop. *)
Definition quote : str := String (ascii_of_nat 34) EmptyString.

Definition INPUT_CHECK : str :=
  ":raw-html:`" +:+
  ("<input class=" +:+ quote +:+ "ntnu-inline-form-check-input" +:+ quote
   +:+ " type=" +:+ quote +:+ "checkbox" +:+ quote
   +:+ " name=" +:+ quote +:+ "problem[PID][subtask_string]" +:+ quote
   +:+ "></input>") +:+ "`".

Definition INPUT_TEXT : str :=
  ":raw-html:`" +:+
  ("<input class=" +:+ quote +:+ "ntnu-inline-form-control" +:+ quote
   +:+ " type=" +:+ quote +:+ "text" +:+ quote
   +:+ " name=" +:+ quote +:+ "problem[PID][subtask_string]" +:+ quote
   +:+ "></input>") +:+ "`".

Definition newline : str := String (ascii_of_nat 10) EmptyString.

Definition role_prefix : str :=
  ".. role:: raw-html(raw)" +:+ newline +:+ "   :format: html" +:+ newline
  +:+ newline.

(** *** [re.sub] on input roles

    The patterns of [show_input] are [:input:`[^`]*type=check[^`]*`] and
    [:input:`[^`]*`]: the opening of an input role, what follows up to the
    next backtick, and this backtick; the first pattern also wants
    [type=check] in between.  [re.sub] reads the string from the left:
    where the pattern matches it puts the replacement and goes on after
    the match, elsewhere it keeps the character.  (The replacements have
    no backslash: they are put as they are.) *)

(** [s] without [prefix], when it starts with it. *)
Fixpoint starts_with (prefix s : str) : option str :=
  match prefix, s with
  | EmptyString, _ => Some s
  | String a prefix, String b s =>
      if Ascii.eqb a b then starts_with prefix s else None
  | String _ _, EmptyString => None
  end.

(** [s] cut at its first backtick: what is before it and what is after. *)
Fixpoint until_tick (s : str) : option (str * str) :=
  match s with
  | EmptyString => None
  | String c r =>
      if Ascii.eqb c "`" then Some (EmptyString, r)
      else '(body, rest) ← until_tick r; Some (String c body, rest)
  end.

(** [sub in s]. *)
Fixpoint contains_str (sub s : str) : bool :=
  match starts_with sub s with
  | Some _ => true
  | None =>
      match s with
      | EmptyString => false
      | String _ r => contains_str sub r
      end
  end.

(** The length of the match of the pattern at the start of [s], if it
    matches there; [check] tells the first pattern from the second. *)
Definition input_role (check : bool) (s : str) : option nat :=
  rest ← starts_with ":input:`" s;
  '(body, _) ← until_tick rest;
  if negb check || contains_str "type=check" body
  then Some (8 + String.length body + 1)%nat else None.

(** [re.sub(pattern, repl, s)]; [skip] counts the characters of the last
    match that are still to pass. *)
Fixpoint sub_roles (check : bool) (repl : str) (skip : nat) (s : str) : str :=
  match s with
  | EmptyString => EmptyString
  | String c r =>
      match skip with
      | S skip => sub_roles check repl skip r
      | O =>
          match input_role check s with
          | Some n => repl +:+ sub_roles check repl (n - 1) r
          | None => String c (sub_roles check repl 0 r)
          end
      end
  end.

(** The text of a subtask as it is parsed: input roles replaced by raw
    html, the check boxes first, after the definition of the raw-html
    role. *)
Definition role_text (subtask_text : str) : str :=
  let subtask_text := sub_roles true INPUT_CHECK 0 subtask_text in
  let subtask_text := sub_roles false INPUT_TEXT 0 subtask_text in
  role_prefix +:+ subtask_text.

(** The dict that the template gets for one subtask: ["id"], ["html"],
    and ["title"] when the key is there. *)
Record Shown (Html : Type) : Type := {
  id : Z;
  title : option text;
  html : Html;
}.
Arguments id {Html} _.
Arguments title {Html} _.
Arguments html {Html} _.

Section show_input.
Context `{PyRandom} `{PyLimits}.

(** What [show_input] uses and the plugin does not define: the methods
    [get_id], [gettext] and [get_translation_obj] of the base class, the
    class [ParsableText] with its method [parse], and the method [render]
    of the template helper (with the folder of the templates of the
    plugin).  They are taken as functions: they return. *)
Variables Html ParsableText Translation : Type.
Variable get_id : MultifillProblem.t -> str.
Variable gettext : MultifillProblem.t -> str -> str -> str.
Variable get_translation_obj : MultifillProblem.t -> str -> Translation.
Variable ParsableText_init : str -> str -> Translation -> ParsableText.
Variable parse : ParsableText -> Html.
Variable render : str -> str -> option ParsableText -> list (Shown Html) -> Html.

(** The body of the loop over [enumerate(shown_subtask_ids)]; its
    variable is the list [subtasks]. *)
Definition shown_body (self : MultifillProblem.t) (language : str)
    (shown_subtask_ids : list Z) (subtasks : list (Shown Html))
    (entry : nat * Z) : outcome exn (list (Shown Html)) :=
  let '(visual_index, subtask_id) := entry in
  title ←
    (if 1 <? Z.of_nat (length shown_subtask_ids) then
       letter ← chr (ord_a + Z.of_nat visual_index);
       mret (Some (letter ++ of_str ") "))
     else mret None);
  subtask ← getitem (MultifillProblem._subtasks self) subtask_id;
  subtask_text ←
    match MultifillProblem.text subtask with
    | Some subtask_text => Return subtask_text
    | None => Throw (KeyError "text")
    end;
  let subtask_html :=
    ParsableText_init (role_text subtask_text) "rst"
                      (get_translation_obj self language) in
  mret (subtasks ++ [ {| id := subtask_id; title := title;
                         html := parse subtask_html |} ]).

(** The header that the template gets. *)
Definition show_header (self : MultifillProblem.t) (language : str)
  : option ParsableText :=
  if negb (String.eqb (Py.strip (MultifillProblem._header self)) "")
  then Some (ParsableText_init
               (gettext self language (MultifillProblem._header self)) "rst"
               (get_translation_obj self language))
  else None.

(** [self.show_input(template_helper, language, seed)].  The field
    [_subtask_string] is never [None]: the constructor always sets it.
    An exception of the sampler is one of the computation; what comes
    after the sampler returns or raises in [outcome exn]. *)
Definition show_input (self : MultifillProblem.t) (language seed : str)
  : M (outcome exn Html) :=
  let header := show_header self language in
  shown_subtask_ids ←
    SubtaskString.sample_subtasks (MultifillProblem._subtask_string self)
                                  (get_id self) seed;
  mret (subtasks ← for_each (shown_body self language shown_subtask_ids)
                            (imap pair shown_subtask_ids) [];
        mret (render "tasks/multifill.html" (get_id self) header subtasks)).
End show_input.

End DisplayableMultifillProblem.

(** * Properties *)

(** ** Notions of the specification *)

Import SubtaskString.

(** The groups of a specification string, segment by segment. *)
Definition tokens (s : str) : list (list str) :=
  map (Py.split ","%char) (Py.split ";"%char s).

(** What the grammar says a group means: a bare integer [n] is pull [n]
    out of bag [n], and [p/b] is pull [p] out of bag [b]. *)
Inductive denotes : str -> Z * Z -> Prop :=
  | denotes_bare group n :
      Py.int group = Some n -> denotes group (n, n)
  | denotes_slash p b pull bag :
      Py.int p = Some pull -> Py.int b = Some bag ->
      denotes (p +:+ "/" +:+ b) (pull, bag).

(** The three range conditions on a group. *)
Definition in_range (g : Z * Z) : Prop := 0 <= g.1 /\ 1 <= g.2 /\ g.1 <= g.2.

(** The constructor accepts a group that means something within range,
    and rejects any other with the first check that it fails. *)
Definition accepts (group : str) (g : Z * Z) : Prop :=
  denotes group g /\ in_range g.

Definition accepted (group : str) : Prop := exists g, accepts group g.

Inductive rejects (s group : str) : exn -> Prop :=
  | rejects_illegal :
      (forall g, ~ denotes group g) -> rejects s group (IllegalGroup s)
  | rejects_negative g :
      denotes group g -> g.1 < 0 -> rejects s group (NegativePull s)
  | rejects_empty g :
      denotes group g -> 0 <= g.1 -> g.2 < 1 -> rejects s group (EmptyBag s)
  | rejects_exceeds g :
      denotes group g -> 0 <= g.1 -> 1 <= g.2 -> g.2 < g.1 ->
      rejects s group (PullGtBag s).

(** The first group of a list that the constructor rejects, and why. *)
Definition first_rejected (s : str) (l : list str) (e : exn) : Prop :=
  exists pre group post,
    l = pre ++ group :: post /\ Forall accepted pre /\ rejects s group e.

(** Sums of pulls and of bags: of one segment, and of all. *)
Definition pull_of (gs : list (Z * Z)) : Z := foldr Z.add 0 (map fst gs).
Definition bag_of (gs : list (Z * Z)) : Z := foldr Z.add 0 (map snd gs).
Definition sum_pull (gs : list (list (Z * Z))) : Z :=
  foldr Z.add 0 (map fst (concat gs)).
Definition sum_bag (gs : list (list (Z * Z))) : Z :=
  foldr Z.add 0 (map snd (concat gs)).

(** The object under construction after more groups of the current
    segment, and after more segments. *)
Definition add_groups (self : t) (gs : list (Z * Z)) : t :=
  mk (string self) (total_pull self + pull_of gs)
     (total_bag self + bag_of gs) (groups self).

Definition add_segments (self : t) (gss : list (list (Z * Z))) : t :=
  mk (string self) (total_pull self + sum_pull gss)
     (total_bag self + sum_bag gss) (groups self ++ gss).

(** A string of white space only. *)
Fixpoint whitespace_only (s : str) : bool :=
  match s with
  | EmptyString => true
  | String c r => Py.isspace c && whitespace_only r
  end.

(** *** Computations that use one generator

    [wp c g Q]: whatever the store and whatever the location [l] of the
    generator, provided its state is [g], the computation [c l] returns the
    same result [r], leaves the generator in the same state [g'], and leaves
    every other object alone; and [Q r g'] holds. *)
Definition wp `{PyRandom} {A} (c : positive -> M A) (g : generator)
    (Q : result A -> generator -> Prop) : Prop :=
  exists r g', Q r g' /\
    forall l (h : gmap positive generator),
      h !! l = Some g -> c l h = (r, <[l := g']> h).

(** What [sample_subtasks] does with its generator, once created. *)
Definition sample_body `{PyRandom} `{PyLimits} (self : t) (rand : positive)
  : M (list Z) :=
  '(result, bag_counter) ← for_each (segment_body rand) (groups self) ([], 0);
  assert (bag_counter =? total_bag self);;
  mret result.

(** *** Bags and the limits of the interpreter *)

(** The first bag, in the order of the groups, that is longer than the
    lists that the interpreter builds. *)
Fixpoint long_bag `{PyLimits} (gs : list (Z * Z)) : option Z :=
  match gs with
  | [] => None
  | (_, bag) :: gs => if list_max <? bag then Some bag else long_bag gs
  end.

(** The interpreter builds the bag of every group of the object: none
    is longer than [list_max]. *)
Definition bags_fit `{PyLimits} (self : t) : Prop :=
  Forall (fun g => g.2 <= list_max) (concat (groups self)).

(** What [list(range(...))] raises on a bag that is too long. *)
Definition range_error `{PyLimits} (bag : Z) : exn :=
  if maxsize <? bag then OverflowError else MemoryError.

(** *** An interpreter

    A 64-bit interpreter, with memory for lists of [2^32] items. *)
#[export] Instance cpython64 : PyLimits.
Proof.
  refine {| maxsize := 9223372036854775807; list_max := 4294967296 |}; lia.
Defined.

(** *** A generator that meets the contract

    Its state is a number: [sample] and [shuffle] rotate their argument by
    it and add one to it; the seed is the sum of the character codes. *)

Fixpoint code_sum (x : str) : nat :=
  match x with
  | EmptyString => 0%nat
  | String c r => (nat_of_ascii c + code_sum r)%nat
  end.

Definition rotating_sample (g : nat) (population : list Z) (k : nat)
  : list Z * nat := (take k (rotate g population), S g).

Definition rotating_shuffle (g : nat) (x : list Z) : list Z * nat :=
  (rotate g x, S g).

#[export] Instance rotating : PyRandom.
Proof.
  refine {| generator := nat;
            seed_of_str := code_sum;
            sample_of := rotating_sample;
            shuffle_of := rotating_shuffle |}.
  - intros g population k Hk. simpl. rewrite length_take, length_rotate. lia.
  - intros g population k _. simpl.
    transitivity (rotate g population); [apply sublist_submseteq, sublist_take|].
    unfold rotate. rewrite Permutation_app_comm. by rewrite take_drop.
  - intros g x. simpl. unfold rotate.
    rewrite Permutation_app_comm. by rewrite take_drop.
Defined.

(** Boolean comparisons of integers, as facts for [lia]. *)
Ltac zbool :=
  repeat match goal with
  | H : (_ <? _) = true |- _ => apply Z.ltb_lt in H
  | H : (_ <? _) = false |- _ => apply Z.ltb_ge in H
  | H : (_ <=? _) = true |- _ => apply Z.leb_le in H
  | H : (_ <=? _) = false |- _ => apply Z.leb_gt in H
  | H : (_ =? _) = true |- _ => apply Z.eqb_eq in H
  | H : (_ =? _) = false |- _ => apply Z.eqb_neq in H
  | H : _ || _ = false |- _ => apply orb_false_iff in H as [? ?]
  | H : _ && _ = true |- _ => apply andb_true_iff in H as [? ?]
  | H : _ || _ = true |- _ => apply orb_true_iff in H
  | H : _ && _ = false |- _ => apply andb_false_iff in H
  end.

(** *** The picks of the sampler *)

(** What the sampler may draw in one segment whose bags start at index
    [start]: for each group in turn, [pull] indices from distinct places
    of the bag of this group. *)
Inductive picks : Z -> list (Z * Z) -> list Z -> Prop :=
  | picks_nil start : picks start [] []
  | picks_cons start pull bag gs picked rest :
      Z.of_nat (length picked) = pull ->
      picked ⊆+ seqZ start bag ->
      picks (start + bag) gs rest ->
      picks start ((pull, bag) :: gs) (picked ++ rest).

(** What it may return for segments whose bags start at [start]: for each
    segment in turn, the picks of the segment in some order. *)
Inductive blocks : Z -> list (list (Z * Z)) -> list Z -> Prop :=
  | blocks_nil start : blocks start [] []
  | blocks_cons start gs gss picked block rest :
      picks start gs picked ->
      block ≡ₚ picked ->
      blocks (start + bag_of gs) gss rest ->
      blocks start (gs :: gss) (block ++ rest).

(** The groups with the index at which the bag of each starts. *)
Fixpoint bag_starts (start : Z) (gs : list (Z * Z)) : list (Z * (Z * Z)) :=
  match gs with
  | [] => []
  | (pull, bag) :: gs => (start, (pull, bag)) :: bag_starts (start + bag) gs
  end.

(** How many of the indices [out] are in the bag that starts at [start]. *)
Definition drawn_from (start bag : Z) (out : list Z) : Z :=
  Z.of_nat (length (filter (fun x => start <= x < start + bag) out)).

(** *** The constructor of the problem *)

(** The subtask at [i] is the first one without a text. *)
Definition first_without_text (subtasks : list MultifillProblem.Subtask)
    (i : nat) : Prop :=
  (exists subtask, subtasks !! i = Some subtask
                   /\ MultifillProblem.text subtask = None)
  /\ forall j subtask, (j < i)%nat -> subtasks !! j = Some subtask ->
                       is_Some (MultifillProblem.text subtask).

(** *** What [parse_problem] reads and returns *)

(** The item [item] of the studio has the integer key of [keyed], and
    its subtask. *)
Definition reads (item : str * gmap str str) (keyed : Z * gmap str str) : Prop :=
  Py.int item.1 = Some keyed.1 /\ item.2 = keyed.2.

(** A parsed subtask has a text, and a boolean for the feedback. *)
Definition well_formed (subtask : gmap str ParseProblem.value) : Prop :=
  (exists text, subtask !! "text" = Some (ParseProblem.Str text))
  /\ (exists b, subtask !! "giveDetailedFeedback" = Some (ParseProblem.Bool b)).

(** *** The input roles *)

(** The html of a check box, between the backticks of its role. *)
Definition check_html : str :=
  "<input class=" +:+ DisplayableMultifillProblem.quote
  +:+ "ntnu-inline-form-check-input" +:+ DisplayableMultifillProblem.quote
  +:+ " type=" +:+ DisplayableMultifillProblem.quote +:+ "checkbox"
  +:+ DisplayableMultifillProblem.quote
  +:+ " name=" +:+ DisplayableMultifillProblem.quote
  +:+ "problem[PID][subtask_string]" +:+ DisplayableMultifillProblem.quote
  +:+ "></input>".

(** [s] ends with the opening of a role, but for its backtick. *)
Fixpoint ends_with_input (s : str) : bool :=
  String.eqb s ":input:"
  || match s with
     | EmptyString => false
     | String _ r => ends_with_input r
     end.

(** *** What [show_input] shows *)

Section shows.
Import DisplayableMultifillProblem.
Variables Html ParsableText Translation : Type.
Variable get_translation_obj : MultifillProblem.t -> str -> Translation.
Variable ParsableText_init : str -> str -> Translation -> ParsableText.
Variable parse : ParsableText -> Html.

(** The title of the subtask at place [visual_index] among [n]: a
    letter, from [a] on, when there is more than one subtask. *)
Definition title_at (n visual_index : nat) : option text :=
  if (1 <? n)%nat then Some [97 + Z.of_nat visual_index; 41; 32] else None.

(** The entry [shown] is that of the subtask [subtask_id] of the problem,
    at place [visual_index] among [n]. *)
Definition shows (self : MultifillProblem.t) (language : str) (n : nat)
    (visual_index : nat) (subtask_id : Z) (shown : Shown Html) : Prop :=
  id shown = subtask_id
  /\ title shown = title_at n visual_index
  /\ exists subtask subtask_text,
       0 <= subtask_id
       /\ MultifillProblem._subtasks self !! Z.to_nat subtask_id = Some subtask
       /\ MultifillProblem.text subtask = Some subtask_text
       /\ html shown
          = parse (ParsableText_init (role_text subtask_text) "rst"
                                     (get_translation_obj self language)).
End shows.

(** ** The model on small inputs *)

Example split_examples :
  Py.split ";"%char "a;;b;" = ["a"; ""; "b"; ""]
  /\ Py.split ";"%char "" = [""]
  /\ Py.split "/"%char "1/2/3" = ["1"; "2"; "3"].
Proof. done. Qed.

Example int_examples :
  Py.int "42" = Some 42 /\ Py.int " -7 " = Some (-7) /\ Py.int "+1_000" = Some 1000
  /\ Py.int "007" = Some 7 /\ Py.int "" = None /\ Py.int "abc" = None
  /\ Py.int "1__0" = None /\ Py.int "_1" = None /\ Py.int "1_" = None
  /\ Py.int "- 1" = None /\ Py.int "1 2" = None /\ Py.int "1.0" = None.
Proof. repeat split; reflexivity. Qed.

Example strip_examples :
  Py.strip "  a b  " = "a b" /\ Py.strip "   " = "" /\ Py.strip "" = "".
Proof. done. Qed.

(** The table of rejected strings, and two accepted ones. *)
Example init_examples :
  init "2/1" = Raise (PullGtBag "2/1")
  /\ init "0/0" = Raise (EmptyBag "0/0")
  /\ init "-1/2" = Raise (NegativePull "-1/2")
  /\ init "abc" = Raise (IllegalGroup "abc")
  /\ init "1/2/3" = Raise (IllegalGroup "1/2/3")
  /\ init "1;1/2,1" = Ok (mk "1;1/2,1" 3 4 [[(1, 1)]; [(1, 2); (1, 1)]])
  /\ init "0/1" = Ok (mk "0/1" 0 1 [[(0, 1)]]).
Proof. repeat split; reflexivity. Qed.

(** [list(range(a, b))] on the 64-bit interpreter: the length counts,
    not the size of [a] and [b]. *)
Example range_examples :
  Py.range 2 5 = Ok [2; 3; 4]
  /\ Py.range 5 3 = Ok []
  /\ Py.range 100000000000000000000000 100000000000000000000002
     = Ok [100000000000000000000000; 100000000000000000000001]
  /\ Py.range 0 9223372036854775807 = Raise MemoryError
  /\ Py.range 0 9223372036854775808 = Raise OverflowError
  /\ Py.range 0 100000000000000000000000 = Raise OverflowError.
Proof. repeat split; reflexivity. Qed.

(** Three runs of the sampler with the rotating generator. *)
Example sample_examples :
  (sample_subtasks (mk "1;1/2,1" 3 4 [[(1, 1)]; [(1, 2); (1, 1)]])
                   "task" "alice" ∅).1 = Ok [0; 1; 3]
  /\ (sample_subtasks (mk "1;1/2,1" 3 4 [[(1, 1)]; [(1, 2); (1, 1)]])
                      "task" "bob" ∅).1 = Ok [0; 3; 2]
  /\ (sample_subtasks (mk "3/2" 3 2 [[(3, 2)]]) "task" "bob" ∅).1
     = Raise SampleRange.
Proof. repeat split; reflexivity. Qed.

(** ** Strings *)

Section split.
Variable sep : ascii.

Lemma split_not_nil s : Py.split sep s <> [].
Proof.
  destruct s as [|c r]; simpl; [done|].
  destruct (Ascii.eqb c sep); [done|]. by destruct (Py.split sep r).
Qed.

Lemma split_no_sep s : Py.contains sep s = false -> Py.split sep s = [s].
Proof.
  induction s as [|c r IH]; simpl; [done|].
  intros [Hc Hr]%orb_false_iff. rewrite Hc, (IH Hr). done.
Qed.

Lemma split_sep p r :
  Py.contains sep p = false ->
  Py.split sep (p +:+ String sep r) = p :: Py.split sep r.
Proof.
  induction p as [|c p IH]; simpl.
  - by rewrite Ascii.eqb_refl.
  - intros [Hc Hp]%orb_false_iff. by rewrite Hc, (IH Hp).
Qed.

(** A split with at least two fields comes from a string with a
    separator after its first field. *)
Lemma split_cons_inv s p q fs :
  Py.split sep s = p :: q :: fs ->
  exists r, s = p +:+ String sep r /\ Py.contains sep p = false
            /\ Py.split sep r = q :: fs.
Proof.
  revert p. induction s as [|c s IH]; simpl; intros p; [done|].
  destruct (Ascii.eqb c sep) eqn:Hc.
  - apply Ascii.eqb_eq in Hc as ->. intros [= <- Hs]. by exists s.
  - destruct (Py.split sep s) as [|f fs'] eqn:Hs; [done|].
    intros [= <- ->]. destruct (IH f eq_refl) as (r & -> & Hf & Hr).
    exists r. simpl. by rewrite Hc, Hf.
Qed.

Lemma split_singleton_inv s p :
  Py.split sep s = [p] -> p = s /\ Py.contains sep s = false.
Proof.
  revert p. induction s as [|c s IH]; simpl; intros p.
  - by intros [= <-].
  - destruct (Ascii.eqb c sep) eqn:Hc.
    + intros [= _ Hs]. by destruct (split_not_nil s).
    + destruct (Py.split sep s) as [|f fs] eqn:Hs; [by destruct (split_not_nil s)|].
      intros [= <- ->]. by destruct (IH f eq_refl) as [-> ->].
Qed.

Lemma contains_app p r :
  Py.contains sep (p +:+ r) = Py.contains sep p || Py.contains sep r.
Proof. induction p as [|c p IH]; simpl; [done|]. by rewrite IH, orb_assoc. Qed.
End split.

(** ** [int] accepts no slash *)

Lemma skip_space_contains c s :
  Py.int_space c = false ->
  Py.contains c (Py.skip_space s) = Py.contains c s.
Proof.
  intros Hc. induction s as [|d s IH]; simpl; [done|].
  destruct (Py.int_space d) eqn:Hd; simpl; [|done].
  rewrite IH. destruct (Ascii.eqb d c) eqn:E; [|done].
  apply Ascii.eqb_eq in E. congruence.
Qed.

Lemma scan_digits_contains c s us acc n v m rest :
  Py.digit c = None -> c <> "_"%char ->
  Py.scan_digits s us acc n = Some (v, m, rest) ->
  Py.contains c s = Py.contains c rest.
Proof.
  intros Hd Hu. revert us acc n.
  induction s as [|d s IH]; simpl; intros us acc n.
  - destruct us; [done|]. by intros [= _ _ <-].
  - assert (Py.digit d <> None \/ d = "_"%char -> Ascii.eqb d c = false) as Hne.
    { intros Hor. destruct (Ascii.eqb d c) eqn:E; [|done].
      apply Ascii.eqb_eq in E as ->. by destruct Hor. }
    destruct (Py.digit d) eqn:Hdd.
    + intros Hs. rewrite Hne by (by left). by apply IH in Hs.
    + destruct (Ascii.eqb d "_") eqn:Hdu.
      * apply Ascii.eqb_eq in Hdu. destruct us; [done|].
        intros Hs. rewrite Hne by (by right). by apply IH in Hs.
      * destruct us; [done|]. by intros [= _ _ <-].
Qed.

Lemma int_digits_no_slash s v :
  Py.int_digits s = Some v -> Py.contains "/"%char s = false.
Proof.
  unfold Py.int_digits. intros Hint.
  destruct (Py.scan_digits s false 0 0) as [[[v' m] rest]|] eqn:Hscan;
    [|by repeat case_match].
  rewrite (scan_digits_contains "/" _ _ _ _ _ _ _ eq_refl ltac:(done) Hscan).
  rewrite <-(skip_space_contains "/" rest) by done.
  destruct (Py.skip_space rest); [done|]. by repeat case_match.
Qed.

Lemma int_no_slash s v : Py.int s = Some v -> Py.contains "/"%char s = false.
Proof.
  unfold Py.int. rewrite <-(skip_space_contains "/" s) by done.
  destruct (Py.skip_space s) as [|c s1]; [done|].
  destruct (decide (c = "+"%char)) as [->|Hp].
  { simpl. apply int_digits_no_slash. }
  destruct (decide (c = "-"%char)) as [->|Hm].
  { simpl. destruct (Py.int_digits s1) eqn:E; [|done].
    intros _. by eapply int_digits_no_slash. }
  intros Hint.
  assert (Py.int_digits (String c s1) = Some v) as Hd.
  { revert Hint. destruct c as [[] [] [] [] [] [] [] []]; done. }
  by eapply int_digits_no_slash.
Qed.

(** ** Reading one group *)

Lemma read_group_Ok s group g : read_group s group = Ok g <-> denotes group g.
Proof.
  unfold read_group. split.
  - destruct (Py.contains "/" group) eqn:Hc.
    + destruct (Py.split "/" group) as [|p [|b [|? ?]]] eqn:Hs; try done.
      apply split_cons_inv in Hs as (r & -> & _ & [-> _]%split_singleton_inv).
      destruct (Py.int p) eqn:Hp, (Py.int r) eqn:Hr; try done.
      intros [= <-]. by apply denotes_slash.
    + destruct (Py.int group) eqn:Hi; [|done]. intros [= <-].
      by apply denotes_bare.
  - destruct 1 as [group n Hi|p b pull bag Hp Hb].
    + by rewrite (int_no_slash _ _ Hi), Hi.
    + change (p +:+ "/" +:+ b) with (p +:+ String "/"%char b).
      rewrite contains_app. simpl. rewrite orb_true_r.
      rewrite split_sep by eauto using int_no_slash.
      rewrite split_no_sep by eauto using int_no_slash.
      by rewrite Hp, Hb.
Qed.

Lemma read_group_Raise s group e :
  read_group s group = Raise e <-> e = IllegalGroup s /\ forall g, ~ denotes group g.
Proof.
  split.
  - intros Hr. split.
    + unfold read_group in Hr. repeat case_match; by simplify_eq.
    + intros g Hg%(read_group_Ok s). congruence.
  - intros [-> Hno]. destruct (read_group s group) as [g|e] eqn:Hr.
    + by apply read_group_Ok, Hno in Hr.
    + unfold read_group in Hr. repeat case_match; by simplify_eq.
Qed.

Lemma denotes_fun group g1 g2 : denotes group g1 -> denotes group g2 -> g1 = g2.
Proof. intros H1%(read_group_Ok "") H2%(read_group_Ok ""). congruence. Qed.

Lemma accepts_not_rejects s group g e : accepts group g -> ~ rejects s group e.
Proof.
  intros [Hd (? & ? & ?)] Hr.
  destruct Hr as [Hno|g' Hd'|g' Hd'|g' Hd'];
    [by eapply Hno|..]; rewrite (denotes_fun _ _ _ Hd' Hd) in *; lia.
Qed.

Lemma rejects_fun s group e1 e2 :
  rejects s group e1 -> rejects s group e2 -> e1 = e2.
Proof.
  intros H1 H2. destruct H1; inversion H2; simplify_eq; try done;
    repeat match goal with
    | H : forall g, ~ denotes _ g, H' : denotes _ _ |- _ => destruct (H _ H')
    | H : denotes ?t ?a, H' : denotes ?t ?b |- _ =>
        rewrite (denotes_fun _ _ _ H H') in *; clear H
    end; lia.
Qed.

Lemma group_body_Ok self lgr group st :
  group_body (self, lgr) group = Ok st <->
  exists g, accepts group g /\
    st = (mk (string self) (total_pull self + g.1) (total_bag self + g.2)
             (groups self), lgr ++ [g]).
Proof.
  unfold group_body, accepts, in_range.
  destruct (read_group (string self) group) as [[pull bag]|e] eqn:Hr; simpl.
  - apply read_group_Ok in Hr. split.
    + repeat case_match; try done. intros [= <-]. exists (pull, bag).
      simpl. zbool. repeat split; try done; lia.
    + intros (g & (Hd & ? & ? & ?) & ->).
      rewrite (denotes_fun _ _ _ Hd Hr) in *. simpl in *.
      repeat case_match; try done; zbool; lia.
  - split; [done|]. intros (g & (Hd%(read_group_Ok (string self)) & _) & _).
    congruence.
Qed.

Lemma group_body_Raise self lgr group e :
  group_body (self, lgr) group = Raise e <-> rejects (string self) group e.
Proof.
  unfold group_body.
  destruct (read_group (string self) group) as [[pull bag]|e'] eqn:Hr; simpl.
  - apply read_group_Ok in Hr. split.
    + repeat case_match; try done; intros [= <-].
      * eapply rejects_negative; [done|zbool; simpl; lia].
      * eapply rejects_empty; [done|zbool; simpl; lia..].
      * eapply rejects_exceeds; [done|zbool; simpl; lia..].
    + destruct 1 as [Hno|g' Hd'|g' Hd'|g' Hd']; [by destruct (Hno _ Hr)|..];
        rewrite (denotes_fun _ _ _ Hd' Hr) in *; simpl in *;
        repeat case_match; try done; zbool; lia.
  - apply read_group_Raise in Hr as [-> Hno]. split.
    + intros [= <-]. by apply rejects_illegal.
    + destruct 1 as [_|g Hd|g Hd|g Hd]; [done|by destruct (Hno g)..].
Qed.

(** ** The two loops of the constructor *)

Lemma for_each_cons {m} `{!MRet m, !MBind m} {A S} (body : S -> A -> m S) a l s :
  for_each body (a :: l) s = body s a ≫= for_each body l.
Proof. done. Qed.

Lemma for_each_nil {m} `{!MRet m, !MBind m} {A S} (body : S -> A -> m S) s :
  for_each body [] s = mret s.
Proof. done. Qed.

Lemma result_bind_Ok {A B} (f : A -> result B) a : Ok a ≫= f = f a.
Proof. done. Qed.

Lemma result_bind_Raise {A B} (f : A -> result B) e : Raise e ≫= f = Raise e.
Proof. done. Qed.

Lemma add_groups_cons self g gs :
  add_groups (mk (string self) (total_pull self + g.1) (total_bag self + g.2)
                 (groups self)) gs = add_groups self (g :: gs).
Proof. unfold add_groups, pull_of, bag_of. simpl. f_equal; lia. Qed.

Lemma add_groups_nil self : add_groups self [] = self.
Proof.
  unfold add_groups, pull_of, bag_of. simpl. rewrite !Z.add_0_r.
  by destruct self.
Qed.

Lemma group_loop_Ok toks self lgr st :
  for_each group_body toks (self, lgr) = Ok st <->
  exists gs, Forall2 accepts toks gs /\ st = (add_groups self gs, lgr ++ gs).
Proof.
  revert self lgr. induction toks as [|tok toks IH]; intros self lgr.
  - rewrite for_each_nil. split.
    + intros [= <-]. exists []. split; [constructor|].
      by rewrite add_groups_nil, app_nil_r.
    + intros (gs & ->%Forall2_nil_inv_l & ->).
      by rewrite add_groups_nil, app_nil_r.
  - rewrite for_each_cons.
    destruct (group_body (self, lgr) tok) as [[self' lgr']|e] eqn:Hb.
    + apply group_body_Ok in Hb as (g & Hg & [= -> ->]).
      rewrite result_bind_Ok, IH. split.
      * intros (gs & Hgs & ->). exists (g :: gs). split; [by constructor|].
        by rewrite add_groups_cons, <-app_assoc.
      * intros (gs' & (g' & gs & [Hd' _] & Hgs & ->)%Forall2_cons_inv_l & ->).
        rewrite (denotes_fun _ _ _ Hd' (proj1 Hg)).
        exists gs. split; [done|].
        by rewrite add_groups_cons, <-app_assoc.
    + rewrite result_bind_Raise. split; [done|].
      intros (gs' & (g' & gs & Hg & _)%Forall2_cons_inv_l & _).
      apply group_body_Raise in Hb. by destruct (accepts_not_rejects _ _ _ _ Hg Hb).
Qed.

Lemma first_rejected_app_l s l1 l2 e :
  first_rejected s l1 e -> first_rejected s (l1 ++ l2) e.
Proof.
  intros (pre & tok & post & -> & Hpre & Hrej).
  exists pre, tok, (post ++ l2). by rewrite <-app_assoc.
Qed.

Lemma first_rejected_app_r s l1 l2 e :
  Forall accepted l1 ->
  first_rejected s (l1 ++ l2) e <-> first_rejected s l2 e.
Proof.
  intros Hl1. split.
  - induction Hl1 as [|a l1 [g Ha] _ IH]; [done|].
    intros (pre & tok & post & Heq & Hpre & Hrej).
    destruct pre as [|p pre]; simplify_eq/=.
    { by destruct (accepts_not_rejects _ _ _ _ Ha Hrej). }
    apply Forall_cons in Hpre as [_ Hpre]. apply IH. by exists pre, tok, post.
  - intros (pre & tok & post & -> & Hpre & Hrej).
    exists (l1 ++ pre), tok, post. rewrite <-app_assoc.
    split; [done|]. split; [by apply Forall_app|done].
Qed.

Lemma first_rejected_fun s l e1 e2 :
  first_rejected s l e1 -> first_rejected s l e2 -> e1 = e2.
Proof.
  intros (pre & tok & post & -> & Hpre & Hrej).
  rewrite first_rejected_app_r by done.
  intros (pre' & tok' & post' & Heq & Hpre' & Hrej').
  destruct pre' as [|p pre']; simplify_eq/=; [by eapply rejects_fun|].
  apply Forall_cons in Hpre' as [[g Hg] _].
  by destruct (accepts_not_rejects _ _ _ _ Hg Hrej).
Qed.

Lemma first_rejected_not_accepted s l e :
  first_rejected s l e -> ~ Forall accepted l.
Proof.
  intros (pre & tok & post & -> & _ & Hrej) [_ [[g Hg] _]%Forall_cons]%Forall_app.
  by destruct (accepts_not_rejects _ _ _ _ Hg Hrej).
Qed.

Lemma group_loop_Raise toks self lgr e :
  for_each group_body toks (self, lgr) = Raise e <->
  first_rejected (string self) toks e.
Proof.
  revert self lgr. induction toks as [|tok toks IH]; intros self lgr.
  - split; [done|]. intros (pre & tok & post & Hnil & _). by destruct pre.
  - rewrite for_each_cons.
    destruct (group_body (self, lgr) tok) as [[self1 lgr1]|e1] eqn:Hb.
    + apply group_body_Ok in Hb as (g & Hg & [= -> ->]).
      rewrite result_bind_Ok, IH. simpl. symmetry.
      apply (first_rejected_app_r _ [tok]). constructor; [by exists g|done].
    + rewrite result_bind_Raise. apply group_body_Raise in Hb.
      assert (first_rejected (string self) (tok :: toks) e1) as Hfirst.
      { by exists [], tok, toks. }
      split.
      * by intros [= <-].
      * intros Hrej. f_equal. by eapply first_rejected_fun.
Qed.

Lemma accepts_all_fun toks gs1 gs2 :
  Forall2 accepts toks gs1 -> Forall2 accepts toks gs2 -> gs1 = gs2.
Proof.
  intros Hgs. revert gs2. induction Hgs as [|tok g toks gs [Hg _] _ IH];
    intros gs2 Hgs2; inversion Hgs2 as [|? g2 ? gs3 [Hg2 _]]; simplify_eq; [done|].
  f_equal; [by eapply denotes_fun|by apply IH].
Qed.

Lemma accepts_all_accepted toks gs :
  Forall2 accepts toks gs -> Forall accepted toks.
Proof. induction 1; constructor; [by eexists|done]. Qed.

Lemma loose_group_body_Ok self loose_group self1 :
  loose_group_body self loose_group = Ok self1 <->
  exists gs, Forall2 accepts (Py.split ","%char loose_group) gs
             /\ self1 = add_segments self [gs].
Proof.
  unfold loose_group_body.
  destruct (for_each group_body _ _) as [[self2 lgr]|e] eqn:Hl.
  - rewrite result_bind_Ok. apply group_loop_Ok in Hl as (gs & Hgs & [= -> ->]).
    assert (add_segments self [gs]
            = mk (string self) (total_pull (add_groups self gs))
                 (total_bag (add_groups self gs)) (groups self ++ [gs])) as Heq.
    { unfold add_segments, sum_pull, sum_bag. simpl. by rewrite app_nil_r. }
    split.
    + intros [= <-]. by exists gs.
    + intros (gs2 & Hgs2 & ->).
      by rewrite (accepts_all_fun _ _ _ Hgs2 Hgs), Heq.
  - rewrite result_bind_Raise. split; [done|]. intros (gs & Hgs & _).
    assert (is_Ok (for_each group_body (Py.split "," loose_group) (self, [])))
      as [? ?]; [|congruence].
    eexists. apply group_loop_Ok. eauto.
Qed.

Lemma loose_group_body_Raise self loose_group e :
  loose_group_body self loose_group = Raise e <->
  first_rejected (string self) (Py.split ","%char loose_group) e.
Proof.
  unfold loose_group_body. rewrite <-(group_loop_Raise _ self []).
  destruct (for_each group_body _ _) as [[self1 lgr]|e1] eqn:Hl.
  - split; intros [=].
  - rewrite result_bind_Raise. split; by intros [= ->].
Qed.

Lemma add_segments_nil self : add_segments self [] = self.
Proof.
  unfold add_segments, sum_pull, sum_bag. simpl.
  rewrite !Z.add_0_r, app_nil_r. by destruct self.
Qed.

Lemma sum_pull_cons gs gss :
  sum_pull (gs :: gss) = foldr Z.add 0 (map fst gs) + sum_pull gss.
Proof.
  unfold sum_pull. simpl. rewrite map_app.
  induction (map fst gs) as [|x l IH]; simpl; [done|]. rewrite IH. lia.
Qed.

Lemma sum_bag_cons gs gss :
  sum_bag (gs :: gss) = foldr Z.add 0 (map snd gs) + sum_bag gss.
Proof.
  unfold sum_bag. simpl. rewrite map_app.
  induction (map snd gs) as [|x l IH]; simpl; [done|]. rewrite IH. lia.
Qed.

Lemma add_segments_cons self gs gss :
  add_segments (add_segments self [gs]) gss = add_segments self (gs :: gss).
Proof.
  unfold add_segments. simpl. rewrite !sum_pull_cons, !sum_bag_cons.
  rewrite <-app_assoc. simpl. unfold sum_pull, sum_bag. simpl. f_equal; lia.
Qed.

Lemma segment_loop_Ok segs self self1 :
  for_each loose_group_body segs self = Ok self1 <->
  exists gss, Forall2 (Forall2 accepts) (map (Py.split ","%char) segs) gss
              /\ self1 = add_segments self gss.
Proof.
  revert self. induction segs as [|seg segs IH]; intros self.
  - rewrite for_each_nil. split.
    + intros [= <-]. exists []. by rewrite add_segments_nil.
    + intros (gss & ->%Forall2_nil_inv_l & ->). by rewrite add_segments_nil.
  - rewrite for_each_cons.
    destruct (loose_group_body self seg) as [self2|e] eqn:Hb.
    + apply loose_group_body_Ok in Hb as (gs & Hgs & ->).
      rewrite result_bind_Ok, IH. split.
      * intros (gss & Hgss & ->). exists (gs :: gss).
        split; [by constructor|]. by rewrite add_segments_cons.
      * intros (gss2 & (gs2 & gss & Hgs2 & Hgss & ->)%Forall2_cons_inv_l & ->).
        rewrite (accepts_all_fun _ _ _ Hgs2 Hgs). exists gss.
        split; [done|]. by rewrite add_segments_cons.
    + rewrite result_bind_Raise. split; [done|].
      intros (gss2 & (gs2 & gss & Hgs2 & _)%Forall2_cons_inv_l & _).
      assert (is_Ok (loose_group_body self seg)) as [? ?]; [|congruence].
      eexists. apply loose_group_body_Ok. eauto.
Qed.

Lemma segment_loop_Raise segs self e :
  for_each loose_group_body segs self = Raise e <->
  first_rejected (string self) (concat (map (Py.split ","%char) segs)) e.
Proof.
  revert self. induction segs as [|seg segs IH]; intros self.
  - split; [done|]. intros (pre & tok & post & Hnil & _). by destruct pre.
  - rewrite for_each_cons. simpl.
    destruct (loose_group_body self seg) as [self1|e1] eqn:Hb.
    + apply loose_group_body_Ok in Hb as (gs & Hgs & ->).
      rewrite result_bind_Ok, IH.
      by rewrite first_rejected_app_r by eauto using accepts_all_accepted.
    + rewrite result_bind_Raise. apply loose_group_body_Raise in Hb. split.
      * intros [= <-]. by apply first_rejected_app_l.
      * intros Hrej. f_equal.
        eapply first_rejected_fun; [|done]. by apply first_rejected_app_l.
Qed.

(** ** What the constructor returns *)

Lemma init_Ok s self :
  init s = Ok self <->
  exists gss, Forall2 (Forall2 accepts) (tokens s) gss
              /\ self = mk s (sum_pull gss) (sum_bag gss) gss.
Proof. unfold init. by rewrite segment_loop_Ok. Qed.

Lemma init_Raise s e :
  init s = Raise e <-> first_rejected s (concat (tokens s)) e.
Proof. unfold init. by rewrite segment_loop_Raise. Qed.

(** ** Computations that use one generator *)

Section wp.
Context `{PyRandom} `{PyLimits}.

Lemma wp_mono {A} (c : positive -> M A) g (Q Q' : result A -> generator -> Prop) :
  (forall r g', Q r g' -> Q' r g') -> wp c g Q -> wp c g Q'.
Proof. intros HQ (r & g' & Hr & Hc). exists r, g'. eauto. Qed.

Lemma wp_ret {A} (a : A) g (Q : result A -> generator -> Prop) :
  Q (Ok a) g -> wp (fun _ => mret a) g Q.
Proof.
  intros HQ. exists (Ok a), g. split; [done|]. intros l h Hl.
  unfold mret, M_ret. by rewrite insert_id.
Qed.

Lemma wp_raise {A} e g (Q : result A -> generator -> Prop) :
  Q (Raise e) g -> wp (fun _ => raise e) g Q.
Proof.
  intros HQ. exists (Raise e), g. split; [done|]. intros l h Hl.
  unfold raise. by rewrite insert_id.
Qed.

Lemma wp_bind {A B} (c : positive -> M A) (k : positive -> A -> M B) g
    (Q : result B -> generator -> Prop) :
  wp c g (fun r g1 => match r with
                      | Ok a => wp (fun l => k l a) g1 Q
                      | Raise e => Q (Raise e) g1
                      end) ->
  wp (fun l => c l ≫= k l) g Q.
Proof.
  intros ([a|e] & g1 & Hr & Hc).
  - destruct Hr as (r2 & g2 & HQ & Hk). exists r2, g2. split; [done|].
    intros l h Hl. unfold mbind, M_bind. rewrite (Hc l h Hl).
    rewrite (Hk l (<[l:=g1]> h)) by apply lookup_insert_eq.
    by rewrite insert_insert_eq.
  - exists (Raise e), g1. split; [done|].
    intros l h Hl. unfold mbind, M_bind. by rewrite (Hc l h Hl).
Qed.

Lemma wp_of_result {A} (r : result A) g (Q : result A -> generator -> Prop) :
  Q r g -> wp (fun _ => of_result r) g Q.
Proof.
  intros HQ. exists r, g. split; [done|]. intros l h Hl.
  unfold of_result. by rewrite insert_id.
Qed.

Lemma wp_assert b g (Q : result unit -> generator -> Prop) :
  (b = true -> Q (Ok tt) g) -> (b = false -> Q (Raise AssertionError) g) ->
  wp (fun _ => assert b) g Q.
Proof.
  intros Ht Hf. unfold assert. destruct b; [apply wp_ret|apply wp_raise]; auto.
Qed.

Lemma wp_sample population k g (Q : result (list Z) -> generator -> Prop) :
  (0 <= k <= Z.of_nat (length population) ->
   Q (Ok (sample_of g population (Z.to_nat k)).1)
     (sample_of g population (Z.to_nat k)).2) ->
  (~ 0 <= k <= Z.of_nat (length population) -> Q (Raise SampleRange) g) ->
  wp (fun rand => sample rand population k) g Q.
Proof.
  intros Hin Hout.
  destruct (decide (0 <= k <= Z.of_nat (length population))) as [Hk|Hk].
  - eexists _, _. split; [by apply Hin|]. intros l h Hl. unfold sample.
    rewrite Hl. destruct (sample_of _ _ _) as [picked g1].
    case_match; [done|]. zbool. lia.
  - exists (Raise SampleRange), g. split; [by apply Hout|].
    intros l h Hl. unfold sample. rewrite Hl, insert_id by done.
    case_match; [|done]. zbool. lia.
Qed.

Lemma wp_shuffle x g (Q : result (list Z) -> generator -> Prop) :
  Q (Ok (shuffle_of g x).1) (shuffle_of g x).2 ->
  wp (fun rand => shuffle rand x) g Q.
Proof.
  intros HQ. eexists _, _. split; [done|]. intros l h Hl. unfold shuffle.
  rewrite Hl. by destruct (shuffle_of _ _).
Qed.

(** A loop whose body uses the generator only, uses the generator only. *)
Lemma wp_for_each_any {A S} (body : positive -> S -> A -> M S) xs s g :
  (forall s a g, wp (fun l => body l s a) g (fun _ _ => True)) ->
  wp (fun l => for_each (body l) xs s) g (fun _ _ => True).
Proof.
  intros Hbody. revert s g. induction xs as [|a xs IH]; intros s g.
  - by apply wp_ret.
  - apply (wp_bind (fun l => body l s a) (fun l => for_each (body l) xs)).
    eapply wp_mono; [|apply Hbody]. intros [s1|e] g1 _; [apply IH|done].
Qed.

(** The associativity of sequencing, store by store. *)
Lemma M_bind_assoc {A B C} (c : M A) (f : A -> M B) (k : B -> M C) h :
  ((c ≫= f) ≫= k) h = (c ≫= fun a => f a ≫= k) h.
Proof. unfold mbind, M_bind. by destruct (c h) as [[a|e] h1]. Qed.

(** A computation that creates its generator from a string and then uses
    that generator only. *)
Lemma wp_Random {A} (x : str) (c : positive -> M A)
    (Q : result A -> generator -> Prop) :
  wp c (seed_of_str x) Q ->
  exists r g', Q r g' /\
    forall h : gmap positive generator,
      (Random x ≫= c) h = (r, <[fresh (dom h) := g']> h).
Proof.
  intros (r & g' & HQ & Hc). exists r, g'. split; [done|]. intros h.
  unfold mbind, M_bind, Random.
  rewrite (Hc _ _ (lookup_insert_eq _ _ _)). by rewrite insert_insert_eq.
Qed.

(** ** The loops of the sampler *)

Lemma bag_of_nonneg gs : Forall in_range gs -> 0 <= bag_of gs.
Proof.
  unfold bag_of. induction 1 as [|g gs (? & ? & ?) _ IH]; simpl; lia.
Qed.

(** [list(range(...))] on the bag of a group: the indices of the bag,
    unless it is too long. *)
Lemma range_bag bag_counter bag :
  Py.range bag_counter (bag_counter + bag)
  = if list_max <? bag then Raise (range_error bag)
    else Ok (seqZ bag_counter bag).
Proof.
  unfold Py.range, range_error. cbv zeta.
  replace (bag_counter + bag - bag_counter) with bag by lia.
  pose proof list_max_maxsize. pose proof list_max_two.
  destruct (Z.ltb_spec list_max bag).
  - rewrite Z.max_r by lia. destruct (Z.ltb_spec maxsize bag); [done|].
    destruct (Z.ltb_spec list_max bag); [done|lia].
  - destruct (Z.ltb_spec maxsize (Z.max 0 bag)); [lia|].
    destruct (Z.ltb_spec list_max (Z.max 0 bag)); [lia|done].
Qed.

Lemma long_bag_app gs1 gs2 :
  long_bag (gs1 ++ gs2)
  = match long_bag gs1 with
    | Some bag => Some bag
    | None => long_bag gs2
    end.
Proof.
  induction gs1 as [|[pull bag] gs1 IH]; simpl; [done|].
  by destruct (list_max <? bag).
Qed.

Lemma long_bag_fit gs :
  long_bag gs = None <-> Forall (fun g => g.2 <= list_max) gs.
Proof.
  induction gs as [|[pull bag] gs IH]; simpl; [done|].
  rewrite Forall_cons. simpl. destruct (Z.ltb_spec list_max bag).
  - split; [done|]. lia.
  - rewrite IH. split; [intros ?; split; [lia|done]|by intros [_ ?]].
Qed.

Lemma long_bag_unfit gs :
  ~ Forall (fun g => g.2 <= list_max) gs -> exists bag, long_bag gs = Some bag.
Proof.
  rewrite <-long_bag_fit. destruct (long_bag gs) as [bag|]; [eauto|done].
Qed.

(** Where the groups cover no more indices than the interpreter has room
    for, no bag is too long. *)
Lemma long_bag_None gs :
  Forall in_range gs -> bag_of gs <= list_max -> long_bag gs = None.
Proof.
  induction 1 as [|[pull bag] gs (Hp & Hb & Hpb) Hgs IH]; [done|].
  pose proof (bag_of_nonneg gs Hgs). unfold bag_of in *. simpl in *.
  intros Hle. destruct (Z.ltb_spec list_max bag); [lia|]. apply IH. lia.
Qed.

(** A bag that is too long is one of the bags. *)
Lemma long_bag_Some gs bag :
  Forall in_range gs -> long_bag gs = Some bag ->
  list_max < bag <= bag_of gs.
Proof.
  induction 1 as [|[pull b] gs (Hp & Hb & Hpb) Hgs IH]; [done|].
  pose proof (bag_of_nonneg gs Hgs). unfold bag_of in *. simpl in *.
  destruct (Z.ltb_spec list_max b); [intros [= <-]; lia|].
  intros Hlong%IH. lia.
Qed.

(** One pick: as many indices as the pull, from distinct places of the
    bag, and the counter passes the bag. *)
Lemma wp_pick_body shuffler bag_counter pull bag g
    (Q : result (list Z * Z) -> generator -> Prop) :
  0 <= pull <= bag ->
  bag <= list_max ->
  (forall picked g',
     Z.of_nat (length picked) = pull ->
     picked ⊆+ seqZ bag_counter bag ->
     Q (Ok (shuffler ++ picked, bag_counter + bag)) g') ->
  wp (fun rand => pick_body rand (shuffler, bag_counter) (pull, bag)) g Q.
Proof.
  intros Hpull Hfit HQ. unfold pick_body.
  apply (wp_bind (fun _ => of_result _)
                 (fun l this_bag =>
                    picked ← sample l this_bag pull;
                    mret (shuffler ++ picked, bag_counter + bag))).
  apply wp_of_result. rewrite range_bag.
  destruct (Z.ltb_spec list_max bag); [lia|].
  apply (wp_bind (fun l => sample l _ pull) (fun _ picked => mret _)).
  assert (Z.of_nat (length (seqZ bag_counter bag)) = bag) as Hlen.
  { rewrite length_seqZ. lia. }
  apply wp_sample; [intros _|lia]. apply wp_ret.
  assert ((Z.to_nat pull <= length (seqZ bag_counter bag))%nat) as Hle by lia.
  apply HQ.
  - rewrite sample_of_length by done. lia.
  - by apply sample_of_submseteq.
Qed.

(** One pick from a bag that is too long: the exception of the range,
    before the generator is used. *)
Lemma wp_pick_body_long st pull bag g
    (Q : result (list Z * Z) -> generator -> Prop) :
  list_max < bag ->
  Q (Raise (range_error bag)) g ->
  wp (fun rand => pick_body rand st (pull, bag)) g Q.
Proof.
  intros Hlong HQ. destruct st as [shuffler bag_counter]. unfold pick_body.
  apply (wp_bind (fun _ => of_result _)
                 (fun l this_bag =>
                    picked ← sample l this_bag pull;
                    mret (shuffler ++ picked, bag_counter + bag))).
  apply wp_of_result. rewrite range_bag.
  by destruct (Z.ltb_spec list_max bag); [|lia].
Qed.

(** The inner loop on groups within range: the picks are as many as the
    pulls, taken from distinct places of the indices that the groups
    cover, and the counter has passed these indices. *)
Lemma wp_pick_loop gs shuffler bag_counter g
    (Q : result (list Z * Z) -> generator -> Prop) :
  Forall in_range gs ->
  long_bag gs = None ->
  (forall picked g',
     Z.of_nat (length picked) = pull_of gs ->
     picked ⊆+ seqZ bag_counter (bag_of gs) ->
     Q (Ok (shuffler ++ picked, bag_counter + bag_of gs)) g') ->
  wp (fun rand => for_each (pick_body rand) gs (shuffler, bag_counter)) g Q.
Proof.
  intros Hgs. revert shuffler bag_counter g Q.
  induction Hgs as [|[pull bag] gs (Hp & Hb & Hpb) Hgs IH];
    intros shuffler bag_counter g Q Hfit HQ.
  - apply wp_ret. specialize (HQ [] g). rewrite app_nil_r in HQ.
    unfold bag_of, pull_of in HQ. simpl in HQ. rewrite Z.add_0_r in HQ.
    by apply HQ.
  - simpl in Hp, Hb, Hpb, Hfit.
    destruct (Z.ltb_spec list_max bag); [done|].
    apply (wp_bind (fun l => pick_body l (shuffler, bag_counter) (pull, bag))
                   (fun l => for_each (pick_body l) gs)).
    apply wp_pick_body; [lia|done|]. intros p1 g1 Hl1 Hs1.
    apply IH; [done|]. intros picked g' Hl2 Hs2.
    specialize (HQ (p1 ++ picked) g').
    assert (bag_of ((pull, bag) :: gs) = bag + bag_of gs) as Hbag by done.
    assert (pull_of ((pull, bag) :: gs) = pull + pull_of gs) as Hpull by done.
    rewrite Hbag, Hpull in HQ. rewrite <-app_assoc, <-Z.add_assoc. apply HQ.
    + rewrite length_app. lia.
    + rewrite seqZ_app by (pose proof (bag_of_nonneg gs Hgs); lia).
      by apply submseteq_app.
Qed.

(** The inner loop on groups of which a bag is too long: the exception
    of the range on the first such bag. *)
Lemma wp_pick_loop_long gs shuffler bag_counter bag g
    (Q : result (list Z * Z) -> generator -> Prop) :
  Forall in_range gs ->
  long_bag gs = Some bag ->
  (forall g', Q (Raise (range_error bag)) g') ->
  wp (fun rand => for_each (pick_body rand) gs (shuffler, bag_counter)) g Q.
Proof.
  intros Hgs. revert shuffler bag_counter g.
  induction Hgs as [|[pull b] gs (Hp & Hb & Hpb) Hgs IH];
    intros shuffler bag_counter g Hlong HQ; [done|].
  simpl in Hp, Hb, Hpb, Hlong.
  apply (wp_bind (fun l => pick_body l (shuffler, bag_counter) (pull, b))
                 (fun l => for_each (pick_body l) gs)).
  destruct (Z.ltb_spec list_max b).
  - injection Hlong as ->. apply wp_pick_body_long; [done|]. apply HQ.
  - apply wp_pick_body; [lia|done|]. intros picked g1 _ _. by apply IH.
Qed.

Lemma wp_segment_body gs res bag_counter g
    (Q : result (list Z * Z) -> generator -> Prop) :
  Forall in_range gs ->
  long_bag gs = None ->
  (forall shuffled g',
     Z.of_nat (length shuffled) = pull_of gs ->
     shuffled ⊆+ seqZ bag_counter (bag_of gs) ->
     Q (Ok (res ++ shuffled, bag_counter + bag_of gs)) g') ->
  wp (fun rand => segment_body rand (res, bag_counter) gs) g Q.
Proof.
  intros Hgs Hfit HQ. unfold segment_body.
  apply (wp_bind (fun l => for_each (pick_body l) gs ([], bag_counter))
                 (fun l '(shuffler, bag_counter) =>
                    shuffler ← shuffle l shuffler;
                    mret (res ++ shuffler, bag_counter))).
  apply wp_pick_loop; [done|done|]. intros picked g1 Hlen Hsub. simpl.
  apply (wp_bind (fun l => shuffle l picked) (fun _ shuffler => mret _)).
  apply wp_shuffle, wp_ret.
  pose proof (shuffle_of_perm g1 picked) as Hperm. apply HQ.
  - by rewrite Hperm.
  - by rewrite Hperm.
Qed.

Lemma wp_segment_body_long gs res bag_counter bag g
    (Q : result (list Z * Z) -> generator -> Prop) :
  Forall in_range gs ->
  long_bag gs = Some bag ->
  (forall g', Q (Raise (range_error bag)) g') ->
  wp (fun rand => segment_body rand (res, bag_counter) gs) g Q.
Proof.
  intros Hgs Hlong HQ. unfold segment_body.
  apply (wp_bind (fun l => for_each (pick_body l) gs ([], bag_counter))
                 (fun l '(shuffler, bag_counter) =>
                    shuffler ← shuffle l shuffler;
                    mret (res ++ shuffler, bag_counter))).
  by apply (wp_pick_loop_long gs [] bag_counter bag).
Qed.

Lemma wp_segment_loop gss res bag_counter g
    (Q : result (list Z * Z) -> generator -> Prop) :
  Forall (Forall in_range) gss ->
  long_bag (concat gss) = None ->
  (forall out g',
     Z.of_nat (length out) = sum_pull gss ->
     out ⊆+ seqZ bag_counter (sum_bag gss) ->
     Q (Ok (res ++ out, bag_counter + sum_bag gss)) g') ->
  wp (fun rand => for_each (segment_body rand) gss (res, bag_counter)) g Q.
Proof.
  intros Hgss. revert res bag_counter g Q.
  induction Hgss as [|gs gss Hgs Hgss IH]; intros res bag_counter g Q Hfit HQ.
  - apply wp_ret. specialize (HQ [] g). rewrite app_nil_r in HQ.
    unfold sum_bag, sum_pull in HQ. simpl in HQ. rewrite Z.add_0_r in HQ.
    by apply HQ.
  - simpl in Hfit. rewrite long_bag_app in Hfit.
    destruct (long_bag gs) eqn:Hgsfit; [done|].
    apply (wp_bind (fun l => segment_body l (res, bag_counter) gs)
                   (fun l => for_each (segment_body l) gss)).
    apply wp_segment_body; [done|done|]. intros shuffled g1 Hl1 Hs1.
    apply IH; [done|]. intros out g' Hl2 Hs2.
    specialize (HQ (shuffled ++ out) g').
    rewrite sum_pull_cons, sum_bag_cons in HQ.
    rewrite <-app_assoc, <-Z.add_assoc. apply HQ.
    + rewrite length_app. unfold pull_of in Hl1. lia.
    + assert (0 <= sum_bag gss /\ 0 <= bag_of gs) as [? ?].
      { split; [|by apply bag_of_nonneg]. clear -Hgss.
        induction Hgss as [|gs gss Hgs _ IH]; [done|].
        rewrite sum_bag_cons. pose proof (bag_of_nonneg gs Hgs). unfold bag_of in *. lia. }
      unfold bag_of in *. rewrite seqZ_app by lia. by apply submseteq_app.
Qed.

(** The outer loop on segments of which a bag is too long. *)
Lemma wp_segment_loop_long gss res bag_counter bag g
    (Q : result (list Z * Z) -> generator -> Prop) :
  Forall (Forall in_range) gss ->
  long_bag (concat gss) = Some bag ->
  (forall g', Q (Raise (range_error bag)) g') ->
  wp (fun rand => for_each (segment_body rand) gss (res, bag_counter)) g Q.
Proof.
  intros Hgss. revert res bag_counter g.
  induction Hgss as [|gs gss Hgs Hgss IH]; intros res bag_counter g Hlong HQ;
    [done|].
  simpl in Hlong. rewrite long_bag_app in Hlong.
  apply (wp_bind (fun l => segment_body l (res, bag_counter) gs)
                 (fun l => for_each (segment_body l) gss)).
  destruct (long_bag gs) as [b|] eqn:Hgslong.
  - injection Hlong as ->.
    apply (wp_segment_body_long gs res bag_counter bag); [done|done|].
    intros g'. apply HQ.
  - apply wp_segment_body; [done|done|]. intros shuffled g1 _ _. by apply IH.
Qed.
End wp.

(** ** The sampler as a whole *)

Section sampler.
Context `{PyRandom} `{PyLimits}.

Lemma sample_subtasks_unfold self task_id seed h :
  sample_subtasks self task_id seed h
  = (Random (task_id +:+ "#" +:+ seed) ≫= sample_body self) h.
Proof. unfold sample_subtasks, sample_loop. apply M_bind_assoc. Qed.

Lemma wp_pick_body_any st group g :
  wp (fun l => pick_body l st group) g (fun _ _ => True).
Proof.
  destruct st as [shuffler bag_counter], group as [pull bag]. unfold pick_body.
  apply (wp_bind (fun _ => of_result _)
                 (fun l this_bag =>
                    picked ← sample l this_bag pull;
                    mret (shuffler ++ picked, bag_counter + bag))).
  apply wp_of_result. destruct (Py.range _ _) as [this_bag|e]; [|done].
  apply (wp_bind (fun l => sample l _ pull) (fun _ picked => mret _)).
  apply wp_sample; intros _; [by apply wp_ret|done].
Qed.

Lemma wp_segment_body_any st gs g :
  wp (fun l => segment_body l st gs) g (fun _ _ => True).
Proof.
  destruct st as [res bag_counter]. unfold segment_body.
  apply (wp_bind (fun l => for_each (pick_body l) gs ([], bag_counter))
                 (fun l '(shuffler, bag_counter) =>
                    shuffler ← shuffle l shuffler;
                    mret (res ++ shuffler, bag_counter))).
  eapply wp_mono; [|apply wp_for_each_any, wp_pick_body_any].
  intros [[shuffler bc]|e] g1 _; [|done].
  apply (wp_bind (fun l => shuffle l shuffler) (fun _ shuffler => mret _)).
  by apply wp_shuffle, wp_ret.
Qed.

Lemma wp_sample_body_any self g :
  wp (sample_body self) g (fun _ _ => True).
Proof.
  unfold sample_body.
  apply (wp_bind (fun l => for_each (segment_body l) (groups self) ([], 0))
                 (fun _ '(result, bag_counter) =>
                    assert (bag_counter =? total_bag self);; mret result)).
  eapply wp_mono; [|apply wp_for_each_any, wp_segment_body_any].
  intros [[res bc]|e] g1 _; [|done].
  apply (wp_bind (fun _ => assert _) (fun _ _ => mret _)).
  apply wp_assert; intros _; [by apply wp_ret|done].
Qed.

(** Every call returns a result that depends on the string
    [task_id#seed] alone, and changes the store only at a location that
    was free. *)
Lemma sample_subtasks_run self x :
  exists r g', forall task_id seed (h : gmap positive generator),
    task_id +:+ "#" +:+ seed = x ->
    sample_subtasks self task_id seed h = (r, <[fresh (dom h) := g']> h).
Proof.
  destruct (wp_Random x _ _ (wp_sample_body_any self (seed_of_str x)))
    as (r & g' & _ & Hrun).
  exists r, g'. intros task_id seed h <-. by rewrite sample_subtasks_unfold.
Qed.

(** On the groups of a constructed object, when no bag is too long, the
    loop ends with the counter on [total_bag], and returns [total_pull]
    indices from distinct places of [0 .. total_bag - 1]. *)
Lemma sample_loop_valid s self task_id seed :
  init s = Ok self ->
  bags_fit self ->
  exists out g',
    Z.of_nat (length out) = total_pull self /\
    out ⊆+ seqZ 0 (total_bag self) /\
    forall h : gmap positive generator,
      sample_loop self task_id seed h
        = (Ok (out, total_bag self), <[fresh (dom h) := g']> h) /\
      sample_subtasks self task_id seed h
        = (Ok out, <[fresh (dom h) := g']> h).
Proof.
  intros (gss & Hgss & ->)%init_Ok Hfit%long_bag_fit. simpl in *.
  assert (Forall (Forall in_range) gss) as Hrange.
  { clear -Hgss. induction Hgss as [|seg gs segs gss Hgs _ IH]; constructor; [|done].
    clear -Hgs. induction Hgs as [|tok g toks gs [_ Hg] _ IH]; by constructor. }
  set (self := mk s (sum_pull gss) (sum_bag gss) gss).
  set (P := fun (r : result (list Z * Z)) (_ : generator) =>
              exists out, r = Ok (out, sum_bag gss)
                          /\ Z.of_nat (length out) = sum_pull gss
                          /\ out ⊆+ seqZ 0 (sum_bag gss)).
  assert (forall g, wp (fun l => for_each (segment_body l) gss ([], 0)) g P)
    as Hloop.
  { intros g. apply wp_segment_loop; [done|done|]. intros out g' Hlen Hsub.
    exists out. by rewrite Z.add_0_l. }
  destruct (wp_Random (task_id +:+ "#" +:+ seed) _ _ (Hloop _))
    as (r & g' & (out & -> & Hlen & Hsub) & Hrun).
  exists out, g'. split; [done|]. split; [done|]. intros h. split.
  - apply Hrun.
  - unfold sample_subtasks, sample_loop. unfold mbind at 1, M_bind at 1.
    rewrite Hrun. simpl. by rewrite Z.eqb_refl.
Qed.

(** On the groups of a constructed object of which a bag is too long, the
    loop stops at the first such bag with the exception of its range. *)
Lemma sample_loop_long s self task_id seed bag :
  init s = Ok self ->
  long_bag (concat (groups self)) = Some bag ->
  exists g',
    forall h : gmap positive generator,
      sample_loop self task_id seed h
        = (Raise (range_error bag), <[fresh (dom h) := g']> h) /\
      sample_subtasks self task_id seed h
        = (Raise (range_error bag), <[fresh (dom h) := g']> h).
Proof.
  intros Hinit Hlong.
  assert (Forall (Forall in_range) (groups self)) as Hrange.
  { apply init_Ok in Hinit as (gss & Hgss & ->). simpl. clear -Hgss.
    induction Hgss as [|seg gs segs gss Hgs _ IH]; constructor; [|done].
    clear -Hgs. induction Hgs as [|tok g toks gs [_ Hg] _ IH]; by constructor. }
  set (P := fun (r : result (list Z * Z)) (_ : generator) =>
              r = Raise (range_error bag)).
  assert (forall g,
            wp (fun l => for_each (segment_body l) (groups self) ([], 0)) g P)
    as Hloop.
  { intros g. by apply (wp_segment_loop_long _ _ _ bag). }
  destruct (wp_Random (task_id +:+ "#" +:+ seed) _ _ (Hloop _))
    as (r & g' & -> & Hrun).
  exists g'. intros h. split.
  - apply Hrun.
  - unfold sample_subtasks, sample_loop. unfold mbind at 1, M_bind at 1.
    by rewrite Hrun.
Qed.
End sampler.


(** ** The sampler: the claims *)

(** C1.  Two calls of [sample_subtasks] with the same problem identifier
    and seed return the same sequence, whatever the store each of them
    starts from (so whatever was called before).  The generator of a call
    is a new object, at a location that was free: the call adds it to the
    store and leaves every generator that existed as it was.  And the
    result depends on the identifier and the seed only through the string
    [task_id#seed] that seeds this generator. *)
Theorem sample_subtasks_deterministic `{PyRandom} `{PyLimits} (self : t)
    (task_id seed : str) :
  (forall h1 h2 : gmap positive generator,
     (sample_subtasks self task_id seed h1).1
     = (sample_subtasks self task_id seed h2).1)
  /\ (forall h : gmap positive generator,
        h !! fresh (dom h) = None
        /\ exists g', (sample_subtasks self task_id seed h).2
                      = <[fresh (dom h) := g']> h)
  /\ (forall (h : gmap positive generator) l g,
        h !! l = Some g -> (sample_subtasks self task_id seed h).2 !! l = Some g)
  /\ (forall task_id' seed' (h1 h2 : gmap positive generator),
        task_id +:+ "#" +:+ seed = task_id' +:+ "#" +:+ seed' ->
        (sample_subtasks self task_id seed h1).1
        = (sample_subtasks self task_id' seed' h2).1).
Proof.
  destruct (sample_subtasks_run self (task_id +:+ "#" +:+ seed)) as (r & g' & Hrun).
  assert (forall h : gmap positive generator, h !! fresh (dom h) = None) as Hfresh.
  { intros h. apply not_elem_of_dom, is_fresh. }
  split; [|split; [|split]].
  - intros h1 h2. by rewrite !(Hrun task_id seed).
  - intros h. split; [done|]. exists g'. by rewrite (Hrun task_id seed).
  - intros h l g Hl. rewrite (Hrun task_id seed) by done. simpl.
    rewrite lookup_insert_ne; [done|]. intros <-. by rewrite Hfresh in Hl.
  - intros task_id' seed' h1 h2 Heq.
    by rewrite (Hrun task_id seed), (Hrun task_id' seed').
Qed.

Lemma sample_subtasks_deterministic_witness :
  (sample_subtasks (mk "1/2" 1 2 [[(1, 2)]]) "a#b" "c" ∅).1
  = (sample_subtasks (mk "1/2" 1 2 [[(1, 2)]]) "a" "b#c" {[ 5%positive := 7%nat ]}).1.
Proof.
  apply (proj2 (proj2 (proj2 (sample_subtasks_deterministic
                                (mk "1/2" 1 2 [[(1, 2)]]) "a#b" "c")))).
  reflexivity.
Defined.







Section fixed_specs.
Context `{PyRandom} `{PyLimits}.

Lemma one_of {A} (l population : list A) :
  length l = 1%nat -> l ⊆+ population -> exists x, l = [x] /\ x ∈ population.
Proof.
  destruct l as [|x [|? ?]]; try done. intros _ Hsub. exists x. split; [done|].
  eapply elem_of_submseteq; [|done]. apply list_elem_of_here.
Qed.

(** A segment that is the single group [1]: the next index, as it is. *)
Lemma wp_segment_single res bag_counter g
    (Q : result (list Z * Z) -> generator -> Prop) :
  (forall g', Q (Ok (res ++ [bag_counter], bag_counter + 1)) g') ->
  wp (fun rand => segment_body rand (res, bag_counter) [(1, 1)]) g Q.
Proof.
  intros HQ. pose proof list_max_two. apply wp_segment_body.
  { constructor; [|done]. unfold in_range. simpl. lia. }
  { simpl. by destruct (Z.ltb_spec list_max 1); [lia|]. }
  unfold pull_of, bag_of. simpl. intros shuffled g' Hlen Hsub.
  destruct (one_of shuffled (seqZ bag_counter 1)) as (x & -> & Hx); [lia|done|].
  apply elem_of_seqZ in Hx. by replace x with bag_counter by lia.
Qed.

(** The sampler on the groups of ["1;1/2,1"]. *)
Lemma wp_sample_body_1_12_1 g :
  wp (sample_body (mk "1;1/2,1" 3 4 [[(1, 1)]; [(1, 2); (1, 1)]])) g
     (fun r _ => exists x y z,
        r = Ok [0; y; z] /\ (x = 1 \/ x = 2) /\ [y; z] ≡ₚ [x; 3]).
Proof.
  pose proof list_max_two. unfold sample_body. simpl.
  apply (wp_bind (fun l => _ ≫= _) (fun _ '(result, bag_counter) => _)).
  apply (wp_bind (fun l => segment_body l ([], 0) [(1, 1)])
                 (fun l => for_each (segment_body l) [[(1, 2); (1, 1)]])).
  apply wp_segment_single. intros g1. simpl.
  apply (wp_bind (fun l => segment_body l ([0], 1) [(1, 2); (1, 1)])
                 (fun _ st => mret st)).
  unfold segment_body.
  apply (wp_bind (fun l => for_each (pick_body l) [(1, 2); (1, 1)] ([], 1))
                 (fun l '(shuffler, bag_counter) =>
                    shuffler ← shuffle l shuffler;
                    mret ([0] ++ shuffler, bag_counter))).
  apply (wp_bind (fun l => pick_body l ([], 1) (1, 2))
                 (fun l => for_each (pick_body l) [(1, 1)])).
  apply wp_pick_body; [lia|lia|]. intros p1 g2 Hl1 Hs1.
  destruct (one_of p1 (seqZ 1 2)) as (x & -> & Hx); [lia|done|].
  apply elem_of_seqZ in Hx. simpl.
  apply (wp_bind (fun l => pick_body l ([x], 3) (1, 1)) (fun _ st => mret st)).
  apply wp_pick_body; [lia|lia|]. intros p2 g3 Hl2 Hs2.
  destruct (one_of p2 (seqZ 3 1)) as (x3 & -> & Hx3); [lia|done|].
  apply elem_of_seqZ in Hx3. replace x3 with 3 by lia. simpl.
  apply wp_ret.
  apply (wp_bind (fun l => shuffle l [x; 3]) (fun _ shuffler => mret _)).
  apply wp_shuffle. pose proof (shuffle_of_perm g3 [x; 3]) as Hperm.
  destruct (shuffle_of g3 [x; 3]) as [shuffled g4]. simpl in *.
  assert (exists y z, shuffled = [y; z]) as (y & z & ->).
  { apply Permutation_length in Hperm.
    destruct shuffled as [|y [|z [|? ?]]]; try done. eauto. }
  do 2 apply wp_ret.
  apply (wp_bind (fun _ => assert _) (fun _ _ => mret _)).
  apply wp_assert; [intros _|done]. apply wp_ret.
  exists x, y, z. split; [done|]. split; [lia|done].
Qed.

(** Segments that are all the single group [1]: the next indices, in
    order. *)
Lemma wp_segment_loop_ones (n : nat) res bag_counter g
    (Q : result (list Z * Z) -> generator -> Prop) :
  (forall g', Q (Ok (res ++ seqZ bag_counter (Z.of_nat n),
                     bag_counter + Z.of_nat n)) g') ->
  wp (fun rand => for_each (segment_body rand) (replicate n [(1, 1)])
                           (res, bag_counter)) g Q.
Proof.
  revert res bag_counter g. induction n as [|n IH]; intros res bag_counter g HQ.
  - apply wp_ret. specialize (HQ g).
    by rewrite seqZ_nil, app_nil_r, Z.add_0_r in HQ.
  - apply (wp_bind (fun l => segment_body l (res, bag_counter) [(1, 1)])
                   (fun l => for_each (segment_body l) (replicate n [(1, 1)]))).
    apply wp_segment_single. intros g1. apply IH. intros g'.
    specialize (HQ g'). rewrite seqZ_cons in HQ by lia.
    rewrite <-app_assoc. simpl.
    replace (bag_counter + 1 + Z.of_nat n) with (bag_counter + Z.of_nat (S n)) by lia.
    by replace (Z.pred (Z.of_nat (S n))) with (Z.of_nat n) in HQ by lia.
Qed.

(** The sampler on the groups of ["1;1;1;1;1"]. *)
Lemma wp_sample_body_ones g :
  wp (sample_body (mk "1;1;1;1;1" 5 5 [[(1,1)]; [(1,1)]; [(1,1)]; [(1,1)]; [(1,1)]]))
     g (fun r _ => r = Ok [0; 1; 2; 3; 4]).
Proof.
  unfold sample_body.
  apply (wp_bind (fun l => for_each (segment_body l) (replicate 5 [(1, 1)]) ([], 0))
                 (fun _ '(result, bag_counter) =>
                    assert (bag_counter =? 5);; mret result)).
  apply wp_segment_loop_ones. intros g1.
  apply (wp_bind (fun _ => assert _) (fun _ _ => mret _)).
  apply wp_assert; [intros _|done]. by apply wp_ret.
Qed.
End fixed_specs.
(** C3.  The string ["1;1/2,1"] describes four sub-questions.  Whatever
    the problem identifier, the seed and the generator, the sampler
    returns three indices: [0] first, and then, in one order or the other,
    [3] and one of [1] and [2].  So [0] is at no other place than the
    first, and [3] is never left out: the segments stay in their order
    and only the picks of one segment are shuffled together. *)
Theorem sample_subtasks_segment_order `{PyRandom} `{PyLimits}
    (task_id seed : str) (h : gmap positive generator) :
  exists self,
    init "1;1/2,1" = Ok self /\ total_bag self = 4 /\
    exists x y z,
      (sample_subtasks self task_id seed h).1 = Ok [0; y; z]
      /\ (x = 1 \/ x = 2)
      /\ [y; z] ≡ₚ [x; 3]
      /\ y <> 0 /\ z <> 0 /\ 3 ∈ [0; y; z].
Proof.
  eexists. split; [reflexivity|]. split; [done|].
  destruct (wp_Random (task_id +:+ "#" +:+ seed) _ _
              (wp_sample_body_1_12_1 (seed_of_str (task_id +:+ "#" +:+ seed))))
    as (r & g' & (x & y & z & -> & Hx & Hperm) & Hrun).
  exists x, y, z. rewrite sample_subtasks_unfold, Hrun.
  split; [done|]. split; [done|]. split; [done|].
  rewrite !elem_of_cons.
  apply Permutation_length_2 in Hperm as [[-> ->]|[-> ->]]; lia.
Qed.

(** C6.  For five sub-questions the default [SubtaskString] is the one
    that ["1;1;1;1;1"] gives: total bag and total pull 5, five segments of
    the single group [1], and a sampler that returns the five indices in
    their order whatever the seed.  The default [ScoreString] is the one
    that ["0/5/5"] gives: minimum 0, expected 5 and total 5. *)
Theorem default_construction `{PyRandom} `{PyLimits} {T} (a b c d e : T) :
  default_for_subtasks [a; b; c; d; e] = init "1;1;1;1;1"
  /\ init "1;1;1;1;1"
     = Ok (mk "1;1;1;1;1" 5 5 [[(1,1)]; [(1,1)]; [(1,1)]; [(1,1)]; [(1,1)]])
  /\ (forall self task_id seed (h : gmap positive generator),
        default_for_subtasks [a; b; c; d; e] = Ok self ->
        (sample_subtasks self task_id seed h).1 = Ok [0; 1; 2; 3; 4])
  /\ ScoreString.default_for_subtasks [a; b; c; d; e] = ScoreString.init "0/5/5"
  /\ ScoreString.init "0/5/5" = Ok (ScoreString.mk "0/5/5" 0 5 5).
Proof.
  split; [reflexivity|]. split; [reflexivity|]. split; [|by split].
  intros self task_id seed h [= <-].
  destruct (wp_Random (task_id +:+ "#" +:+ seed) _ _
              (wp_sample_body_ones (seed_of_str (task_id +:+ "#" +:+ seed))))
    as (r & g' & -> & Hrun).
  by rewrite sample_subtasks_unfold, Hrun.
Qed.

Lemma default_construction_witness :
  (sample_subtasks (mk "1;1;1;1;1" 5 5 [[(1,1)]; [(1,1)]; [(1,1)]; [(1,1)]; [(1,1)]])
                   "task" "carol" ∅).1 = Ok [0; 1; 2; 3; 4].
Proof.
  apply (proj1 (proj2 (proj2 (default_construction 1 2 3 4 5)))).
  reflexivity.
Defined.
(** ** The constructor of [SubtaskString]: the claims *)

Lemma segments_accepted toks gss :
  Forall2 (Forall2 accepts) toks gss -> Forall accepted (concat toks).
Proof.
  induction 1 as [|seg gs segs gss Hgs _ IH]; simpl; [done|].
  apply Forall_app. split; [by eapply accepts_all_accepted|done].
Qed.

Lemma init_is_Ok s : is_Ok (init s) <-> Forall accepted (concat (tokens s)).
Proof.
  split.
  - intros [self (gss & Hgss & _)%init_Ok]. by eapply segments_accepted.
  - intros Hall. destruct (init s) as [self|e] eqn:Hinit; [by eexists|].
    apply init_Raise in Hinit. by apply first_rejected_not_accepted in Hinit.
Qed.

(** C4, as the code has it.  The constructor reads the groups between
    semicolons and commas: a bare integer [n] as pull [n] out of bag [n],
    [p/b] as pull [p] out of bag [b].  It succeeds exactly when every group
    is read and is within range.  Otherwise the error is that of the first
    group, from left to right, that is not, and of the first check that
    this group fails, in the order: illegal group, negative pull, empty
    bag, pull larger than bag. *)
Theorem SubtaskString_init_errors (s : str) :
  (is_Ok (init s) <-> Forall accepted (concat (tokens s)))
  /\ (forall self, init s = Ok self ->
        string self = s /\ Forall2 (Forall2 accepts) (tokens s) (groups self))
  /\ (forall pre group post,
        concat (tokens s) = pre ++ group :: post -> Forall accepted pre ->
        ((forall g, ~ denotes group g) -> init s = Raise (IllegalGroup s))
        /\ (forall g, denotes group g -> g.1 < 0 ->
              init s = Raise (NegativePull s))
        /\ (forall g, denotes group g -> 0 <= g.1 -> g.2 < 1 ->
              init s = Raise (EmptyBag s))
        /\ (forall g, denotes group g -> 0 <= g.1 -> 1 <= g.2 -> g.2 < g.1 ->
              init s = Raise (PullGtBag s))).
Proof.
  split; [apply init_is_Ok|]. split.
  - by intros self (gss & Hgss & ->)%init_Ok.
  - intros pre group post Heq Hpre.
    assert (forall e, rejects s group e -> init s = Raise e) as Hrej.
    { intros e He. apply init_Raise. by exists pre, group, post. }
    repeat split; intros; apply Hrej.
    + by apply rejects_illegal.
    + by eapply rejects_negative.
    + by eapply rejects_empty.
    + by eapply rejects_exceeds.
Qed.

Lemma SubtaskString_init_errors_witness :
  init "1/2,3/2;x" = Raise (PullGtBag "1/2,3/2;x").
Proof.
  assert (Forall accepted ["1/2"]) as Hpre.
  { constructor; [|done]. exists (1, 2). split.
    - by apply (denotes_slash "1" "2").
    - unfold in_range. simpl. lia. }
  apply (proj2 (proj2 (proj2
           (proj2 (proj2 (SubtaskString_init_errors "1/2,3/2;x"))
              ["1/2"] "3/2" ["x"] eq_refl Hpre))) (3, 2)).
  - by apply (denotes_slash "3" "2" 3 2).
  - simpl. lia.
  - simpl. lia.
  - simpl. lia.
Defined.

(** C4, as it is stated, fails: a group whose bag is below [1] does not
    always give the empty-bag error.  In ["-1/0"] the pull is negative as
    well, and that check comes first. *)
Lemma SubtaskString_init_errors_counterexample :
  init "-1/0" = Raise (NegativePull "-1/0")
  /\ ~ (forall s group g,
          group ∈ concat (tokens s) -> denotes group g -> g.2 < 1 ->
          init s = Raise (EmptyBag s)).
Proof.
  split; [reflexivity|]. intros Hclaim.
  specialize (Hclaim "-1/0" "-1/0" (-1, 0)).
  assert (init "-1/0" = Raise (EmptyBag "-1/0")) as Habs; [|done].
  apply Hclaim.
  - apply list_elem_of_here.
  - by apply (denotes_slash "-1" "0" (-1) 0).
  - simpl. lia.
Qed.

Lemma check_text_loop subtasks :
  Forall (fun subtask => is_Some (MultifillProblem.text subtask)) subtasks ->
  for_each MultifillProblem.check_text (imap pair subtasks) tt = Ok tt.
Proof.
  intros Htext.
  assert (forall k, for_each MultifillProblem.check_text
                      (imap (fun i => pair (k + i)%nat) subtasks) tt = Ok tt)
    as Hloop; [|apply (Hloop 0%nat)].
  induction Htext as [|st sts [txt Ht] _ IH]; intros k; [done|].
  rewrite imap_cons, for_each_cons.
  assert (MultifillProblem.check_text tt ((k + 0)%nat, st) = Ok tt) as ->.
  { unfold MultifillProblem.check_text. by rewrite Ht. }
  rewrite result_bind_Ok, <-(IH (S k)). f_equal. apply imap_ext.
  intros i x _. simpl. f_equal. lia.
Qed.

(** C5.  The totals of a constructed [SubtaskString] are the sums of the
    bags and of the pulls that its string declares; and a problem whose
    number of sub-questions differs from the total bag is refused with the
    mismatch error. *)
Theorem bag_total_invariant :
  (forall s self,
     init s = Ok self ->
     Forall2 (Forall2 accepts) (tokens s) (groups self)
     /\ total_bag self = sum_bag (groups self)
     /\ total_pull self = sum_pull (groups self))
  /\ (forall Problem_init problemid content subtasks self,
        Problem_init problemid content = Ok tt ->
        MultifillProblem.subtasks content = Some subtasks ->
        Forall (fun subtask => is_Some (MultifillProblem.text subtask)) subtasks ->
        MultifillProblem.choose_subtask_string content subtasks = Ok self ->
        Z.of_nat (length subtasks) <> total_bag self ->
        MultifillProblem.init Problem_init problemid content
        = Raise (BagMismatch problemid (Z.of_nat (length subtasks))
                             (total_bag self))).
Proof.
  split.
  - by intros s self (gss & Hgss & ->)%init_Ok.
  - intros Problem_init problemid content subtasks self Hbase Hsub Htext Hchoose Hne.
    unfold MultifillProblem.init.
    rewrite Hbase, Hsub, result_bind_Ok. cbv zeta.
    rewrite (check_text_loop _ Htext), result_bind_Ok, Hchoose, result_bind_Ok.
    unfold get_total_bag_size.
    by destruct (Z.eqb_spec (Z.of_nat (length subtasks)) (total_bag self)).
Qed.
Lemma bag_total_invariant_witness :
  MultifillProblem.init (fun _ _ => Ok tt) "p1"
    {| MultifillProblem.header := None;
       MultifillProblem.subtasks :=
         Some [ {| MultifillProblem.text := Some "a";
                   MultifillProblem.giveDetailedFeedback := None |} ];
       MultifillProblem.subtask_string := Some "1/2";
       MultifillProblem.score_string := None |}
  = Raise (BagMismatch "p1" 1 2).
Proof.
  apply (proj2 bag_total_invariant (fun _ _ => Ok tt) "p1" _
           [ {| MultifillProblem.text := Some "a";
                MultifillProblem.giveDetailedFeedback := None |} ]
           (mk "1/2" 1 2 [[(1, 2)]])).
  - reflexivity.
  - reflexivity.
  - constructor; [by eexists|constructor].
  - reflexivity.
  - simpl. lia.
Defined.

(** ** The constructor of [ScoreString]: the claims *)

(** C7, as the code has it.  A string that does not split at ["/"] into
    three fields gives the arity error; three fields of which one is not
    an integer give the illegal-score error; a minimum below [0] or above
    the total gives the minimum error; with the minimum within range, an
    expected score below [0] or above the total gives the expected error;
    with both within range the construction succeeds.  ["6/3/5"] and
    ["1/6/5"] fail and ["0/5/5"] gives [(0, 5, 5)]. *)
Theorem ScoreString_init_errors :
  (forall s,
     (length (Py.split "/"%char s) <> 3%nat ->
      ScoreString.init s = Raise (ScoreParts s))
     /\ (forall p0 p1 p2,
           Py.split "/"%char s = [p0; p1; p2] ->
           (Py.int p0 = None \/ Py.int p1 = None \/ Py.int p2 = None ->
            ScoreString.init s = Raise (IllegalScore s))
           /\ (forall minimum expected total,
                 Py.int p0 = Some minimum -> Py.int p1 = Some expected ->
                 Py.int p2 = Some total ->
                 (minimum < 0 \/ minimum > total ->
                  ScoreString.init s = Raise (MinimumOutOfRange minimum))
                 /\ (0 <= minimum <= total ->
                     expected < 0 \/ expected > total ->
                     ScoreString.init s = Raise (ExpectedOutOfRange expected))
                 /\ (0 <= minimum <= total -> 0 <= expected <= total ->
                     ScoreString.init s
                     = Ok (ScoreString.mk s minimum expected total)))))
  /\ ScoreString.init "6/3/5" = Raise (MinimumOutOfRange 6)
  /\ ScoreString.init "1/6/5" = Raise (ExpectedOutOfRange 6)
  /\ ScoreString.init "0/5/5" = Ok (ScoreString.mk "0/5/5" 0 5 5).
Proof.
  split; [|done]. intros s. unfold ScoreString.init. split.
  - intros Hlen. by destruct (Py.split "/" s) as [|? [|? [|? [|? ?]]]].
  - intros p0 p1 p2 ->. split.
    + intros Hnone. destruct (Py.int p0), (Py.int p1), (Py.int p2); try done.
      by destruct Hnone as [?|[?|?]].
    + intros minimum expected total -> -> ->. repeat split; intros;
        repeat case_match; zbool; try done; lia.
Qed.

Lemma ScoreString_init_errors_witness :
  ScoreString.init "2/7/4" = Raise (ExpectedOutOfRange 7).
Proof.
  destruct (proj1 ScoreString_init_errors "2/7/4") as [_ Hfields].
  destruct (Hfields "2" "7" "4" eq_refl) as [_ Hints].
  destruct (Hints 2 7 4 eq_refl eq_refl eq_refl) as (_ & Hexpected & _).
  apply Hexpected; lia.
Defined.

(** C7, as it is stated, fails: an expected score above the total does
    not always give the expected-score error.  In ["6/6/5"] the minimum is
    above the total as well, and that check comes first. *)
Lemma ScoreString_init_errors_counterexample :
  ScoreString.init "6/6/5" = Raise (MinimumOutOfRange 6)
  /\ ~ (forall s p0 p1 p2 minimum expected total,
          Py.split "/"%char s = [p0; p1; p2] ->
          Py.int p0 = Some minimum -> Py.int p1 = Some expected ->
          Py.int p2 = Some total ->
          expected < 0 \/ expected > total ->
          ScoreString.init s = Raise (ExpectedOutOfRange expected)).
Proof.
  split; [reflexivity|]. intros Hclaim.
  specialize (Hclaim "6/6/5" "6" "6" "5" 6 6 5 eq_refl eq_refl eq_refl eq_refl).
  assert (ScoreString.init "6/6/5" = Raise (ExpectedOutOfRange 6)) as Habs; [|done].
  apply Hclaim. lia.
Qed.

(** C9.  The constructor never raises the negative-total error: with
    three integer fields and a total below [0], the minimum is below [0] or
    above the total, and the minimum error is raised. *)
Theorem ScoreString_negative_total_unreachable (s : str) :
  (forall total, ScoreString.init s <> Raise (NegativeTotal total))
  /\ (forall p0 p1 p2 minimum expected total,
        Py.split "/"%char s = [p0; p1; p2] ->
        Py.int p0 = Some minimum -> Py.int p1 = Some expected ->
        Py.int p2 = Some total ->
        total < 0 ->
        (minimum < 0 \/ minimum > total)
        /\ ScoreString.init s = Raise (MinimumOutOfRange minimum)).
Proof.
  unfold ScoreString.init. split.
  - intros total. repeat case_match; try done. zbool. intros [= ->]. lia.
  - intros p0 p1 p2 minimum expected total -> -> -> -> Hneg.
    split; [lia|]. repeat case_match; zbool; try done; lia.
Qed.

Lemma ScoreString_negative_total_unreachable_witness :
  (1 < 0 \/ 1 > -3) /\ ScoreString.init "1/2/-3" = Raise (MinimumOutOfRange 1).
Proof.
  apply (proj2 (ScoreString_negative_total_unreachable "1/2/-3")
           "1" "2" "-3" 1 2 (-3) eq_refl eq_refl eq_refl eq_refl).
  lia.
Defined.
(** ** The empty string and the default *)

Lemma strip_whitespace_only s : whitespace_only s = true -> Py.strip s = EmptyString.
Proof.
  unfold Py.strip. induction s as [|c s IH]; simpl; [done|].
  intros [Hc Hs]%andb_true_iff. rewrite Hc. by apply IH.
Qed.

Lemma tokens_head s : exists group rest, concat (tokens s) = group :: rest.
Proof.
  unfold tokens.
  destruct (Py.split ";" s) as [|seg segs] eqn:Hs; [by apply split_not_nil in Hs|].
  simpl. destruct (Py.split "," seg) as [|tok toks] eqn:Ht;
    [by apply split_not_nil in Ht|].
  simpl. eauto.
Qed.

Lemma denotes_empty g : ~ denotes EmptyString g.
Proof. by intros [=]%(read_group_Ok ""). Qed.

(** C10.  The constructor of [SubtaskString] does not know a default: on
    the empty string, and on any string all of whose groups are empty, it
    raises the illegal-group error.  The default comes from the
    constructor of [MultifillProblem], which takes it exactly when the
    problem has no subtask string or one that [strip] leaves empty, as a
    string of white space is; otherwise it takes the string of the
    problem. *)
Theorem default_only_from_problem :
  init "" = Raise (IllegalGroup "")
  /\ (forall s,
        (forall group, group ∈ concat (tokens s) -> group = EmptyString) ->
        init s = Raise (IllegalGroup s))
  /\ (forall content subtasks,
        MultifillProblem.subtask_string content = None
        \/ (exists s, MultifillProblem.subtask_string content = Some s
                      /\ Py.strip s = EmptyString) ->
        MultifillProblem.choose_subtask_string content subtasks
        = default_for_subtasks subtasks)
  /\ (forall content subtasks s,
        MultifillProblem.subtask_string content = Some s ->
        Py.strip s <> EmptyString ->
        MultifillProblem.choose_subtask_string content subtasks = init s)
  /\ (forall s, whitespace_only s = true -> Py.strip s = EmptyString)
  /\ (forall Problem_init problemid content problem,
        MultifillProblem.init Problem_init problemid content = Ok problem ->
        MultifillProblem.choose_subtask_string
          content (MultifillProblem._subtasks problem)
        = Ok (MultifillProblem._subtask_string problem)).
Proof.
  split; [reflexivity|]. split; [|split; [|split; [|split]]].
  - intros s Hempty. destruct (tokens_head s) as (group & rest & Heq).
    apply init_Raise. exists [], group, rest. split; [done|]. split; [done|].
    rewrite (Hempty group) by (rewrite Heq; apply list_elem_of_here).
    apply rejects_illegal, denotes_empty.
  - intros content subtasks Hnone. unfold MultifillProblem.choose_subtask_string.
    destruct Hnone as [Heq|(s & Heq & Hs)]; rewrite Heq; simpl; [done|].
    by rewrite Hs.
  - intros content subtasks s Heq Hs.
    unfold MultifillProblem.choose_subtask_string. rewrite Heq. simpl.
    by destruct (String.eqb_spec (Py.strip s) "").
  - apply strip_whitespace_only.
  - intros Problem_init problemid content problem.
    unfold MultifillProblem.init.
    destruct (Problem_init problemid content) as [[]|?]; [|done].
    rewrite result_bind_Ok. cbv zeta.
    destruct (MultifillProblem.subtasks content) as [subtasks|]; [|done].
    destruct (for_each MultifillProblem.check_text _ _) as [[]|?]; [|done].
    rewrite result_bind_Ok.
    destruct (MultifillProblem.choose_subtask_string content subtasks)
      as [sub|?] eqn:Hsub; [|done].
    rewrite result_bind_Ok. case_match; [done|].
    destruct (MultifillProblem.choose_score_string content subtasks); [|done].
    rewrite result_bind_Ok. by intros [= <-].
Qed.

Lemma default_only_from_problem_witness :
  MultifillProblem.choose_subtask_string
    {| MultifillProblem.header := None;
       MultifillProblem.subtasks := Some [];
       MultifillProblem.subtask_string := Some "  ";
       MultifillProblem.score_string := None |}
    [ {| MultifillProblem.text := Some "a";
         MultifillProblem.giveDetailedFeedback := None |} ]
  = Ok (mk "1" 1 1 [[(1, 1)]]).
Proof.
  apply (proj1 (proj2 (proj2 default_only_from_problem))).
  right. exists "  ". split; reflexivity.
Defined.

(** * Further properties

    What the code shows beyond the claims above. *)

(** ** The constructor of [SubtaskString] *)

Lemma accepts_in_range toks gss :
  Forall2 (Forall2 accepts) toks gss -> Forall (Forall in_range) gss.
Proof.
  induction 1 as [|seg gs segs gss Hgs _ IH]; constructor; [|done].
  clear -Hgs. induction Hgs as [|tok g toks gs [_ Hg] _ IH]; by constructor.
Qed.

Lemma init_in_range s self : init s = Ok self -> Forall (Forall in_range) (groups self).
Proof. intros (gss & Hgss & ->)%init_Ok. by eapply accepts_in_range. Qed.

Lemma init_totals s self :
  init s = Ok self ->
  total_pull self = sum_pull (groups self) /\ total_bag self = sum_bag (groups self).
Proof. by intros (gss & Hgss & ->)%init_Ok. Qed.

Lemma tokens_not_nil s : tokens s <> [] /\ Forall (fun seg => seg <> []) (tokens s).
Proof.
  unfold tokens. split.
  - destruct (Py.split ";" s) eqn:Hs; [by apply split_not_nil in Hs|done].
  - apply Forall_forall. intros seg (x & -> & _)%list_elem_of_fmap.
    apply split_not_nil.
Qed.

Lemma init_pull_le_bag s self :
  init s = Ok self -> 0 <= total_pull self <= total_bag self /\ 1 <= total_bag self.
Proof.
  intros Hinit. pose proof (init_in_range _ _ Hinit) as Hrange.
  destruct (init_totals _ _ Hinit) as [-> ->].
  apply init_Ok in Hinit as (gss & Hgss & ->). simpl in *.
  assert (exists g gs, concat gss = g :: gs) as (g & gs & Hcons).
  { destruct (tokens_head s) as (tok & toks & Htoks).
    assert (length (concat gss) = length (concat (tokens s))) as Hlen.
    { clear -Hgss. induction Hgss as [|seg gs segs gss Hgs _ IH]; [done|].
      simpl. rewrite !length_app, IH. f_equal. symmetry. by eapply Forall2_length. }
    rewrite Htoks in Hlen. destruct (concat gss) as [|g gs]; [done|]. eauto. }
  assert (Forall in_range (concat gss)) as Hall by by apply Forall_concat.
  unfold sum_pull, sum_bag. rewrite Hcons in *.
  apply Forall_cons in Hall as [(? & ? & ?) Hall]. simpl.
  assert (0 <= foldr Z.add 0 (map fst gs) <= foldr Z.add 0 (map snd gs)); [|lia].
  clear -Hall. induction Hall as [|g gs (? & ? & ?) _ IH]; simpl; lia.
Qed.

(** X1.  A constructed [SubtaskString] has at least one segment, no empty
    segment, and only groups with [0 <= pull <= bag] and [1 <= bag]; so
    the total pull is between [0] and the total bag, and the total bag is
    at least the number of groups, hence at least [1]. *)
Theorem SubtaskString_invariant (s : str) (self : t) :
  init s = Ok self ->
  string self = s
  /\ groups self <> []
  /\ Forall (fun gs => gs <> []) (groups self)
  /\ Forall (Forall in_range) (groups self)
  /\ 0 <= total_pull self <= total_bag self
  /\ 1 <= Z.of_nat (length (concat (groups self))) <= total_bag self.
Proof.
  intros (gss & Hgss & ->)%init_Ok. simpl.
  destruct (tokens_not_nil s) as [Hne Hsegs].
  assert (Forall (Forall in_range) gss) as Hrange.
  { clear -Hgss. induction Hgss as [|seg gs segs gss Hgs _ IH]; constructor; [|done].
    clear -Hgs. induction Hgs as [|tok g toks gs [_ Hg] _ IH]; by constructor. }
  assert (gss <> []) as Hgne.
  { intros ->. by apply Forall2_nil_inv_r in Hgss. }
  assert (Forall (fun gs => gs <> []) gss) as Hgsne.
  { clear -Hgss Hsegs. induction Hgss as [|seg gs segs gss Hgs _ IH]; [done|].
    apply Forall_cons in Hsegs as [Hseg Hsegs]. constructor; [|by apply IH].
    intros ->. by apply Forall2_nil_inv_r in Hgs. }
  assert (0 <= sum_pull gss <= sum_bag gss
          /\ Z.of_nat (length (concat gss)) <= sum_bag gss) as [Hsum Hlen].
  { clear -Hrange. unfold sum_pull, sum_bag.
    assert (Forall in_range (concat gss)) as Hall by by apply Forall_concat.
    induction Hall as [|g gs (? & ? & ?) _ IH]; simpl; lia. }
  repeat split; try done; try lia.
  destruct gss as [|[|g gs] gss]; [done|by apply Forall_cons in Hgsne as [? _]|].
  simpl. lia.
Qed.

Lemma SubtaskString_invariant_witness :
  string (mk "1;1/2,1" 3 4 [[(1, 1)]; [(1, 2); (1, 1)]]) = "1;1/2,1"
  /\ [[(1, 1)]; [(1, 2); (1, 1)]] <> []
  /\ Forall (fun gs : list (Z * Z) => gs <> []) [[(1, 1)]; [(1, 2); (1, 1)]]
  /\ Forall (Forall in_range) [[(1, 1)]; [(1, 2); (1, 1)]]
  /\ 0 <= 3 <= 4
  /\ 1 <= Z.of_nat (length (concat [[(1, 1)]; [(1, 2); (1, 1)]])) <= 4.
Proof.
  apply (SubtaskString_invariant "1;1/2,1"
           (mk "1;1/2,1" 3 4 [[(1, 1)]; [(1, 2); (1, 1)]])).
  reflexivity.
Defined.

(** X2.  The constructor of [SubtaskString] raises nothing but its four
    errors, and each carries the whole string, not the group at fault. *)
Theorem SubtaskString_init_raises_only (s : str) (e : exn) :
  init s = Raise e ->
  e = IllegalGroup s \/ e = NegativePull s \/ e = EmptyBag s \/ e = PullGtBag s.
Proof.
  intros (pre & group & post & _ & _ & Hrej)%init_Raise.
  destruct Hrej; auto.
Qed.

Lemma SubtaskString_init_raises_only_witness :
  init "1,0;x" = Raise (EmptyBag "1,0;x")
  /\ (EmptyBag "1,0;x" = IllegalGroup "1,0;x"
      \/ EmptyBag "1,0;x" = NegativePull "1,0;x"
      \/ EmptyBag "1,0;x" = EmptyBag "1,0;x"
      \/ EmptyBag "1,0;x" = PullGtBag "1,0;x").
Proof.
  split; [reflexivity|].
  apply (SubtaskString_init_raises_only "1,0;x" (EmptyBag "1,0;x")). reflexivity.
Defined.

(** *** Strings joined by a semicolon *)

Lemma split_app sep s1 s2 :
  Py.split sep (s1 +:+ String sep s2) = Py.split sep s1 ++ Py.split sep s2.
Proof.
  induction s1 as [|c s1 IH]; simpl.
  - by rewrite Ascii.eqb_refl.
  - destruct (Ascii.eqb c sep); [by rewrite IH|].
    rewrite IH. pose proof (split_not_nil sep s1).
    by destruct (Py.split sep s1).
Qed.

Lemma sum_pull_app gss1 gss2 : sum_pull (gss1 ++ gss2) = sum_pull gss1 + sum_pull gss2.
Proof.
  induction gss1 as [|gs gss1 IH]; [done|].
  change ((gs :: gss1) ++ gss2) with (gs :: (gss1 ++ gss2)).
  rewrite !sum_pull_cons, IH. lia.
Qed.

Lemma sum_bag_app gss1 gss2 : sum_bag (gss1 ++ gss2) = sum_bag gss1 + sum_bag gss2.
Proof.
  induction gss1 as [|gs gss1 IH]; [done|].
  change ((gs :: gss1) ++ gss2) with (gs :: (gss1 ++ gss2)).
  rewrite !sum_bag_cons, IH. lia.
Qed.

(** X3.  Two subtask strings joined by a semicolon.  The joined string
    is accepted exactly when both are; its segments are those of the
    first followed by those of the second, and its totals are the sums of
    theirs. *)
Theorem SubtaskString_init_semicolon (s1 s2 : str) :
  (is_Ok (init (s1 +:+ ";" +:+ s2)) <-> is_Ok (init s1) /\ is_Ok (init s2))
  /\ forall self1 self2,
       init s1 = Ok self1 -> init s2 = Ok self2 ->
       init (s1 +:+ ";" +:+ s2)
       = Ok (mk (s1 +:+ ";" +:+ s2)
                (total_pull self1 + total_pull self2)
                (total_bag self1 + total_bag self2)
                (groups self1 ++ groups self2)).
Proof.
  assert (tokens (s1 +:+ ";" +:+ s2) = tokens s1 ++ tokens s2) as Htokens.
  { unfold tokens. change (s1 +:+ ";" +:+ s2) with (s1 +:+ String ";"%char s2).
    by rewrite split_app, map_app. }
  split.
  - rewrite !init_is_Ok, Htokens, concat_app. apply Forall_app.
  - intros self1 self2 (gss1 & Hgss1 & ->)%init_Ok (gss2 & Hgss2 & ->)%init_Ok.
    apply init_Ok. exists (gss1 ++ gss2). simpl.
    rewrite Htokens, sum_pull_app, sum_bag_app. split; [|done].
    by apply Forall2_app.
Qed.

(** *** The default string *)

Lemma join_ones_split n :
  Py.split ";"%char (Py.join ";" (replicate (S n) "1")) = replicate (S n) "1".
Proof.
  induction n as [|n IH]; [done|].
  change (Py.join ";" (replicate (S (S n)) "1"))
    with ("1" +:+ String ";"%char (Py.join ";" (replicate (S n) "1"))).
  rewrite split_sep by done. by rewrite IH.
Qed.

Lemma sum_pull_ones n : sum_pull (replicate n [(1, 1)]) = Z.of_nat n.
Proof.
  induction n as [|n IH]; [done|].
  change (replicate (S n) [(1, 1)]) with ([(1, 1)] :: replicate n [(1, 1)]).
  rewrite sum_pull_cons, IH. simpl. lia.
Qed.

Lemma sum_bag_ones n : sum_bag (replicate n [(1, 1)]) = Z.of_nat n.
Proof.
  induction n as [|n IH]; [done|].
  change (replicate (S n) [(1, 1)]) with ([(1, 1)] :: replicate n [(1, 1)]).
  rewrite sum_bag_cons, IH. simpl. lia.
Qed.

Lemma init_ones n :
  init (Py.join ";" (replicate (S n) "1"))
  = Ok (mk (Py.join ";" (replicate (S n) "1")) (Z.of_nat (S n)) (Z.of_nat (S n))
           (replicate (S n) [(1, 1)])).
Proof.
  apply init_Ok. exists (replicate (S n) [(1, 1)]).
  rewrite sum_pull_ones, sum_bag_ones. split; [|done].
  unfold tokens. rewrite join_ones_split.
  generalize (S n). intros m. induction m as [|m IH]; [constructor|].
  constructor; [|done]. constructor; [|done]. split.
  - by apply denotes_bare.
  - unfold in_range. simpl. lia.
Qed.

(** X4.  The default [SubtaskString] of [n >= 1] subtasks has [n]
    segments of the single group [1], and total pull and total bag [n];
    for no subtask at all the synthesized string is empty and the
    constructor raises the illegal-group error. *)
Theorem SubtaskString_default_for_subtasks {T} (subtasks : list T) :
  default_for_subtasks subtasks =
    match subtasks with
    | [] => Raise (IllegalGroup "")
    | _ :: _ =>
        let n := length subtasks in
        Ok (mk (Py.join ";" (replicate n "1")) (Z.of_nat n) (Z.of_nat n)
               (replicate n [(1, 1)]))
    end.
Proof.
  unfold default_for_subtasks. destruct subtasks as [|x subtasks]; [done|].
  cbv zeta. simpl length. apply init_ones.
Qed.

(** ** The sampler *)

(** X5.  The sampler of the default [SubtaskString] shows every subtask,
    in the order of the problem, whatever the identifier, the seed and
    the generator. *)
Theorem default_shows_all_in_order `{PyRandom} `{PyLimits} {T}
    (subtasks : list T) (self : t) (task_id seed : str)
    (h : gmap positive generator) :
  default_for_subtasks subtasks = Ok self ->
  (sample_subtasks self task_id seed h).1
  = Ok (seqZ 0 (Z.of_nat (length subtasks))).
Proof.
  unfold default_for_subtasks. destruct subtasks as [|x subtasks]; [done|].
  cbv zeta. simpl length. rewrite init_ones. intros [= <-].
  set (n := S (length subtasks)).
  assert (forall g, wp (sample_body (mk (Py.join ";" (replicate n "1")) (Z.of_nat n)
                                        (Z.of_nat n) (replicate n [(1, 1)]))) g
                       (fun r _ => r = Ok (seqZ 0 (Z.of_nat n)))) as Hbody.
  { intros g. unfold sample_body.
    apply (wp_bind (fun l => for_each (segment_body l) (replicate n [(1, 1)]) ([], 0))
                   (fun _ '(result, bag_counter) =>
                      assert (bag_counter =? Z.of_nat n);; mret result)).
    apply wp_segment_loop_ones. intros g1.
    apply (wp_bind (fun _ => assert _) (fun _ _ => mret _)).
    apply wp_assert; [intros _; by apply wp_ret|].
    intros Hne. zbool. lia. }
  destruct (wp_Random (task_id +:+ "#" +:+ seed) _ _
              (Hbody (seed_of_str (task_id +:+ "#" +:+ seed))))
    as (r & g' & -> & Hrun).
  by rewrite sample_subtasks_unfold, Hrun.
Qed.

Lemma default_shows_all_in_order_witness :
  (sample_subtasks (mk "1;1;1" 3 3 [[(1, 1)]; [(1, 1)]; [(1, 1)]]) "task" "dave"
                   {[ 2%positive := 4%nat ]}).1
  = Ok [0; 1; 2].
Proof.
  apply (default_shows_all_in_order [true; false; true]). reflexivity.
Defined.

(** X6.  When the pulls add up to the bags, every group being [n] or
    [n/n], and the interpreter builds every bag, the sampler returns every
    index once: a permutation of [0 .. total_bag - 1]. *)
Theorem sample_subtasks_full_pull `{PyRandom} `{PyLimits} (s : str) (self : t)
    (task_id seed : str) (h : gmap positive generator) :
  init s = Ok self ->
  bags_fit self ->
  total_pull self = total_bag self ->
  exists out,
    (sample_subtasks self task_id seed h).1 = Ok out
    /\ out ≡ₚ seqZ 0 (total_bag self).
Proof.
  intros Hinit Hfit Heq.
  destruct (sample_loop_valid s self task_id seed Hinit Hfit)
    as (out & g' & Hlen & Hsub & Hrun).
  exists out. destruct (Hrun h) as [_ ->]. split; [done|].
  apply submseteq_length_Permutation; [done|].
  rewrite length_seqZ. lia.
Qed.

Lemma sample_subtasks_full_pull_witness :
  exists out,
    (sample_subtasks (mk "2,1;1" 4 4 [[(2, 2); (1, 1)]; [(1, 1)]]) "task" "erin" ∅).1
    = Ok out
    /\ out ≡ₚ seqZ 0 4.
Proof.
  apply (sample_subtasks_full_pull "2,1;1"
           (mk "2,1;1" 4 4 [[(2, 2); (1, 1)]; [(1, 1)]]) "task" "erin" ∅).
  - reflexivity.
  - repeat constructor; by vm_compute.
  - reflexivity.
Defined.

Section structure.
Context `{PyRandom} `{PyLimits}.

Lemma wp_pick_loop_picks gs shuffler bag_counter g
    (Q : result (list Z * Z) -> generator -> Prop) :
  Forall in_range gs ->
  long_bag gs = None ->
  (forall picked g',
     picks bag_counter gs picked ->
     Q (Ok (shuffler ++ picked, bag_counter + bag_of gs)) g') ->
  wp (fun rand => for_each (pick_body rand) gs (shuffler, bag_counter)) g Q.
Proof.
  intros Hgs. revert shuffler bag_counter g Q.
  induction Hgs as [|[pull bag] gs (Hp & Hb & Hpb) Hgs IH];
    intros shuffler bag_counter g Q Hfit HQ.
  - apply wp_ret. specialize (HQ [] g (picks_nil _)).
    by rewrite app_nil_r, Z.add_0_r in HQ.
  - simpl in Hp, Hb, Hpb, Hfit.
    destruct (Z.ltb_spec list_max bag); [done|].
    apply (wp_bind (fun l => pick_body l (shuffler, bag_counter) (pull, bag))
                   (fun l => for_each (pick_body l) gs)).
    apply wp_pick_body; [lia|done|]. intros picked g1 Hlen Hsub.
    apply IH; [done|]. intros rest g' Hrest.
    specialize (HQ (picked ++ rest) g' (picks_cons _ _ _ _ _ _ Hlen Hsub Hrest)).
    rewrite <-app_assoc, <-Z.add_assoc. apply HQ.
Qed.

Lemma wp_segment_loop_blocks gss res bag_counter g
    (Q : result (list Z * Z) -> generator -> Prop) :
  Forall (Forall in_range) gss ->
  long_bag (concat gss) = None ->
  (forall out g',
     blocks bag_counter gss out ->
     Q (Ok (res ++ out, bag_counter + sum_bag gss)) g') ->
  wp (fun rand => for_each (segment_body rand) gss (res, bag_counter)) g Q.
Proof.
  intros Hgss. revert res bag_counter g Q.
  induction Hgss as [|gs gss Hgs Hgss IH]; intros res bag_counter g Q Hfit HQ.
  - apply wp_ret. specialize (HQ [] g (blocks_nil _)).
    by rewrite app_nil_r, Z.add_0_r in HQ.
  - simpl in Hfit. rewrite long_bag_app in Hfit.
    destruct (long_bag gs) eqn:Hgsfit; [done|].
    apply (wp_bind (fun l => segment_body l (res, bag_counter) gs)
                   (fun l => for_each (segment_body l) gss)).
    unfold segment_body.
    apply (wp_bind (fun l => for_each (pick_body l) gs ([], bag_counter))
                   (fun l '(shuffler, bag_counter) =>
                      shuffler ← shuffle l shuffler;
                      mret (res ++ shuffler, bag_counter))).
    apply wp_pick_loop_picks; [done|done|]. intros picked g1 Hpicks. simpl.
    apply (wp_bind (fun l => shuffle l picked) (fun _ shuffler => mret _)).
    apply wp_shuffle, wp_ret.
    pose proof (shuffle_of_perm g1 picked) as Hperm.
    apply IH; [done|]. intros rest g' Hrest.
    specialize (HQ ((shuffle_of g1 picked).1 ++ rest) g'
                   (blocks_cons _ _ _ _ _ _ Hpicks Hperm Hrest)).
    rewrite sum_bag_cons in HQ. rewrite <-app_assoc, <-Z.add_assoc. apply HQ.
Qed.

(** The sampler of a constructed object, when no bag is too long,
    returns the blocks of its segments. *)
Lemma sample_subtasks_blocks s self task_id seed :
  init s = Ok self ->
  bags_fit self ->
  exists out g',
    blocks 0 (groups self) out /\
    forall h : gmap positive generator,
      sample_subtasks self task_id seed h = (Ok out, <[fresh (dom h) := g']> h).
Proof.
  intros Hinit Hfit%long_bag_fit.
  pose proof (init_in_range _ _ Hinit) as Hrange.
  destruct (init_totals _ _ Hinit) as [_ Hbag].
  assert (forall g, wp (sample_body self) g
                       (fun r _ => exists out, r = Ok out /\ blocks 0 (groups self) out))
    as Hbody.
  { intros g. unfold sample_body.
    apply (wp_bind (fun l => for_each (segment_body l) (groups self) ([], 0))
                   (fun _ '(result, bag_counter) =>
                      assert (bag_counter =? total_bag self);; mret result)).
    apply wp_segment_loop_blocks; [done|done|]. intros out g1 Hout.
    apply (wp_bind (fun _ => assert _) (fun _ _ => mret _)).
    apply wp_assert; [intros _; apply wp_ret; eauto|].
    intros Hne. zbool. lia. }
  destruct (wp_Random (task_id +:+ "#" +:+ seed) _ _
              (Hbody (seed_of_str (task_id +:+ "#" +:+ seed))))
    as (r & g' & (out & -> & Hout) & Hrun).
  exists out, g'. split; [done|]. intros h.
  by rewrite sample_subtasks_unfold, Hrun.
Qed.
End structure.

(** *** What the blocks contain *)

Lemma picks_bounds start gs picked :
  Forall in_range gs -> picks start gs picked ->
  Z.of_nat (length picked) = pull_of gs
  /\ picked ⊆+ seqZ start (bag_of gs).
Proof.
  intros Hgs Hpicks. induction Hpicks as [|start pull bag gs p rest Hlen Hsub _ IH].
  - split; [done|]. by rewrite seqZ_nil.
  - apply Forall_cons in Hgs as [(Hp & Hb & Hpb) Hgs]. simpl in *.
    destruct (IH Hgs) as [Hl Hs]. pose proof (bag_of_nonneg _ Hgs).
    unfold pull_of, bag_of in *. simpl. split.
    + rewrite length_app. lia.
    + rewrite seqZ_app by lia. by apply submseteq_app.
Qed.

Lemma sum_bag_nonneg gss : Forall (Forall in_range) gss -> 0 <= sum_bag gss.
Proof.
  induction 1 as [|gs gss Hgs _ IH]; [done|].
  rewrite sum_bag_cons. pose proof (bag_of_nonneg gs Hgs). unfold bag_of in *. lia.
Qed.

Lemma blocks_bounds start gss out :
  Forall (Forall in_range) gss -> blocks start gss out ->
  Z.of_nat (length out) = sum_pull gss
  /\ out ⊆+ seqZ start (sum_bag gss).
Proof.
  intros Hgss Hblocks.
  induction Hblocks as [|start gs gss picked block rest Hpicks Hperm _ IH].
  - split; [done|]. by rewrite seqZ_nil.
  - apply Forall_cons in Hgss as [Hgs Hgss].
    destruct (IH Hgss) as [Hl Hs].
    destruct (picks_bounds _ _ _ Hgs Hpicks) as [Hl1 Hs1].
    pose proof (bag_of_nonneg _ Hgs). pose proof (sum_bag_nonneg _ Hgss).
    rewrite sum_pull_cons, sum_bag_cons. unfold pull_of, bag_of in *. split.
    + rewrite length_app, Hperm. lia.
    + rewrite seqZ_app by lia. apply submseteq_app; [by rewrite Hperm|done].
Qed.

Lemma blocks_app_inv start gss1 gss2 out :
  blocks start (gss1 ++ gss2) out ->
  exists out1 out2,
    out = out1 ++ out2 /\ blocks start gss1 out1
    /\ blocks (start + sum_bag gss1) gss2 out2.
Proof.
  revert start out. induction gss1 as [|gs gss1 IH]; intros start out Hblocks.
  - exists [], out. split; [done|]. split; [constructor|].
    by rewrite Z.add_0_r.
  - inversion Hblocks as [|? ? ? picked block rest Hpicks Hperm Hrest]; subst.
    destruct (IH _ _ Hrest) as (out1 & out2 & -> & H1 & H2).
    exists (block ++ out1), out2. rewrite app_assoc. split; [done|].
    split; [by econstructor|].
    rewrite sum_bag_cons. unfold bag_of in *. by rewrite Z.add_assoc.
Qed.

(** X7.  The segments keep their order, on a constructed object of which
    the interpreter builds every bag.  Whatever prefix of the segments
    one takes, the indices returned for it come first: as many as these
    segments pull, all from the bags of these segments; and the indices
    that follow are all from the bags of the later segments. *)
Theorem sample_subtasks_segments_in_order `{PyRandom} `{PyLimits} (s : str)
    (self : t) (task_id seed : str) (h : gmap positive generator)
    (gss1 gss2 : list (list (Z * Z))) :
  init s = Ok self ->
  bags_fit self ->
  groups self = gss1 ++ gss2 ->
  exists out1 out2,
    (sample_subtasks self task_id seed h).1 = Ok (out1 ++ out2)
    /\ Z.of_nat (length out1) = sum_pull gss1
    /\ Z.of_nat (length out2) = sum_pull gss2
    /\ (forall x, x ∈ out1 -> 0 <= x < sum_bag gss1)
    /\ (forall x, x ∈ out2 -> sum_bag gss1 <= x < total_bag self).
Proof.
  intros Hinit Hfit Hgroups.
  destruct (sample_subtasks_blocks s self task_id seed Hinit Hfit)
    as (out & g' & Hblocks & Hrun).
  pose proof (init_in_range _ _ Hinit) as Hrange.
  destruct (init_totals _ _ Hinit) as [_ Hbag].
  rewrite Hgroups in Hblocks, Hrange, Hbag.
  apply Forall_app in Hrange as [Hr1 Hr2].
  apply blocks_app_inv in Hblocks as (out1 & out2 & -> & H1 & H2).
  destruct (blocks_bounds _ _ _ Hr1 H1) as [Hl1 Hs1].
  destruct (blocks_bounds _ _ _ Hr2 H2) as [Hl2 Hs2].
  exists out1, out2. rewrite Hrun. split; [done|]. split; [done|]. split; [done|].
  assert (sum_bag (gss1 ++ gss2) = sum_bag gss1 + sum_bag gss2) as Hsum.
  { clear. induction gss1 as [|gs gss1 IH]; [done|].
    change ((gs :: gss1) ++ gss2) with (gs :: (gss1 ++ gss2)).
    rewrite !sum_bag_cons, IH. lia. }
  split; intros x Hx.
  - eapply elem_of_submseteq in Hx; [|done]. apply elem_of_seqZ in Hx. lia.
  - eapply elem_of_submseteq in Hx; [|done]. apply elem_of_seqZ in Hx. lia.
Qed.

Lemma sample_subtasks_segments_in_order_witness :
  exists out1 out2,
    (sample_subtasks (mk "1/2;2/3,1" 4 6 [[(1, 2)]; [(2, 3); (1, 1)]])
                     "task" "frank" ∅).1 = Ok (out1 ++ out2)
    /\ Z.of_nat (length out1) = sum_pull [[(1, 2)]]
    /\ Z.of_nat (length out2) = sum_pull [[(2, 3); (1, 1)]]
    /\ (forall x, x ∈ out1 -> 0 <= x < sum_bag [[(1, 2)]])
    /\ (forall x, x ∈ out2 -> sum_bag [[(1, 2)]] <= x < 6).
Proof.
  apply (sample_subtasks_segments_in_order "1/2;2/3,1"
           (mk "1/2;2/3,1" 4 6 [[(1, 2)]; [(2, 3); (1, 1)]]) "task" "frank" ∅
           [[(1, 2)]] [[(2, 3); (1, 1)]]).
  - reflexivity.
  - repeat constructor; by vm_compute.
  - reflexivity.
Defined.

(** *** Every group gets its pull *)

Lemma drawn_from_app start bag l1 l2 :
  drawn_from start bag (l1 ++ l2)
  = drawn_from start bag l1 + drawn_from start bag l2.
Proof. unfold drawn_from. rewrite filter_app, length_app. lia. Qed.

Lemma drawn_from_perm start bag l1 l2 :
  l1 ≡ₚ l2 -> drawn_from start bag l1 = drawn_from start bag l2.
Proof. unfold drawn_from. by intros ->. Qed.

Lemma drawn_from_inside start bag l :
  (forall x, x ∈ l -> start <= x < start + bag) ->
  drawn_from start bag l = Z.of_nat (length l).
Proof.
  unfold drawn_from. induction l as [|x l IH]; intros Hin; [done|].
  rewrite filter_cons_True by apply Hin, list_elem_of_here.
  simpl. rewrite !Nat2Z.inj_succ. f_equal. apply IH.
  intros y Hy. by apply Hin, list_elem_of_further.
Qed.

Lemma drawn_from_outside start bag l :
  (forall x, x ∈ l -> ~ start <= x < start + bag) ->
  drawn_from start bag l = 0.
Proof.
  unfold drawn_from. induction l as [|x l IH]; intros Hout; [done|].
  rewrite filter_cons_False by apply Hout, list_elem_of_here.
  apply IH. intros y Hy. by apply Hout, list_elem_of_further.
Qed.

Lemma bag_starts_app start gs1 gs2 :
  bag_starts start (gs1 ++ gs2)
  = bag_starts start gs1 ++ bag_starts (start + bag_of gs1) gs2.
Proof.
  revert start. induction gs1 as [|[pull bag] gs1 IH]; intros start; simpl.
  - unfold bag_of. simpl. by rewrite Z.add_0_r.
  - rewrite IH. unfold bag_of. simpl. by rewrite Z.add_assoc.
Qed.

Lemma bag_starts_bounds start gs a pull bag :
  Forall in_range gs -> (a, (pull, bag)) ∈ bag_starts start gs ->
  start <= a /\ 1 <= bag /\ a + bag <= start + bag_of gs.
Proof.
  intros Hgs. revert start.
  induction Hgs as [|[p b] gs (Hp & Hb & Hpb) Hgs IH]; intros start; simpl.
  - by intros ?%elem_of_nil.
  - pose proof (bag_of_nonneg _ Hgs). simpl in *.
    assert (bag_of ((p, b) :: gs) = b + bag_of gs) as -> by done.
    intros [[= -> -> ->]|Hin%IH]%elem_of_cons; lia.
Qed.

Lemma picks_drawn start gs picked a pull bag :
  Forall in_range gs -> picks start gs picked ->
  (a, (pull, bag)) ∈ bag_starts start gs ->
  drawn_from a bag picked = pull.
Proof.
  intros Hgs Hpicks. revert a pull bag.
  induction Hpicks as [|start p b gs first rest Hlen Hsub Hrest IH];
    intros a pull bag; simpl.
  - by intros ?%elem_of_nil.
  - apply Forall_cons in Hgs as [(Hp & Hb & Hpb) Hgs]. simpl in *.
    destruct (picks_bounds _ _ _ Hgs Hrest) as [_ Hsub'].
    rewrite drawn_from_app. intros [[= -> -> ->]|Hin]%elem_of_cons.
    + rewrite drawn_from_inside, drawn_from_outside; [lia|..].
      * intros x Hx. eapply elem_of_submseteq in Hx; [|done].
        apply elem_of_seqZ in Hx. lia.
      * intros x Hx. eapply elem_of_submseteq in Hx; [|done].
        apply elem_of_seqZ in Hx. lia.
    + pose proof (bag_starts_bounds _ _ _ _ _ Hgs Hin).
      rewrite drawn_from_outside, (IH Hgs _ _ _ Hin); [lia|].
      intros x Hx. eapply elem_of_submseteq in Hx; [|done].
      apply elem_of_seqZ in Hx. lia.
Qed.

Lemma blocks_drawn start gss out a pull bag :
  Forall (Forall in_range) gss -> blocks start gss out ->
  (a, (pull, bag)) ∈ bag_starts start (concat gss) ->
  drawn_from a bag out = pull.
Proof.
  intros Hgss Hblocks. revert a pull bag.
  induction Hblocks as [|start gs gss picked block rest Hpicks Hperm Hrest IH];
    intros a pull bag; simpl.
  - by intros ?%elem_of_nil.
  - apply Forall_cons in Hgss as [Hgs Hgss].
    destruct (picks_bounds _ _ _ Hgs Hpicks) as [_ Hsub].
    destruct (blocks_bounds _ _ _ Hgss Hrest) as [_ Hsub'].
    assert (Forall in_range (concat gss)) as Hall by by apply Forall_concat.
    rewrite bag_starts_app, drawn_from_app, (drawn_from_perm _ _ _ _ Hperm).
    intros [Hin|Hin]%elem_of_app.
    + pose proof (bag_starts_bounds _ _ _ _ _ Hgs Hin).
      rewrite (picks_drawn _ _ _ _ _ _ Hgs Hpicks Hin), drawn_from_outside; [lia|].
      intros x Hx. eapply elem_of_submseteq in Hx; [|done].
      apply elem_of_seqZ in Hx. lia.
    + pose proof (bag_starts_bounds _ _ _ _ _ Hall Hin).
      rewrite drawn_from_outside, (IH Hgss _ _ _ Hin); [lia|].
      intros x Hx. eapply elem_of_submseteq in Hx; [|done].
      apply elem_of_seqZ in Hx. lia.
Qed.

(** X8.  Every group gets its pull, on a constructed object of which the
    interpreter builds every bag.  The bags of the groups are
    consecutive ranges of indices, in the order of the string; of the
    indices that the sampler returns, exactly [pull] are in the bag of a
    group [pull/bag]. *)
Theorem sample_subtasks_group_quota `{PyRandom} `{PyLimits} (s : str) (self : t)
    (task_id seed : str) (h : gmap positive generator) :
  init s = Ok self ->
  bags_fit self ->
  exists out,
    (sample_subtasks self task_id seed h).1 = Ok out
    /\ forall start pull bag,
         (start, (pull, bag)) ∈ bag_starts 0 (concat (groups self)) ->
         drawn_from start bag out = pull.
Proof.
  intros Hinit Hfit.
  destruct (sample_subtasks_blocks s self task_id seed Hinit Hfit)
    as (out & g' & Hblocks & Hrun).
  exists out. rewrite Hrun. split; [done|]. intros start pull bag.
  apply blocks_drawn; [by eapply init_in_range|done].
Qed.

Lemma sample_subtasks_group_quota_witness :
  exists out,
    (sample_subtasks (mk "1/2;2/3,1" 4 6 [[(1, 2)]; [(2, 3); (1, 1)]])
                     "task" "grace" ∅).1 = Ok out
    /\ forall start pull bag,
         (start, (pull, bag)) ∈ bag_starts 0 (concat [[(1, 2)]; [(2, 3); (1, 1)]]) ->
         drawn_from start bag out = pull.
Proof.
  apply (sample_subtasks_group_quota "1/2;2/3,1"
           (mk "1/2;2/3,1" 4 6 [[(1, 2)]; [(2, 3); (1, 1)]]) "task" "grace" ∅).
  - reflexivity.
  - repeat constructor; by vm_compute.
Defined.

(** *** What the sampler can raise *)

Section raises.
Context `{PyRandom} `{PyLimits}.

(** A loop raises what its body raises. *)
Lemma wp_for_each_raises {A S} (P : exn -> Prop)
    (body : positive -> S -> A -> M S) xs s g :
  (forall s a g, wp (fun l => body l s a) g (fun r _ => forall e, r = Raise e -> P e)) ->
  wp (fun l => for_each (body l) xs s) g (fun r _ => forall e, r = Raise e -> P e).
Proof.
  intros Hbody. revert s g. induction xs as [|a xs IH]; intros s g.
  - by apply wp_ret.
  - apply (wp_bind (fun l => body l s a) (fun l => for_each (body l) xs)).
    eapply wp_mono; [|apply Hbody]. intros [s1|e] g1 He; [apply IH|done].
Qed.

(** What [list(range(...))], [sample] and the assertion raise. *)
Lemma wp_pick_body_raises st group g :
  wp (fun l => pick_body l st group) g
     (fun r _ => forall e, r = Raise e ->
                           e = OverflowError \/ e = MemoryError
                           \/ e = SampleRange).
Proof.
  destruct st as [shuffler bag_counter], group as [pull bag]. unfold pick_body.
  apply (wp_bind (fun _ => of_result _)
                 (fun l this_bag =>
                    picked ← sample l this_bag pull;
                    mret (shuffler ++ picked, bag_counter + bag))).
  apply wp_of_result. unfold Py.range. cbv zeta.
  destruct (maxsize <? _); [intros e [= <-]; by left|].
  destruct (list_max <? _); [intros e [= <-]; right; by left|].
  apply (wp_bind (fun l => sample l _ pull) (fun _ picked => mret _)).
  apply wp_sample; intros _; [by apply wp_ret|].
  intros e [= <-]. right. by right.
Qed.

Lemma wp_segment_body_raises st gs g :
  wp (fun l => segment_body l st gs) g
     (fun r _ => forall e, r = Raise e ->
                           e = OverflowError \/ e = MemoryError
                           \/ e = SampleRange).
Proof.
  destruct st as [res bag_counter]. unfold segment_body.
  apply (wp_bind (fun l => for_each (pick_body l) gs ([], bag_counter))
                 (fun l '(shuffler, bag_counter) =>
                    shuffler ← shuffle l shuffler;
                    mret (res ++ shuffler, bag_counter))).
  eapply wp_mono;
    [|apply (wp_for_each_raises
               (fun e => e = OverflowError \/ e = MemoryError
                         \/ e = SampleRange)), wp_pick_body_raises].
  intros [[shuffler bc]|e] g1 He; [|done].
  apply (wp_bind (fun l => shuffle l shuffler) (fun _ shuffler => mret _)).
  by apply wp_shuffle, wp_ret.
Qed.

Lemma wp_sample_body_raises self g :
  wp (sample_body self) g
     (fun r _ => forall e, r = Raise e ->
                           e = OverflowError \/ e = MemoryError
                           \/ e = SampleRange \/ e = AssertionError).
Proof.
  unfold sample_body.
  apply (wp_bind (fun l => for_each (segment_body l) (groups self) ([], 0))
                 (fun _ '(result, bag_counter) =>
                    assert (bag_counter =? total_bag self);; mret result)).
  eapply wp_mono;
    [|apply (wp_for_each_raises
               (fun e => e = OverflowError \/ e = MemoryError
                         \/ e = SampleRange)), wp_segment_body_raises].
  intros [[res bc]|e] g1 He.
  - apply (wp_bind (fun _ => assert _) (fun _ _ => mret _)).
    apply wp_assert; intros _; [by apply wp_ret|].
    intros e [= <-]. do 3 right. done.
  - intros e' [= <-]. destruct (He e eq_refl) as [-> | [-> | ->]]; auto.
Qed.
End raises.

(** X9.  Whatever the fields of the object, the sampler raises nothing
    but the [OverflowError] and the [MemoryError] of [list(range(...))],
    [SampleRange], the [ValueError] of [sample], and the [AssertionError]
    of its last line. *)
Theorem sample_subtasks_raises_only `{PyRandom} `{PyLimits} (self : t)
    (task_id seed : str) (h : gmap positive generator) (e : exn) :
  (sample_subtasks self task_id seed h).1 = Raise e ->
  e = OverflowError \/ e = MemoryError
  \/ e = SampleRange \/ e = AssertionError.
Proof.
  destruct (wp_Random (task_id +:+ "#" +:+ seed) _ _
              (wp_sample_body_raises self (seed_of_str (task_id +:+ "#" +:+ seed))))
    as (r & g' & Hr & Hrun).
  rewrite sample_subtasks_unfold, Hrun. apply Hr.
Qed.

Lemma sample_subtasks_raises_only_witness :
  (sample_subtasks (mk "1/2" 1 3 [[(1, 2)]]) "task" "ivan" ∅).1 = Raise AssertionError
  /\ (AssertionError = OverflowError \/ AssertionError = MemoryError
      \/ AssertionError = SampleRange \/ AssertionError = AssertionError).
Proof.
  split; [reflexivity|].
  apply (sample_subtasks_raises_only (mk "1/2" 1 3 [[(1, 2)]]) "task" "ivan" ∅).
  reflexivity.
Defined.

(** ** The constructor of [ScoreString] *)

(** X10.  A constructed [ScoreString] keeps its string, holds the integers
    of its three fields, and has minimum and expected score between [0]
    and the total. *)
Theorem ScoreString_invariant (s : str) (self : ScoreString.t) :
  ScoreString.init s = Ok self ->
  ScoreString.string self = s
  /\ (exists p0 p1 p2,
        Py.split "/"%char s = [p0; p1; p2]
        /\ Py.int p0 = Some (ScoreString._minimum self)
        /\ Py.int p1 = Some (ScoreString._expected self)
        /\ Py.int p2 = Some (ScoreString._total self))
  /\ 0 <= ScoreString._minimum self <= ScoreString._total self
  /\ 0 <= ScoreString._expected self <= ScoreString._total self.
Proof.
  unfold ScoreString.init.
  destruct (Py.split "/" s) as [|p0 [|p1 [|p2 [|? ?]]]]; try done.
  destruct (Py.int p0) as [m|] eqn:H0; [|done].
  destruct (Py.int p1) as [e|] eqn:H1; [|done].
  destruct (Py.int p2) as [tot|] eqn:H2; [|done].
  repeat case_match; try done. intros [= <-]. simpl. zbool.
  split; [done|]. split; [by exists p0, p1, p2|]. lia.
Qed.

Lemma ScoreString_invariant_witness :
  ScoreString.string (ScoreString.mk "2/3/4" 2 3 4) = "2/3/4"
  /\ (exists p0 p1 p2,
        Py.split "/"%char "2/3/4" = [p0; p1; p2]
        /\ Py.int p0 = Some 2 /\ Py.int p1 = Some 3 /\ Py.int p2 = Some 4)
  /\ 0 <= 2 <= 4 /\ 0 <= 3 <= 4.
Proof.
  apply (ScoreString_invariant "2/3/4" (ScoreString.mk "2/3/4" 2 3 4)).
  reflexivity.
Defined.

(** *** [int(str(n))] *)

Lemma digit_of_char (c : ascii) (k : nat) :
  (48 <= nat_of_ascii c <= 57)%nat -> k = (nat_of_ascii c - 48)%nat ->
  Py.digit c = Some (Z.of_nat k).
Proof.
  intros Hc ->. unfold Py.digit.
  destruct (Nat.leb_spec 48 (nat_of_ascii c)), (Nat.leb_spec (nat_of_ascii c) 57);
    simpl; [f_equal|..]; lia.
Qed.

(** The digit scan on the decimal writing of a number. *)
Lemma scan_digits_uint (d : Decimal.uint) (acc n : nat) :
  Py.scan_digits (NilEmpty.string_of_uint d) false (Z.of_nat acc) n
  = Some (Z.of_nat (Nat.of_uint_acc d acc),
          (n + String.length (NilEmpty.string_of_uint d))%nat, EmptyString).
Proof.
  revert acc n.
  induction d as [|d IH|d IH|d IH|d IH|d IH|d IH|d IH|d IH|d IH|d IH];
    intros acc n; simpl NilEmpty.string_of_uint;
    [simpl; by rewrite Nat.add_0_r|..];
    cbn [Py.scan_digits Nat.of_uint_acc String.length];
    match goal with
    | |- context [Py.digit ?c] =>
        rewrite (digit_of_char c (nat_of_ascii c - 48))
          by first [reflexivity | vm_compute; lia]
    end;
    rewrite Nat.tail_mul_spec;
    match goal with
    | |- Py.scan_digits (NilEmpty.string_of_uint _) _
           (_ + Z.of_nat (nat_of_ascii ?c - 48)) _ = _ =>
        let v := eval vm_compute in (nat_of_ascii c - 48)%nat in
        change (nat_of_ascii c - 48)%nat with v
    end;
    match goal with
    | |- Py.scan_digits _ _ ?a _ = Some (Z.of_nat (Nat.of_uint_acc _ ?b), _, _) =>
        replace a with (Z.of_nat b) by lia
    end;
    rewrite IH; do 3 f_equal; lia.
Qed.

Lemma contains_uint (c : ascii) (d : Decimal.uint) :
  Py.digit c = None -> Py.contains c (NilEmpty.string_of_uint d) = false.
Proof.
  intros Hc.
  induction d as [|d IH|d IH|d IH|d IH|d IH|d IH|d IH|d IH|d IH|d IH];
    cbn [NilEmpty.string_of_uint Py.contains]; [done|..];
    rewrite IH, orb_false_r;
    match goal with
    | |- Ascii.eqb ?k c = false => by destruct (Ascii.eqb_spec k c) as [<-|]
    end.
Qed.

Lemma to_uint_not_Nil n : Nat.to_uint n <> Decimal.Nil.
Proof.
  rewrite Unsigned.to_uint_alt. intros Hnil%DecimalFacts.rev_nil_inv.
  destruct n as [|n]; [done|].
  rewrite Unsigned.to_lu_succ in Hnil. by destruct (Unsigned.to_lu n).
Qed.

(** [int] reads what [str] writes, unless it has more digits than [int]
    accepts. *)
Lemma int_str_of_nat (n : nat) :
  Py.int (Py.str_of_nat n)
  = if (String.length (Py.str_of_nat n) <=? Py.int_max_str_digits)%nat
    then Some (Z.of_nat n) else None.
Proof.
  unfold Py.str_of_nat.
  pose proof (scan_digits_uint (Nat.to_uint n) 0 0) as Hscan.
  change (Nat.of_uint_acc (Nat.to_uint n) 0) with (Nat.of_uint (Nat.to_uint n)) in Hscan.
  rewrite Unsigned.of_to in Hscan. change (Z.of_nat 0) with 0 in Hscan.
  rewrite Nat.add_0_l in Hscan.
  pose proof (to_uint_not_Nil n) as Hnil.
  assert (forall s, (exists c r, s = String c r /\ is_Some (Py.digit c)) ->
                    Py.int s = Py.int_digits s
                    /\ Py.int_digits s
                       = match Py.scan_digits s false 0 0 with
                         | Some (v, m, rest) =>
                             if ((m =? 0) || (Py.int_max_str_digits <? m))%nat then None
                             else match Py.skip_space rest with
                                  | EmptyString => Some v
                                  | String _ _ => None
                                  end
                         | None => None
                         end) as Hdigit.
  { intros s (c & r & -> & Hc).
    destruct c as [[] [] [] [] [] [] [] []]; by destruct Hc. }
  destruct (Hdigit (NilEmpty.string_of_uint (Nat.to_uint n))) as [-> ->].
  { destruct (Nat.to_uint n); [done|..]; simpl; eauto. }
  rewrite Hscan.
  assert (String.length (NilEmpty.string_of_uint (Nat.to_uint n)) <> 0%nat) as Hlen.
  { by destruct (Nat.to_uint n). }
  destruct (Nat.eqb_spec (String.length (NilEmpty.string_of_uint (Nat.to_uint n))) 0);
    [done|].
  simpl orb.
  destruct (Nat.ltb_spec Py.int_max_str_digits
              (String.length (NilEmpty.string_of_uint (Nat.to_uint n)))),
           (Nat.leb_spec (String.length (NilEmpty.string_of_uint (Nat.to_uint n)))
              Py.int_max_str_digits); try done; lia.
Qed.

Lemma split_score_default (n : nat) :
  Py.split "/"%char ("0/" +:+ Py.str_of_nat n +:+ "/" +:+ Py.str_of_nat n)
  = ["0"; Py.str_of_nat n; Py.str_of_nat n].
Proof.
  assert (Py.contains "/" (Py.str_of_nat n) = false) as Hns
    by by apply contains_uint.
  change ("0/" +:+ Py.str_of_nat n +:+ "/" +:+ Py.str_of_nat n)
    with ("0" +:+ String "/"%char (Py.str_of_nat n +:+ String "/"%char (Py.str_of_nat n))).
  rewrite split_sep by done. rewrite split_sep by done.
  by rewrite split_no_sep.
Qed.

Lemma init_score_default (n : nat) :
  ScoreString.init ("0/" +:+ Py.str_of_nat n +:+ "/" +:+ Py.str_of_nat n)
  = if (String.length (Py.str_of_nat n) <=? Py.int_max_str_digits)%nat
    then Ok (ScoreString.mk ("0/" +:+ Py.str_of_nat n +:+ "/" +:+ Py.str_of_nat n)
               0 (Z.of_nat n) (Z.of_nat n))
    else Raise (IllegalScore ("0/" +:+ Py.str_of_nat n +:+ "/" +:+ Py.str_of_nat n)).
Proof.
  unfold ScoreString.init. rewrite split_score_default.
  rewrite int_str_of_nat. change (Py.int "0") with (Some 0).
  destruct (String.length (Py.str_of_nat n) <=? Py.int_max_str_digits)%nat; [|done].
  simpl. destruct (Z.ltb_spec (Z.of_nat n) 0); [lia|].
  destruct (Z.ltb_spec (Z.of_nat n) (Z.of_nat n)); [lia|]. done.
Qed.

(** X11.  The default [ScoreString] of [n] subtasks is that of ["0/n/n"]:
    minimum 0, expected [n] and total [n], for no subtask as well.  It is
    refused only for a number of subtasks that [int] does not read back,
    one of more than 4300 digits. *)
Theorem ScoreString_default_for_subtasks {T} (subtasks : list T) :
  ScoreString.default_for_subtasks subtasks
  = if (String.length (Py.str_of_nat (length subtasks))
        <=? Py.int_max_str_digits)%nat
    then Ok (ScoreString.mk
               ("0/" +:+ Py.str_of_nat (length subtasks) +:+ "/"
                     +:+ Py.str_of_nat (length subtasks))
               0 (Z.of_nat (length subtasks)) (Z.of_nat (length subtasks)))
    else Raise (IllegalScore
                  ("0/" +:+ Py.str_of_nat (length subtasks) +:+ "/"
                        +:+ Py.str_of_nat (length subtasks))).
Proof. apply init_score_default. Qed.

(** ** The constructor of [MultifillProblem] *)

Lemma check_text_loop_from k subtasks :
  match for_each MultifillProblem.check_text
          (imap (fun i => pair (k + i)%nat) subtasks) tt with
  | Ok _ => Forall (fun subtask => is_Some (MultifillProblem.text subtask)) subtasks
  | Raise e => exists i, e = MissingText (k + i) /\ first_without_text subtasks i
  end.
Proof.
  revert k. induction subtasks as [|st sts IH]; intros k; [by constructor|].
  rewrite imap_cons, for_each_cons. unfold MultifillProblem.check_text at 2.
  destruct (MultifillProblem.text st) as [txt|] eqn:Ht.
  - rewrite result_bind_Ok. specialize (IH (S k)).
    assert (imap ((fun i => pair (k + i)%nat) ∘ S) sts
            = imap (fun i => pair (S k + i)%nat) sts) as ->.
    { apply imap_ext. intros i x _. simpl. f_equal. lia. }
    destruct (for_each _ _ _) as [[]|e].
    + constructor; [by rewrite Ht|done].
    + destruct IH as (i & -> & (st' & Hi & Hnone) & Hbefore).
      exists (S i). split; [f_equal; lia|]. split; [by exists st'|].
      intros [|j] st'' Hj; simpl; [intros [= <-]; by rewrite Ht|].
      apply Hbefore. lia.
  - rewrite result_bind_Raise. exists 0%nat. split; [done|].
    split; [by exists st|]. intros j ? Hj. lia.
Qed.

Lemma first_without_text_fun subtasks i j :
  first_without_text subtasks i -> first_without_text subtasks j -> i = j.
Proof.
  intros [(sti & Hi & Hni) Hbi] [(stj & Hj & Hnj) Hbj].
  destruct (Nat.lt_trichotomy i j) as [Hlt|[->|Hlt]]; [|done|].
  - destruct (Hbj _ _ Hlt Hi) as [? ?]. congruence.
  - destruct (Hbi _ _ Hlt Hj) as [? ?]. congruence.
Qed.

Lemma check_text_loop_Raise subtasks i :
  first_without_text subtasks i ->
  for_each MultifillProblem.check_text (imap pair subtasks) tt
  = Raise (MissingText i).
Proof.
  intros Hi. pose proof (check_text_loop_from 0 subtasks) as Hloop.
  change (imap (fun i => pair (0 + i)%nat) subtasks) with (imap pair subtasks) in Hloop.
  destruct (for_each _ _ _) as [[]|e].
  - destruct Hi as [(st & Hst & Hnone) _].
    eapply Forall_lookup_1 in Hloop as [? ?]; [|done]. congruence.
  - destruct Hloop as (j & -> & Hj). by rewrite (first_without_text_fun _ _ _ Hi Hj).
Qed.

(** What a constructed problem tells about its content. *)
Lemma MultifillProblem_init_Ok Problem_init problemid content problem :
  MultifillProblem.init Problem_init problemid content = Ok problem ->
  Problem_init problemid content = Ok tt
  /\ MultifillProblem.subtasks content = Some (MultifillProblem._subtasks problem)
  /\ Forall (fun subtask => is_Some (MultifillProblem.text subtask))
            (MultifillProblem._subtasks problem)
  /\ MultifillProblem.choose_subtask_string content (MultifillProblem._subtasks problem)
     = Ok (MultifillProblem._subtask_string problem)
  /\ Z.of_nat (length (MultifillProblem._subtasks problem))
     = total_bag (MultifillProblem._subtask_string problem)
  /\ MultifillProblem.choose_score_string content (MultifillProblem._subtasks problem)
     = Ok (MultifillProblem._score_string problem)
  /\ MultifillProblem._header problem = default "" (MultifillProblem.header content).
Proof.
  unfold MultifillProblem.init.
  destruct (Problem_init problemid content) as [[]|?]; [|done].
  rewrite result_bind_Ok. cbv zeta.
  destruct (MultifillProblem.subtasks content) as [subtasks|]; [|done].
  pose proof (check_text_loop_from 0 subtasks) as Htext.
  change (imap (fun i => pair (0 + i)%nat) subtasks) with (imap pair subtasks) in Htext.
  destruct (for_each MultifillProblem.check_text _ _) as [[]|?]; [|done].
  rewrite result_bind_Ok.
  destruct (MultifillProblem.choose_subtask_string content subtasks)
    as [sub|?] eqn:Hsub; [|done].
  rewrite result_bind_Ok. unfold get_total_bag_size.
  destruct (Z.eqb_spec (Z.of_nat (length subtasks)) (total_bag sub)); [|done].
  simpl negb. cbv iota.
  destruct (MultifillProblem.choose_score_string content subtasks) eqn:Hscore; [|done].
  rewrite result_bind_Ok. by intros [= <-].
Qed.

Lemma choose_subtask_string_constructed content subtasks self :
  MultifillProblem.choose_subtask_string content subtasks = Ok self ->
  exists s, init s = Ok self.
Proof.
  unfold MultifillProblem.choose_subtask_string, default_for_subtasks.
  case_match; eauto.
Qed.

Lemma choose_score_string_constructed content subtasks self :
  MultifillProblem.choose_score_string content subtasks = Ok self ->
  exists s, ScoreString.init s = Ok self.
Proof.
  unfold MultifillProblem.choose_score_string, ScoreString.default_for_subtasks.
  case_match; eauto.
Qed.

(** X12.  What holds of every constructed problem: the initialiser of the
    base class returned, the subtasks are those of the content and each
    has a text; there is at least one subtask, and their number is the
    total bag of the subtask string, which is a constructed
    [SubtaskString] that pulls no more than there are subtasks; the score
    string is a constructed [ScoreString]; the header is that of the
    content, or empty. *)
Theorem MultifillProblem_invariant (Problem_init : str -> MultifillProblem.Content -> result unit)
    (problemid : str) (content : MultifillProblem.Content)
    (problem : MultifillProblem.t) :
  MultifillProblem.init Problem_init problemid content = Ok problem ->
  Problem_init problemid content = Ok tt
  /\ MultifillProblem.subtasks content = Some (MultifillProblem._subtasks problem)
  /\ Forall (fun subtask => is_Some (MultifillProblem.text subtask))
            (MultifillProblem._subtasks problem)
  /\ (1 <= length (MultifillProblem._subtasks problem))%nat
  /\ Z.of_nat (length (MultifillProblem._subtasks problem))
     = total_bag (MultifillProblem._subtask_string problem)
  /\ 0 <= total_pull (MultifillProblem._subtask_string problem)
       <= Z.of_nat (length (MultifillProblem._subtasks problem))
  /\ (exists s, init s = Ok (MultifillProblem._subtask_string problem))
  /\ (exists s, ScoreString.init s = Ok (MultifillProblem._score_string problem))
  /\ MultifillProblem._header problem = default "" (MultifillProblem.header content).
Proof.
  intros (Hbase & Hsubtasks & Htext & Hsub & Hbag & Hscore & Hheader)%MultifillProblem_init_Ok.
  destruct (choose_subtask_string_constructed _ _ _ Hsub) as [s Hs].
  destruct (init_pull_le_bag _ _ Hs) as [Hpull Hone].
  repeat split; try done; try lia; eauto using choose_score_string_constructed.
Qed.

Lemma MultifillProblem_invariant_witness :
  (fun _ _ => Ok tt) "p1"
    {| MultifillProblem.header := Some "Fill in";
       MultifillProblem.subtasks :=
         Some [ {| MultifillProblem.text := Some "a";
                   MultifillProblem.giveDetailedFeedback := None |};
                {| MultifillProblem.text := Some "b";
                   MultifillProblem.giveDetailedFeedback := Some true |} ];
       MultifillProblem.subtask_string := Some "1/2";
       MultifillProblem.score_string := None |} = Ok tt
  /\ Some [ {| MultifillProblem.text := Some "a";
               MultifillProblem.giveDetailedFeedback := None |};
            {| MultifillProblem.text := Some "b";
               MultifillProblem.giveDetailedFeedback := Some true |} ]
     = Some [ {| MultifillProblem.text := Some "a";
                 MultifillProblem.giveDetailedFeedback := None |};
              {| MultifillProblem.text := Some "b";
                 MultifillProblem.giveDetailedFeedback := Some true |} ]
  /\ Forall (fun subtask => is_Some (MultifillProblem.text subtask))
       [ {| MultifillProblem.text := Some "a";
            MultifillProblem.giveDetailedFeedback := None |};
         {| MultifillProblem.text := Some "b";
            MultifillProblem.giveDetailedFeedback := Some true |} ]
  /\ (1 <= 2)%nat
  /\ 2 = 2
  /\ 0 <= 1 <= 2
  /\ (exists s, init s = Ok (mk "1/2" 1 2 [[(1, 2)]]))
  /\ (exists s, ScoreString.init s = Ok (ScoreString.mk "0/2/2" 0 2 2))
  /\ "Fill in" = "Fill in".
Proof.
  apply (MultifillProblem_invariant (fun _ _ => Ok tt) "p1"
           {| MultifillProblem.header := Some "Fill in";
              MultifillProblem.subtasks :=
                Some [ {| MultifillProblem.text := Some "a";
                          MultifillProblem.giveDetailedFeedback := None |};
                       {| MultifillProblem.text := Some "b";
                          MultifillProblem.giveDetailedFeedback := Some true |} ];
              MultifillProblem.subtask_string := Some "1/2";
              MultifillProblem.score_string := None |}
           (MultifillProblem.mk "Fill in"
              [ {| MultifillProblem.text := Some "a";
                   MultifillProblem.giveDetailedFeedback := None |};
                {| MultifillProblem.text := Some "b";
                   MultifillProblem.giveDetailedFeedback := Some true |} ]
              (mk "1/2" 1 2 [[(1, 2)]]) (ScoreString.mk "0/2/2" 0 2 2))).
  reflexivity.
Defined.

(** X13.  The text check comes before the strings are read, and stops at
    the first subtask without a text: the error names its index,
    whatever the subtask string and the score string are. *)
Theorem MultifillProblem_missing_text (Problem_init : str -> MultifillProblem.Content -> result unit)
    (problemid : str) (content : MultifillProblem.Content)
    (subtasks : list MultifillProblem.Subtask) (i : nat) :
  Problem_init problemid content = Ok tt ->
  MultifillProblem.subtasks content = Some subtasks ->
  first_without_text subtasks i ->
  MultifillProblem.init Problem_init problemid content = Raise (MissingText i).
Proof.
  intros Hbase Hsubtasks Hi. unfold MultifillProblem.init.
  rewrite Hbase, Hsubtasks, result_bind_Ok. cbv zeta.
  by rewrite (check_text_loop_Raise _ _ Hi), result_bind_Raise.
Qed.

Lemma MultifillProblem_missing_text_witness :
  MultifillProblem.init (fun _ _ => Ok tt) "p1"
    {| MultifillProblem.header := None;
       MultifillProblem.subtasks :=
         Some [ {| MultifillProblem.text := Some "a";
                   MultifillProblem.giveDetailedFeedback := None |};
                {| MultifillProblem.text := None;
                   MultifillProblem.giveDetailedFeedback := None |};
                {| MultifillProblem.text := None;
                   MultifillProblem.giveDetailedFeedback := Some false |} ];
       MultifillProblem.subtask_string := Some "x";
       MultifillProblem.score_string := Some "y" |}
  = Raise (MissingText 1).
Proof.
  apply (MultifillProblem_missing_text (fun _ _ => Ok tt) "p1" _
           [ {| MultifillProblem.text := Some "a";
                MultifillProblem.giveDetailedFeedback := None |};
             {| MultifillProblem.text := None;
                MultifillProblem.giveDetailedFeedback := None |};
             {| MultifillProblem.text := None;
                MultifillProblem.giveDetailedFeedback := Some false |} ] 1%nat).
  - reflexivity.
  - reflexivity.
  - split.
    + eexists. split; reflexivity.
    + intros [|j] subtask Hj; [|lia]. intros [= <-]. by eexists.
Defined.

(** X14.  A problem without a single subtask is never constructed.  An
    empty list passes the check for subtasks; but the default subtask
    string of no subtask is the empty string, which the constructor of
    [SubtaskString] refuses, and a given subtask string has a total bag
    of at least one. *)
Theorem MultifillProblem_empty_refused (Problem_init : str -> MultifillProblem.Content -> result unit)
    (problemid : str) (content : MultifillProblem.Content) :
  MultifillProblem.subtasks content = Some [] ->
  ~ is_Ok (MultifillProblem.init Problem_init problemid content)
  /\ (Problem_init problemid content = Ok tt ->
      Py.strip (default "" (MultifillProblem.subtask_string content)) = "" ->
      MultifillProblem.init Problem_init problemid content
      = Raise (IllegalGroup "")).
Proof.
  intros Hsubtasks. split.
  - intros [problem Hinit].
    destruct (MultifillProblem_init_Ok _ _ _ _ Hinit)
      as (_ & Hsub & _ & Hchoose & Hbag & _).
    rewrite Hsubtasks in Hsub. injection Hsub as Hnil.
    destruct (choose_subtask_string_constructed _ _ _ Hchoose) as [s Hs].
    destruct (init_pull_le_bag _ _ Hs) as [_ Hone].
    rewrite <-Hnil in Hbag. simpl in Hbag. lia.
  - intros Hbase Hblank. unfold MultifillProblem.init.
    rewrite Hbase, Hsubtasks, result_bind_Ok. cbv zeta.
    change (imap pair (@nil MultifillProblem.Subtask))
      with (@nil (nat * MultifillProblem.Subtask)).
    rewrite for_each_nil, result_bind_Ok.
    unfold MultifillProblem.choose_subtask_string. by rewrite Hblank.
Qed.

Lemma MultifillProblem_empty_refused_witness :
  ~ is_Ok (MultifillProblem.init (fun _ _ => Ok tt) "p1"
             {| MultifillProblem.header := None;
                MultifillProblem.subtasks := Some [];
                MultifillProblem.subtask_string := Some " ";
                MultifillProblem.score_string := None |})
  /\ MultifillProblem.init (fun _ _ => Ok tt) "p1"
        {| MultifillProblem.header := None;
           MultifillProblem.subtasks := Some [];
           MultifillProblem.subtask_string := Some " ";
           MultifillProblem.score_string := None |}
     = Raise (IllegalGroup "").
Proof.
  destruct (MultifillProblem_empty_refused (fun _ _ => Ok tt) "p1"
              {| MultifillProblem.header := None;
                 MultifillProblem.subtasks := Some [];
                 MultifillProblem.subtask_string := Some " ";
                 MultifillProblem.score_string := None |} eq_refl)
    as [Hnot Hraise].
  split; [exact Hnot|]. apply Hraise; reflexivity.
Defined.
(** X15.  A content with at least one subtask, a text for each, and no
    subtask string and no score string (or blank ones) is always
    accepted, with the default strings: every subtask is shown, one point
    for each. *)
Theorem MultifillProblem_defaults (Problem_init : str -> MultifillProblem.Content -> result unit)
    (problemid : str) (content : MultifillProblem.Content)
    (subtasks : list MultifillProblem.Subtask) :
  Problem_init problemid content = Ok tt ->
  MultifillProblem.subtasks content = Some subtasks ->
  subtasks <> [] ->
  Forall (fun subtask => is_Some (MultifillProblem.text subtask)) subtasks ->
  Py.strip (default "" (MultifillProblem.subtask_string content)) = "" ->
  Py.strip (default "" (MultifillProblem.score_string content)) = "" ->
  (String.length (Py.str_of_nat (length subtasks)) <= Py.int_max_str_digits)%nat ->
  MultifillProblem.init Problem_init problemid content
  = Ok (MultifillProblem.mk
          (default "" (MultifillProblem.header content)) subtasks
          (mk (Py.join ";" (replicate (length subtasks) "1"))
              (Z.of_nat (length subtasks)) (Z.of_nat (length subtasks))
              (replicate (length subtasks) [(1, 1)]))
          (ScoreString.mk
             ("0/" +:+ Py.str_of_nat (length subtasks) +:+ "/"
                   +:+ Py.str_of_nat (length subtasks))
             0 (Z.of_nat (length subtasks)) (Z.of_nat (length subtasks)))).
Proof.
  intros Hbase Hsubtasks Hne Htext Hsub Hscore Hdigits.
  set (n := length subtasks) in *.
  unfold MultifillProblem.init.
  rewrite Hbase, Hsubtasks, result_bind_Ok. cbv zeta.
  rewrite (check_text_loop _ Htext), result_bind_Ok.
  unfold MultifillProblem.choose_subtask_string, MultifillProblem.choose_score_string.
  rewrite Hsub, Hscore. simpl negb. cbv iota.
  unfold default_for_subtasks, ScoreString.default_for_subtasks. cbv zeta. fold n.
  assert (exists m, n = S m) as [m Hm].
  { subst n. destruct subtasks; [done|]. by eexists. }
  rewrite Hm at 1. rewrite init_ones, <-Hm, result_bind_Ok.
  unfold get_total_bag_size. simpl total_bag. rewrite Z.eqb_refl. simpl negb. cbv iota.
  rewrite init_score_default.
  destruct (Nat.leb_spec (String.length (Py.str_of_nat n)) Py.int_max_str_digits);
    [|lia].
  by rewrite result_bind_Ok.
Qed.

Lemma MultifillProblem_defaults_witness :
  MultifillProblem.init (fun _ _ => Ok tt) "p1"
    {| MultifillProblem.header := None;
       MultifillProblem.subtasks :=
         Some [ {| MultifillProblem.text := Some "a";
                   MultifillProblem.giveDetailedFeedback := None |};
                {| MultifillProblem.text := Some "b";
                   MultifillProblem.giveDetailedFeedback := None |} ];
       MultifillProblem.subtask_string := None;
       MultifillProblem.score_string := Some " " |}
  = Ok (MultifillProblem.mk ""
          [ {| MultifillProblem.text := Some "a";
               MultifillProblem.giveDetailedFeedback := None |};
            {| MultifillProblem.text := Some "b";
               MultifillProblem.giveDetailedFeedback := None |} ]
          (mk "1;1" 2 2 [[(1, 1)]; [(1, 1)]])
          (ScoreString.mk "0/2/2" 0 2 2)).
Proof.
  apply (MultifillProblem_defaults (fun _ _ => Ok tt) "p1"
           {| MultifillProblem.header := None;
              MultifillProblem.subtasks :=
                Some [ {| MultifillProblem.text := Some "a";
                          MultifillProblem.giveDetailedFeedback := None |};
                       {| MultifillProblem.text := Some "b";
                          MultifillProblem.giveDetailedFeedback := None |} ];
              MultifillProblem.subtask_string := None;
              MultifillProblem.score_string := Some " " |}
           [ {| MultifillProblem.text := Some "a";
                MultifillProblem.giveDetailedFeedback := None |};
             {| MultifillProblem.text := Some "b";
                MultifillProblem.giveDetailedFeedback := None |} ]).
  - reflexivity.
  - reflexivity.
  - discriminate.
  - repeat constructor; by eexists.
  - reflexivity.
  - reflexivity.
  - vm_compute. lia.
Defined.

(** ** [parse_problem] *)

Example parse_problem_examples :
  ParseProblem.parse_problem unit (fun content => content)
    {| ParseProblem.subtasks :=
         Some [ ("10", {[ "text" := "c" ]});
                ("9", {[ "text" := "b"; "giveDetailedFeedback" := "On" ]});
                (" 1", ∅) ];
       ParseProblem.rest := tt |}
  = Return
      {| ParseProblem.parsed_subtasks :=
           Some [ {[ "text" := ParseProblem.Str "";
                     "giveDetailedFeedback" := ParseProblem.Bool false ]};
                  {[ "text" := ParseProblem.Str "b";
                     "giveDetailedFeedback" := ParseProblem.Bool true ]};
                  {[ "text" := ParseProblem.Str "c";
                     "giveDetailedFeedback" := ParseProblem.Bool false ]} ];
         ParseProblem.parsed_rest := tt |}
  /\ ParseProblem.parse_problem unit (fun content => content)
       {| ParseProblem.subtasks := Some [ ("1", ∅); ("one", ∅); ("", ∅) ];
          ParseProblem.rest := tt |}
     = Throw (ParseProblem.IntValueError "one")
  /\ ParseProblem.parse_problem unit (fun content => content)
       {| ParseProblem.subtasks :=
            Some [ ("1", {[ "text" := "a" ]}); ("01", {[ "text" := "b" ]}) ];
          ParseProblem.rest := tt |}
     = Throw ParseProblem.NotOrdered
  /\ ParseProblem.parse_problem unit (fun content => content)
       {| ParseProblem.subtasks := None; ParseProblem.rest := tt |}
     = Return
         {| ParseProblem.parsed_subtasks := None; ParseProblem.parsed_rest := tt |}.
Proof. repeat split; by vm_compute. Qed.

#[global] Instance key_le_trans : Transitive ParseProblem.key_le.
Proof. unfold ParseProblem.key_le. intros x y z. lia. Qed.

#[global] Instance key_le_total : Total ParseProblem.key_le.
Proof. unfold ParseProblem.key_le. intros x y. lia. Qed.

Section parse_problem.
Import ParseProblem.

Lemma int_keys_Return items keyed :
  int_keys items = Return keyed <-> Forall2 reads items keyed.
Proof.
  revert keyed. induction items as [|[key value] items IH]; intros keyed; simpl.
  - split; [intros [= <-]; constructor|by intros ->%Forall2_nil_inv_l].
  - destruct (Py.int key) as [k|] eqn:Hkey.
    + destruct (int_keys items) as [rest|e] eqn:Hrest.
      * split.
        -- intros [= <-]. constructor; [done|]. by apply IH.
        -- intros ([k' value'] & rest' & [Hk Hv] & Hrest' & ->)%Forall2_cons_inv_l.
           simpl in *. apply IH in Hrest'. congruence.
      * split; [done|].
        intros (? & rest' & _ & Hrest' & ->)%Forall2_cons_inv_l.
        by apply IH in Hrest'.
    + split; [done|].
      intros ([k' value'] & rest' & [Hk _] & _)%Forall2_cons_inv_l.
      simpl in *. congruence.
Qed.

Lemma int_keys_Throw pre key value post :
  Forall (fun item => is_Some (Py.int item.1)) pre ->
  Py.int key = None ->
  int_keys (pre ++ (key, value) :: post) = Throw (IntValueError key).
Proof.
  intros Hpre Hkey. induction Hpre as [|[k v] pre [z Hz] _ IH]; simpl.
  - by rewrite Hkey.
  - simpl in Hz. by rewrite Hz, IH.
Qed.

Lemma sort_Return subtasks :
  (forall x y, x ∈ subtasks -> y ∈ subtasks -> x.1 = y.1 -> x.2 = y.2) ->
  sort subtasks = Return (merge_sort key_le subtasks).
Proof.
  intros Hties. unfold sort. case_decide as Hex; [|done].
  apply Exists_exists in Hex as (x & Hx & (y & Hy & Hkey & Hne)%Exists_exists).
  destruct Hne. by apply Hties.
Qed.

Lemma sort_Throw subtasks x y :
  x ∈ subtasks -> y ∈ subtasks -> unordered x y -> sort subtasks = Throw NotOrdered.
Proof.
  intros Hx Hy Hxy. unfold sort. case_decide as Hex; [done|].
  destruct Hex. apply Exists_exists. exists x. split; [done|].
  apply Exists_exists. by exists y.
Qed.

Lemma parse_subtask_text subtask :
  parse_subtask subtask !! "text" = Some (Str (default "" (subtask !! "text"))).
Proof.
  unfold parse_subtask. rewrite lookup_insert_ne by done.
  case_decide as Htext.
  - destruct Htext as [text Htext]. rewrite Htext.
    rewrite lookup_fmap in Htext. by destruct (subtask !! "text"); simplify_eq/=.
  - rewrite lookup_insert_eq. rewrite lookup_fmap in Htext.
    destruct (subtask !! "text"); [|done]. destruct Htext. by eexists.
Qed.

Lemma parse_subtask_feedback subtask :
  parse_subtask subtask !! "giveDetailedFeedback"
  = Some (Bool (bool_decide
                  (lower (default "off" (subtask !! "giveDetailedFeedback"))
                   ∈ ["on"; "true"]))).
Proof. unfold parse_subtask. by rewrite lookup_insert_eq. Qed.

Lemma parse_subtask_other subtask key :
  key <> "text" -> key <> "giveDetailedFeedback" ->
  parse_subtask subtask !! key = Str <$> subtask !! key.
Proof.
  intros Htext Hfeedback. unfold parse_subtask.
  rewrite lookup_insert_ne by done. case_decide.
  - by rewrite lookup_fmap.
  - by rewrite lookup_insert_ne, lookup_fmap by done.
Qed.

Lemma parse_subtask_well_formed subtask : well_formed (parse_subtask subtask).
Proof.
  split; eexists; [apply parse_subtask_text|apply parse_subtask_feedback].
Qed.
End parse_problem.

(** X16.  The subtasks come out in the order of their keys as integers
    (["9"] before ["10"]), whatever the order of the dict: when every key
    reads as an integer and no two subtasks that are not equal have the
    same integer, the result lists the parsed subtasks by increasing key;
    and the outcome does not depend on how the sort breaks ties, because
    there is one arrangement in order. *)
Theorem parse_problem_sorted (Rest : Type)
    (Problem_parse_problem : ParseProblem.Content Rest -> ParseProblem.Content Rest)
    (problem_content : ParseProblem.Content Rest)
    (items : list (str * gmap str str)) (keyed : list (Z * gmap str str)) :
  ParseProblem.subtasks (Problem_parse_problem problem_content) = Some items ->
  Forall2 reads items keyed ->
  (forall x y, x ∈ keyed -> y ∈ keyed -> x.1 = y.1 -> x.2 = y.2) ->
  exists sorted,
    sorted ≡ₚ keyed
    /\ StronglySorted ParseProblem.key_le sorted
    /\ (forall sorted', sorted' ≡ₚ keyed -> Sorted ParseProblem.key_le sorted' ->
                        sorted' = sorted)
    /\ ParseProblem.parse_problem Rest Problem_parse_problem problem_content
       = Return
           {| ParseProblem.parsed_subtasks :=
                Some (ParseProblem.parse_subtask <$> (snd <$> sorted));
              ParseProblem.parsed_rest :=
                ParseProblem.rest (Problem_parse_problem problem_content) |}.
Proof.
  intros Hitems Hkeyed Hties.
  exists (merge_sort ParseProblem.key_le keyed).
  pose proof (merge_sort_Permutation ParseProblem.key_le keyed) as Hperm.
  split; [done|]. split; [apply (StronglySorted_merge_sort _)|]. split.
  - intros sorted' Hperm' Hsorted'.
    apply (Sorted_unique_strong ParseProblem.key_le); [|done| |by rewrite Hperm].
    + intros [k1 v1] [k2 v2] H1 H2 Hle Hge.
      rewrite Hperm' in H1. rewrite Hperm in H2.
      unfold ParseProblem.key_le in *. simpl in *.
      assert (k1 = k2) as -> by lia.
      f_equal. by apply (Hties (k2, v1) (k2, v2)).
    + apply (Sorted_merge_sort _).
  - unfold ParseProblem.parse_problem. cbv zeta. rewrite Hitems.
    apply int_keys_Return in Hkeyed as ->.
    change (Return keyed ≫= ?f) with (f keyed). cbv beta.
    by rewrite (sort_Return _ Hties).
Qed.

Lemma parse_problem_sorted_witness :
  exists sorted,
    sorted ≡ₚ [(10, {[ "text" := "c" ]}); (9, {[ "text" := "b" ]}); (1, ∅)]
    /\ StronglySorted ParseProblem.key_le sorted
    /\ (forall sorted',
          sorted' ≡ₚ [(10, {[ "text" := "c" ]}); (9, {[ "text" := "b" ]}); (1, ∅)] ->
          Sorted ParseProblem.key_le sorted' -> sorted' = sorted)
    /\ ParseProblem.parse_problem unit (fun content => content)
         {| ParseProblem.subtasks :=
              Some [ ("10", {[ "text" := "c" ]}); ("9", {[ "text" := "b" ]});
                     (" 1", ∅) ];
            ParseProblem.rest := tt |}
       = Return
           {| ParseProblem.parsed_subtasks :=
                Some (ParseProblem.parse_subtask <$> (snd <$> sorted));
              ParseProblem.parsed_rest := tt |}.
Proof.
  apply (parse_problem_sorted unit (fun content => content)
           {| ParseProblem.subtasks :=
                Some [ ("10", {[ "text" := "c" ]}); ("9", {[ "text" := "b" ]});
                       (" 1", ∅) ];
              ParseProblem.rest := tt |}
           [ ("10", {[ "text" := "c" ]}); ("9", {[ "text" := "b" ]}); (" 1", ∅) ]
           [ (10, {[ "text" := "c" ]}); (9, {[ "text" := "b" ]}); (1, ∅) ]).
  - reflexivity.
  - repeat constructor.
  - intros x y Hx Hy.
    repeat (apply elem_of_cons in Hx as [->|Hx]);
      repeat (apply elem_of_cons in Hy as [->|Hy]);
      try (by apply elem_of_nil in Hx); try (by apply elem_of_nil in Hy);
      simpl; intros; done || lia.
Defined.

(** X17.  The errors of [parse_problem].  A key that does not read as an
    integer gives the [ValueError] of [int], for the first such key in
    the order of the dict.  When all keys read, two subtasks that are not
    equal under keys with the same integer (as ["1"] and ["01"]) give the
    [TypeError] of the sort, which compares the dicts. *)
Theorem parse_problem_errors (Rest : Type)
    (Problem_parse_problem : ParseProblem.Content Rest -> ParseProblem.Content Rest)
    (problem_content : ParseProblem.Content Rest)
    (items : list (str * gmap str str)) :
  ParseProblem.subtasks (Problem_parse_problem problem_content) = Some items ->
  (forall pre key value post,
     items = pre ++ (key, value) :: post ->
     Forall (fun item => is_Some (Py.int item.1)) pre ->
     Py.int key = None ->
     ParseProblem.parse_problem Rest Problem_parse_problem problem_content
     = Throw (ParseProblem.IntValueError key))
  /\ (forall keyed x y,
        Forall2 reads items keyed ->
        x ∈ keyed -> y ∈ keyed -> x.1 = y.1 -> x.2 <> y.2 ->
        ParseProblem.parse_problem Rest Problem_parse_problem problem_content
        = Throw ParseProblem.NotOrdered).
Proof.
  intros Hitems. unfold ParseProblem.parse_problem. cbv zeta. rewrite Hitems.
  split.
  - intros pre key value post -> Hpre Hkey. by rewrite int_keys_Throw.
  - intros keyed x y Hkeyed Hx Hy Hkey Hne.
    apply int_keys_Return in Hkeyed as ->.
    change (Return keyed ≫= ?f) with (f keyed). cbv beta.
    by rewrite (sort_Throw keyed x y).
Qed.

Lemma parse_problem_errors_witness :
  ParseProblem.parse_problem unit (fun content => content)
    {| ParseProblem.subtasks := Some [ ("1", ∅); ("0x2", ∅); ("", ∅) ];
       ParseProblem.rest := tt |}
  = Throw (ParseProblem.IntValueError "0x2")
  /\ ParseProblem.parse_problem unit (fun content => content)
       {| ParseProblem.subtasks :=
            Some [ ("1", {[ "text" := "a" ]}); ("2", ∅); ("+1", {[ "text" := "b" ]}) ];
          ParseProblem.rest := tt |}
     = Throw ParseProblem.NotOrdered.
Proof.
  split.
  - apply (proj1 (parse_problem_errors unit (fun content => content)
                    {| ParseProblem.subtasks := Some [ ("1", ∅); ("0x2", ∅); ("", ∅) ];
                       ParseProblem.rest := tt |}
                    [ ("1", ∅); ("0x2", ∅); ("", ∅) ] eq_refl)
             [ ("1", ∅) ] "0x2" ∅ [ ("", ∅) ]).
    + reflexivity.
    + repeat constructor. by eexists.
    + reflexivity.
  - apply (proj2 (parse_problem_errors unit (fun content => content)
                    {| ParseProblem.subtasks :=
                         Some [ ("1", {[ "text" := "a" ]}); ("2", ∅);
                                ("+1", {[ "text" := "b" ]}) ];
                       ParseProblem.rest := tt |}
                    [ ("1", {[ "text" := "a" ]}); ("2", ∅);
                      ("+1", {[ "text" := "b" ]}) ] eq_refl)
             [ (1, {[ "text" := "a" ]}); (2, ∅); (1, {[ "text" := "b" ]}) ]
             (1, {[ "text" := "a" ]}) (1, {[ "text" := "b" ]})).
    + repeat constructor.
    + apply list_elem_of_here.
    + do 2 apply list_elem_of_further. apply list_elem_of_here.
    + reflexivity.
    + simpl. intros Heq.
      apply (f_equal (fun m : gmap str str => m !! "text")) in Heq.
      by vm_compute in Heq.
Defined.

(** X18.  What [parse_problem] returns.  The subtasks are there exactly
    when the content has them, as many as the dict has items, and the
    rest of the content is as the base class left it.  Every subtask has
    a text and a boolean for the feedback. *)
Theorem parse_problem_well_formed (Rest : Type)
    (Problem_parse_problem : ParseProblem.Content Rest -> ParseProblem.Content Rest)
    (problem_content : ParseProblem.Content Rest)
    (parsed : ParseProblem.Parsed Rest) :
  ParseProblem.parse_problem Rest Problem_parse_problem problem_content
  = Return parsed ->
  ParseProblem.parsed_rest parsed
  = ParseProblem.rest (Problem_parse_problem problem_content)
  /\ match ParseProblem.subtasks (Problem_parse_problem problem_content) with
     | None => ParseProblem.parsed_subtasks parsed = None
     | Some items =>
         exists subtasks,
           ParseProblem.parsed_subtasks parsed = Some subtasks
           /\ length subtasks = length items
           /\ Forall well_formed subtasks
     end.
Proof.
  unfold ParseProblem.parse_problem. cbv zeta.
  destruct (ParseProblem.subtasks (Problem_parse_problem problem_content))
    as [items|]; [|by intros [= <-]].
  destruct (ParseProblem.int_keys items) as [keyed|e] eqn:Hkeyed; [|done].
  change (Return keyed ≫= ?f) with (f keyed). cbv beta.
  unfold ParseProblem.sort. case_decide; [done|].
  intros [= <-]. simpl. split; [done|]. eexists. split; [done|]. split.
  - rewrite !length_fmap, merge_sort_Permutation.
    apply int_keys_Return in Hkeyed. symmetry. by eapply Forall2_length.
  - apply Forall_fmap, Forall_forall. intros subtask _.
    apply parse_subtask_well_formed.
Qed.

Lemma parse_problem_well_formed_witness :
  tt = tt
  /\ exists subtasks,
       Some [ {[ "text" := ParseProblem.Str "";
                 "giveDetailedFeedback" := ParseProblem.Bool true ]};
              {[ "text" := ParseProblem.Str "b";
                 "giveDetailedFeedback" := ParseProblem.Bool false ]} ]
       = Some subtasks
       /\ length subtasks = 2%nat
       /\ Forall well_formed subtasks.
Proof.
  apply (parse_problem_well_formed unit (fun content => content)
           {| ParseProblem.subtasks :=
                Some [ ("2", {[ "text" := "b" ]});
                       ("1", {[ "giveDetailedFeedback" := "TRUE" ]}) ];
              ParseProblem.rest := tt |}
           {| ParseProblem.parsed_subtasks :=
                Some [ {[ "text" := ParseProblem.Str "";
                          "giveDetailedFeedback" := ParseProblem.Bool true ]};
                       {[ "text" := ParseProblem.Str "b";
                          "giveDetailedFeedback" := ParseProblem.Bool false ]} ];
              ParseProblem.parsed_rest := tt |}).
  by vm_compute.
Defined.

(** ** The input roles *)

Section roles.
Import DisplayableMultifillProblem.

Example role_text_examples :
  role_text "2 + 2 = :input:`type=text` ok"
  = role_prefix +:+ "2 + 2 = " +:+ INPUT_TEXT +:+ " ok"
  /\ role_text "tick :input:`a;type=check;b`!"
     = role_prefix +:+ "tick " +:+ INPUT_CHECK +:+ "!"
  /\ role_text ":input:`x :input:`type=check`"
     = role_prefix +:+ INPUT_TEXT +:+ check_html +:+ "`"
  /\ role_text "no ``role`` here :input:" = role_prefix +:+ "no ``role`` here :input:"
  /\ role_text ":input:`open" = role_prefix +:+ ":input:`open"
  /\ String.length INPUT_CHECK = 116%nat /\ String.length INPUT_TEXT = 108%nat.
Proof. repeat split; by vm_compute. Qed.

Lemma append_cons (x : ascii) (a b : str) : String x a +:+ b = String x (a +:+ b).
Proof. done. Qed.

Lemma append_assoc (a b c : str) : (a +:+ b) +:+ c = a +:+ (b +:+ c).
Proof.
  induction a as [|x a IH]; [done|]. rewrite !append_cons. by f_equal.
Qed.

Lemma length_append (a b : str) :
  String.length (a +:+ b) = (String.length a + String.length b)%nat.
Proof.
  induction a as [|x a IH]; [done|]. rewrite append_cons. simpl. by f_equal.
Qed.

Lemma starts_with_Some prefix s rest :
  starts_with prefix s = Some rest <-> s = prefix +:+ rest.
Proof.
  revert s. induction prefix as [|a prefix IH]; intros s; simpl.
  - split; [by intros [= ->]|by intros ->].
  - destruct s as [|b s]; [done|].
    destruct (Ascii.eqb_spec a b) as [->|Hne].
    + rewrite IH. split; [by intros ->|by intros [= ->]].
    + split; [done|]. intros [= -> _]. done.
Qed.

Lemma contains_tick_app (a b : str) :
  Py.contains "`" (a +:+ b) = Py.contains "`" a || Py.contains "`" b.
Proof. apply contains_app. Qed.

(** The first backtick of a string is where it is. *)
Lemma until_tick_app (a rest : str) :
  Py.contains "`" a = false -> until_tick (a +:+ "`" +:+ rest) = Some (a, rest).
Proof.
  induction a as [|c a IH]; simpl; [done|].
  intros [Hc Ha]%orb_false_iff. rewrite Hc, (IH Ha). done.
Qed.

Lemma until_tick_None (s : str) :
  Py.contains "`" s = false -> until_tick s = None.
Proof.
  induction s as [|c s IH]; simpl; [done|].
  intros [Hc Hs]%orb_false_iff. by rewrite Hc, (IH Hs).
Qed.

Lemma tick_inj (a b r1 r2 : str) :
  Py.contains "`" a = false -> Py.contains "`" b = false ->
  a +:+ "`" +:+ r1 = b +:+ "`" +:+ r2 -> a = b /\ r1 = r2.
Proof.
  intros Ha Hb Heq. pose proof (until_tick_app a r1 Ha) as H1.
  rewrite Heq, (until_tick_app b r2 Hb) in H1. by simplify_eq.
Qed.

(** The pattern at a string with a first backtick: it matches when the
    opening of a role is all there is before this backtick, another
    backtick follows, and, for check boxes, [type=check] is in between. *)
Lemma input_role_tick (check : bool) (x rest : str) :
  Py.contains "`" x = false ->
  input_role check (x +:+ "`" +:+ rest)
  = if String.eqb x ":input:" then
      match until_tick rest with
      | Some (body, _) =>
          if negb check || contains_str "type=check" body
          then Some (8 + String.length body + 1)%nat else None
      | None => None
      end
    else None.
Proof.
  intros Hx. unfold input_role.
  destruct (starts_with ":input:`" (x +:+ "`" +:+ rest)) as [rest'|] eqn:Hstart.
  - apply starts_with_Some in Hstart.
    change (":input:`" +:+ rest') with (":input:" +:+ "`" +:+ rest') in Hstart.
    apply tick_inj in Hstart as [-> ->]; done.
  - destruct (String.eqb_spec x ":input:") as [->|Hne]; [|done].
    assert (starts_with ":input:`" (":input:" +:+ "`" +:+ rest) = Some rest) as Hsome
      by by apply starts_with_Some.
    congruence.
Qed.

Lemma input_role_no_tick (check : bool) (s : str) :
  Py.contains "`" s = false -> input_role check s = None.
Proof.
  intros Hs. unfold input_role.
  destruct (starts_with ":input:`" s) as [rest|] eqn:Hstart; [|done].
  apply starts_with_Some in Hstart as ->. done.
Qed.

(** A text without a backtick stays. *)
Lemma sub_roles_no_tick (check : bool) (repl s : str) :
  Py.contains "`" s = false -> sub_roles check repl 0 s = s.
Proof.
  induction s as [|c s IH]; [done|]. intros Hs.
  cbn [sub_roles]. rewrite (input_role_no_tick _ _ Hs).
  simpl in Hs. apply orb_false_iff in Hs as [_ Hs]. by rewrite IH.
Qed.

(** The characters of a match are passed. *)
Lemma sub_roles_skip (check : bool) (repl a s : str) :
  sub_roles check repl (String.length a) (a +:+ s) = sub_roles check repl 0 s.
Proof. induction a as [|c a IH]; simpl; [by destruct s|done]. Qed.

(** What is before a backtick stays, when it does not end with the
    opening of a role, or when no other backtick follows. *)
Lemma sub_roles_tick (check : bool) (repl x rest : str) :
  Py.contains "`" x = false ->
  ends_with_input x = false \/ Py.contains "`" rest = false ->
  sub_roles check repl 0 (x +:+ "`" +:+ rest)
  = x +:+ "`" +:+ sub_roles check repl 0 rest.
Proof.
  intros Hx Hend.
  assert (forall y, Py.contains "`" y = false ->
                    ends_with_input y = false \/ Py.contains "`" rest = false ->
                    input_role check (y +:+ "`" +:+ rest) = None) as Hnone.
  { intros y Hy Hy'. rewrite input_role_tick by done.
    destruct (String.eqb y ":input:") eqn:Heq; [|done].
    destruct Hy' as [Hy'|Hrest].
    - assert (ends_with_input y = true) as Hends; [|congruence].
      destruct y; cbn [ends_with_input]; by rewrite Heq.
    - by rewrite until_tick_None. }
  induction x as [|c x IH].
  - pose proof (Hnone "" eq_refl Hend) as Hhere.
    change ("" +:+ "`" +:+ rest) with (String "`"%char rest) in *.
    cbn [sub_roles]. by rewrite Hhere.
  - change (String c x +:+ "`" +:+ rest) with (String c (x +:+ "`" +:+ rest)).
    cbn [sub_roles].
    change (String c (x +:+ "`" +:+ rest)) with (String c x +:+ "`" +:+ rest).
    rewrite (Hnone _ Hx Hend). simpl in Hx. apply orb_false_iff in Hx as [_ Hx].
    rewrite IH; [done|done|].
    destruct Hend as [Hend|?]; [left|by right].
    cbn [ends_with_input] in Hend. by apply orb_false_iff in Hend as [_ ?].
Qed.

(** What is before a role stays. *)
Lemma sub_roles_before (check : bool) (repl pre rest : str) :
  Py.contains "`" pre = false ->
  sub_roles check repl 0 (pre +:+ ":input:`" +:+ rest)
  = pre +:+ sub_roles check repl 0 (":input:`" +:+ rest).
Proof.
  intros Hpre. induction pre as [|c pre IH]; [done|].
  change (String c pre +:+ ":input:`" +:+ rest)
    with (String c (pre +:+ ":input:`" +:+ rest)).
  cbn [sub_roles].
  assert (String c (pre +:+ ":input:`" +:+ rest)
          = (String c pre +:+ ":input:") +:+ "`" +:+ rest) as ->.
  { by rewrite append_assoc. }
  rewrite input_role_tick by (by rewrite contains_tick_app, Hpre).
  destruct (String.eqb_spec (String c pre +:+ ":input:") ":input:") as [Heq|_].
  { apply (f_equal String.length) in Heq.
    rewrite length_append in Heq. simpl in Heq. lia. }
  simpl in Hpre. apply orb_false_iff in Hpre as [_ Hpre].
  rewrite (append_cons c pre). f_equal. by apply IH.
Qed.

(** A role that the pattern matches gives the replacement. *)
Lemma sub_roles_match (check : bool) (repl body rest : str) :
  Py.contains "`" body = false ->
  negb check || contains_str "type=check" body = true ->
  sub_roles check repl 0 (":input:`" +:+ body +:+ "`" +:+ rest)
  = repl +:+ sub_roles check repl 0 rest.
Proof.
  intros Hbody Hok.
  change (":input:`" +:+ body +:+ "`" +:+ rest)
    with (String ":"%char ("input:`" +:+ body +:+ "`" +:+ rest)).
  cbn [sub_roles].
  change (String ":"%char ("input:`" +:+ body +:+ "`" +:+ rest))
    with (":input:" +:+ "`" +:+ (body +:+ "`" +:+ rest)).
  rewrite input_role_tick by done. simpl String.eqb. cbv iota.
  rewrite until_tick_app by done. rewrite Hok. f_equal.
  assert ("input:`" +:+ body +:+ "`" +:+ rest = ("input:`" +:+ body +:+ "`") +:+ rest)
    as ->.
  { by rewrite !append_assoc. }
  replace (8 + String.length body + 1 - 1)%nat
    with (String.length ("input:`" +:+ body +:+ "`")).
  - apply sub_roles_skip.
  - rewrite !length_append. simpl. lia.
Qed.

(** A role that the first pattern does not match stays, when no other
    backtick follows. *)
Lemma sub_roles_no_check (repl body rest : str) :
  Py.contains "`" body = false -> Py.contains "`" rest = false ->
  contains_str "type=check" body = false ->
  sub_roles true repl 0 (":input:`" +:+ body +:+ "`" +:+ rest)
  = ":input:`" +:+ body +:+ "`" +:+ rest.
Proof.
  intros Hbody Hrest Hno.
  change (":input:`" +:+ body +:+ "`" +:+ rest)
    with (String ":"%char ("input:`" +:+ body +:+ "`" +:+ rest)) at 1.
  cbn [sub_roles].
  change (String ":"%char ("input:`" +:+ body +:+ "`" +:+ rest))
    with (":input:" +:+ "`" +:+ (body +:+ "`" +:+ rest)).
  rewrite input_role_tick by done. simpl String.eqb. cbv iota.
  rewrite until_tick_app by done. simpl negb. rewrite Hno. simpl orb. cbv iota.
  change ("input:`" +:+ body +:+ "`" +:+ rest)
    with ("input:" +:+ "`" +:+ (body +:+ "`" +:+ rest)).
  rewrite sub_roles_tick by (done || by left).
  rewrite sub_roles_tick by (done || by right).
  by rewrite sub_roles_no_tick.
Qed.

Lemma ends_with_input_app (pre : str) :
  ends_with_input (pre +:+ ":raw-html:") = false.
Proof.
  induction pre as [|c pre IH]; [done|].
  rewrite append_cons. cbn [ends_with_input]. rewrite IH, orb_false_r.
  destruct (String.eqb_spec (String c (pre +:+ ":raw-html:")) ":input:") as [Heq|]; [|done].
  apply (f_equal String.length) in Heq. simpl in Heq.
  rewrite length_append in Heq. simpl in Heq. lia.
Qed.

(** The role of raw html that a replacement puts is no input role: it
    stays. *)
Lemma sub_roles_raw_html (check : bool) (repl pre html rest : str) :
  Py.contains "`" pre = false -> Py.contains "`" html = false ->
  ends_with_input html = false ->
  sub_roles check repl 0 (pre +:+ (":raw-html:`" +:+ html +:+ "`") +:+ rest)
  = pre +:+ (":raw-html:`" +:+ html +:+ "`") +:+ sub_roles check repl 0 rest.
Proof.
  intros Hpre Hhtml Hend.
  assert (forall tail, pre +:+ (":raw-html:`" +:+ html +:+ "`") +:+ tail
                       = (pre +:+ ":raw-html:") +:+ "`" +:+ (html +:+ "`" +:+ tail))
    as Hshape.
  { intros tail. by rewrite !append_assoc. }
  rewrite !Hshape.
  rewrite sub_roles_tick;
    [|by rewrite contains_tick_app, Hpre|left; apply ends_with_input_app].
  by rewrite sub_roles_tick by (done || by left).
Qed.
End roles.

(** X19.  A text without the opening of an input role goes through as it
    is, after the definition of the raw-html role: its backticks, and an
    [:input:] without one, are left alone. *)
Theorem role_text_plain (subtask_text : str) :
  DisplayableMultifillProblem.contains_str ":input:`" subtask_text = false ->
  DisplayableMultifillProblem.role_text subtask_text
  = DisplayableMultifillProblem.role_prefix +:+ subtask_text.
Proof.
  intros Hplain.
  assert (forall check repl,
            DisplayableMultifillProblem.sub_roles check repl 0 subtask_text
            = subtask_text) as Hsub.
  { intros check repl. induction subtask_text as [|c s IH]; [done|].
    cbn [DisplayableMultifillProblem.sub_roles].
    unfold DisplayableMultifillProblem.input_role.
    cbn [DisplayableMultifillProblem.contains_str] in Hplain.
    destruct (DisplayableMultifillProblem.starts_with ":input:`" (String c s));
      [done|].
    simpl. by rewrite IH. }
  unfold DisplayableMultifillProblem.role_text. by rewrite !Hsub.
Qed.

Lemma role_text_plain_witness :
  DisplayableMultifillProblem.role_text "see ``x`` in :input: above"
  = DisplayableMultifillProblem.role_prefix +:+ "see ``x`` in :input: above".
Proof. apply (role_text_plain "see ``x`` in :input: above"). reflexivity. Defined.

(** X20.  An input role between texts without backticks becomes a check
    box when [type=check] is in it, and a text box otherwise: the check
    boxes are replaced first, and what replaces them is left alone by the
    second substitution, which would have matched them. *)
Theorem role_text_single (pre body post : str) :
  Py.contains "`" pre = false ->
  Py.contains "`" body = false ->
  Py.contains "`" post = false ->
  DisplayableMultifillProblem.role_text
    (pre +:+ ":input:`" +:+ body +:+ "`" +:+ post)
  = DisplayableMultifillProblem.role_prefix +:+ pre
    +:+ (if DisplayableMultifillProblem.contains_str "type=check" body
         then DisplayableMultifillProblem.INPUT_CHECK
         else DisplayableMultifillProblem.INPUT_TEXT)
    +:+ post.
Proof.
  intros Hpre Hbody Hpost. unfold DisplayableMultifillProblem.role_text. cbv zeta.
  f_equal. rewrite sub_roles_before by done.
  destruct (DisplayableMultifillProblem.contains_str "type=check" body) eqn:Hcheck.
  - (* a check box: replaced at once, and then left alone *)
    rewrite (sub_roles_match true _ body post Hbody) by (by rewrite Hcheck).
    rewrite (sub_roles_no_tick true _ post Hpost).
    change DisplayableMultifillProblem.INPUT_CHECK
      with (":raw-html:`" +:+ check_html +:+ "`").
    rewrite (sub_roles_raw_html false _ pre check_html post) by done.
    by rewrite (sub_roles_no_tick false _ post Hpost).
  - (* no check box: left alone at first, and then replaced *)
    rewrite sub_roles_no_check by done.
    rewrite sub_roles_before by done.
    rewrite (sub_roles_match false _ body post Hbody) by done.
    by rewrite (sub_roles_no_tick false _ post Hpost).
Qed.

Lemma role_text_single_witness :
  DisplayableMultifillProblem.role_text ("Tick: " +:+ ":input:`" +:+ "type=check" +:+ "`" +:+ ".")
  = DisplayableMultifillProblem.role_prefix +:+ "Tick: "
    +:+ DisplayableMultifillProblem.INPUT_CHECK +:+ ".".
Proof.
  apply (role_text_single "Tick: " "type=check" "."); reflexivity.
Defined.

(** ** [show_input] *)

Section show_input.
Import DisplayableMultifillProblem.
Context `{PyRandom} `{PyLimits}.
Variables Html ParsableText Translation : Type.
Variable get_id : MultifillProblem.t -> str.
Variable gettext : MultifillProblem.t -> str -> str -> str.
Variable get_translation_obj : MultifillProblem.t -> str -> Translation.
Variable ParsableText_init : str -> str -> Translation -> ParsableText.
Variable parse : ParsableText -> Html.
Variable render : str -> str -> option ParsableText -> list (Shown Html) -> Html.

Lemma getitem_in_range {A} (l : list A) (i : Z) (a : A) :
  0 <= i -> l !! Z.to_nat i = Some a -> getitem l i = Return a.
Proof.
  intros Hi Ha. pose proof (lookup_lt_Some _ _ _ Ha). unfold getitem.
  destruct (Z.ltb_spec i 0); [lia|].
  destruct (Z.leb_spec 0 i); [|lia].
  destruct (Z.ltb_spec i (Z.of_nat (length l))); [|lia].
  simpl. by rewrite Ha.
Qed.

(** One turn of the loop, on the index of a subtask with a text: an
    entry, unless there is no letter for its place. *)
Lemma shown_body_Return (self : MultifillProblem.t) (language : str)
    (shown_subtask_ids : list Z) (subtasks : list (Shown Html))
    (visual_index : nat) (subtask_id : Z) :
  Forall (fun subtask => is_Some (MultifillProblem.text subtask))
         (MultifillProblem._subtasks self) ->
  0 <= subtask_id < Z.of_nat (length (MultifillProblem._subtasks self)) ->
  Z.of_nat (length shown_subtask_ids) <= 1 \/ Z.of_nat visual_index < 1114015 ->
  exists shown,
    shows Html ParsableText Translation get_translation_obj ParsableText_init
          parse self language (length shown_subtask_ids)
          visual_index subtask_id shown
    /\ shown_body Html ParsableText Translation get_translation_obj
                  ParsableText_init parse self language shown_subtask_ids
                  subtasks (visual_index, subtask_id)
       = Return (subtasks ++ [shown]).
Proof.
  intros Htext Hid Hletter.
  destruct (lookup_lt_is_Some_2 (MultifillProblem._subtasks self)
              (Z.to_nat subtask_id)) as [subtask Hsubtask]; [lia|].
  destruct (Forall_lookup_1 _ _ _ _ Htext Hsubtask) as [subtask_text Htxt].
  exists {| id := subtask_id;
            title := title_at (length shown_subtask_ids) visual_index;
            html := parse (ParsableText_init (role_text subtask_text)
                             "rst" (get_translation_obj self language)) |}.
  split.
  { split; [done|]. split; [done|]. exists subtask, subtask_text.
    repeat split; try done. lia. }
  unfold shown_body, title_at, chr, ord_a.
  assert (forall title : option text,
            (subtask ← getitem (MultifillProblem._subtasks self) subtask_id;
             subtask_text ←
               match MultifillProblem.text subtask with
               | Some subtask_text => Return subtask_text
               | None => Throw (KeyError "text")
               end;
             mret (subtasks ++ [ {| id := subtask_id; title := title;
                                    html := parse (ParsableText_init
                                              (role_text subtask_text) "rst"
                                              (get_translation_obj self language)) |} ]))
            = Return (subtasks ++ [ {| id := subtask_id; title := title;
                                       html := parse (ParsableText_init
                                                 (role_text subtask_text) "rst"
                                                 (get_translation_obj self language)) |} ]))
    as Hrest.
  { intros title. rewrite (getitem_in_range _ _ _ (proj1 Hid) Hsubtask).
    simpl. by rewrite Htxt. }
  destruct (Z.ltb_spec 1 (Z.of_nat (length shown_subtask_ids))) as [Hmany|Hone].
  - destruct (Nat.ltb_spec 1 (length shown_subtask_ids)); [|lia].
    destruct Hletter as [?|Hletter]; [lia|].
    destruct (Z.leb_spec 0 (97 + Z.of_nat visual_index)); [|lia].
    destruct (Z.ltb_spec (97 + Z.of_nat visual_index) 1114112); [|lia].
    simpl. apply Hrest.
  - destruct (Nat.ltb_spec 1 (length shown_subtask_ids)); [lia|].
    simpl. apply Hrest.
Qed.

Lemma shown_body_Throw (self : MultifillProblem.t) (language : str)
    (shown_subtask_ids : list Z) (subtasks : list (Shown Html))
    (visual_index : nat) (subtask_id : Z) :
  1 < Z.of_nat (length shown_subtask_ids) ->
  1114015 <= Z.of_nat visual_index ->
  shown_body Html ParsableText Translation get_translation_obj
             ParsableText_init parse self language shown_subtask_ids
             subtasks (visual_index, subtask_id)
  = Throw ChrRange.
Proof.
  intros Hmany Hletter. unfold shown_body, chr, ord_a.
  destruct (Z.ltb_spec 1 (Z.of_nat (length shown_subtask_ids))); [|lia].
  destruct (Z.ltb_spec (97 + Z.of_nat visual_index) 1114112); [lia|].
  by rewrite andb_false_r.
Qed.

Lemma outcome_bind_Return {E A B} (f : A -> outcome E B) a :
  Return a ≫= f = f a.
Proof. done. Qed.

Lemma outcome_bind_Throw {E A B} (f : A -> outcome E B) e :
  Throw e ≫= f = Throw e.
Proof. done. Qed.

(** The loop on indices of subtasks with a text, with a letter for each
    place: an entry for each. *)
Lemma shown_loop_Return (self : MultifillProblem.t) (language : str)
    (shown_subtask_ids ids : list Z) (k : nat) (subtasks : list (Shown Html)) :
  Forall (fun subtask => is_Some (MultifillProblem.text subtask))
         (MultifillProblem._subtasks self) ->
  Forall (fun subtask_id =>
            0 <= subtask_id < Z.of_nat (length (MultifillProblem._subtasks self)))
         ids ->
  Z.of_nat (length shown_subtask_ids) <= 1
  \/ Z.of_nat k + Z.of_nat (length ids) <= 1114015 ->
  exists shown,
    Forall2 (fun entry =>
               shows Html ParsableText Translation get_translation_obj
                     ParsableText_init parse self language
                     (length shown_subtask_ids) entry.1 entry.2)
            (imap (fun i => pair (k + i)%nat) ids) shown
    /\ for_each (shown_body Html ParsableText Translation get_translation_obj
                            ParsableText_init parse self language
                            shown_subtask_ids)
                (imap (fun i => pair (k + i)%nat) ids) subtasks
       = Return (subtasks ++ shown).
Proof.
  intros Htext Hids. revert k subtasks.
  induction Hids as [|subtask_id ids Hid Hids IH]; intros k subtasks Hk.
  - exists []. split; [constructor|]. simpl. by rewrite app_nil_r.
  - rewrite imap_cons.
    assert (imap ((fun i => pair (k + i)%nat) ∘ S) ids
            = imap (fun i => pair (S k + i)%nat) ids) as ->.
    { apply imap_ext. intros i x _. simpl. f_equal. lia. }
    destruct (shown_body_Return self language shown_subtask_ids subtasks
                (k + 0) subtask_id Htext Hid) as (entry & Hentry & Hbody).
    { simpl length in Hk. lia. }
    destruct (IH (S k) (subtasks ++ [entry])) as (shown & Hshown & Hloop).
    { simpl length in Hk. lia. }
    exists (entry :: shown). split; [by constructor|].
    rewrite for_each_cons, Hbody, outcome_bind_Return, Hloop.
    by rewrite <-app_assoc.
Qed.

(** The loop on more indices than there are letters. *)
Lemma shown_loop_Throw (self : MultifillProblem.t) (language : str)
    (shown_subtask_ids ids : list Z) (k : nat) (subtasks : list (Shown Html)) :
  Forall (fun subtask => is_Some (MultifillProblem.text subtask))
         (MultifillProblem._subtasks self) ->
  Forall (fun subtask_id =>
            0 <= subtask_id < Z.of_nat (length (MultifillProblem._subtasks self)))
         ids ->
  1 < Z.of_nat (length shown_subtask_ids) ->
  Z.of_nat k <= 1114015 < Z.of_nat k + Z.of_nat (length ids) ->
  for_each (shown_body Html ParsableText Translation get_translation_obj
                       ParsableText_init parse self language
                       shown_subtask_ids)
           (imap (fun i => pair (k + i)%nat) ids) subtasks
  = Throw ChrRange.
Proof.
  intros Htext Hids Hmany. revert k subtasks.
  induction Hids as [|subtask_id ids Hid Hids IH]; intros k subtasks Hk.
  - simpl in Hk. lia.
  - rewrite imap_cons.
    assert (imap ((fun i => pair (k + i)%nat) ∘ S) ids
            = imap (fun i => pair (S k + i)%nat) ids) as ->.
    { apply imap_ext. intros i x _. simpl. f_equal. lia. }
    rewrite for_each_cons.
    destruct (decide (Z.of_nat k = 1114015)) as [Hlast|Hnot].
    + rewrite shown_body_Throw by lia. done.
    + destruct (shown_body_Return self language shown_subtask_ids subtasks
                  (k + 0) subtask_id Htext Hid) as (entry & Hentry & Hbody); [lia|].
      rewrite Hbody, outcome_bind_Return. apply IH. simpl length in Hk. lia.
Qed.
End show_input.

(** A constructed object whose bags cover no more indices than the
    interpreter has room for: it builds every bag.  And a bag that is too
    long is within the total. *)
Lemma constructed_bags `{PyLimits} s self :
  init s = Ok self ->
  (total_bag self <= list_max -> bags_fit self)
  /\ (forall bag, long_bag (concat (groups self)) = Some bag ->
                  list_max < bag <= total_bag self).
Proof.
  intros Hinit. pose proof (init_in_range _ _ Hinit) as Hrange.
  destruct (init_totals _ _ Hinit) as [_ Hbag].
  assert (Forall in_range (concat (groups self))) as Hall
    by by apply Forall_concat.
  split.
  - intros Hle. apply long_bag_fit, long_bag_None; [done|].
    unfold sum_bag in Hbag. unfold bag_of. lia.
  - intros bag Hlong. rewrite Hbag. by apply long_bag_Some.
Qed.

(** X21.  Showing a constructed problem.  The interpreter builds every
    bag of the subtask string when the list of the subtasks is one of its
    lists, of at most [list_max] items.  Then the sampler returns, as many
    identifiers as the subtask string pulls; every one of them is the
    index of a subtask of the problem, and this subtask has a text: the
    loop raises neither [IndexError] nor [KeyError].  The template gets
    one entry per identifier, in the order of the sampler, with the
    parsed text of its subtask and, when more than one subtask is shown,
    the letter of its place.  The one exception of the loop is that of
    [chr], when more subtasks are shown than there are code points from
    [a] on.  With a bag that the interpreter does not build, [show_input]
    raises what [list(range(...))] raises in the sampler. *)
Theorem show_input_constructed `{PyRandom} `{PyLimits}
    (Html ParsableText Translation : Type)
    (get_id : MultifillProblem.t -> str)
    (gettext : MultifillProblem.t -> str -> str -> str)
    (get_translation_obj : MultifillProblem.t -> str -> Translation)
    (ParsableText_init : str -> str -> Translation -> ParsableText)
    (parse : ParsableText -> Html)
    (render : str -> str -> option ParsableText
              -> list (DisplayableMultifillProblem.Shown Html) -> Html)
    (Problem_init : str -> MultifillProblem.Content -> result unit)
    (problemid : str) (content : MultifillProblem.Content)
    (self : MultifillProblem.t) (language seed : str)
    (h : gmap positive generator) :
  MultifillProblem.init Problem_init problemid content = Ok self ->
  (Z.of_nat (length (MultifillProblem._subtasks self)) <= list_max ->
   bags_fit (MultifillProblem._subtask_string self))
  /\ (bags_fit (MultifillProblem._subtask_string self) ->
      exists out,
        (sample_subtasks (MultifillProblem._subtask_string self)
                         (get_id self) seed h).1
        = Ok out
        /\ Z.of_nat (length out)
           = total_pull (MultifillProblem._subtask_string self)
        /\ (Z.of_nat (length out) <= 1114015 ->
            exists subtasks,
              Forall2 (fun entry =>
                         shows Html ParsableText Translation
                               get_translation_obj ParsableText_init parse
                               self language (length out) entry.1 entry.2)
                      (imap pair out) subtasks
              /\ (DisplayableMultifillProblem.show_input
                    Html ParsableText Translation get_id gettext
                    get_translation_obj ParsableText_init parse render
                    self language seed h).1
                 = Ok (Return
                         (render "tasks/multifill.html" (get_id self)
                            (DisplayableMultifillProblem.show_header
                               ParsableText Translation gettext
                               get_translation_obj ParsableText_init
                               self language)
                            subtasks)))
        /\ (1114015 < Z.of_nat (length out) ->
            (DisplayableMultifillProblem.show_input
               Html ParsableText Translation get_id gettext
               get_translation_obj ParsableText_init parse render
               self language seed h).1
            = Ok (Throw DisplayableMultifillProblem.ChrRange)))
  /\ (~ bags_fit (MultifillProblem._subtask_string self) ->
      exists e,
        (e = OverflowError \/ e = MemoryError)
        /\ (DisplayableMultifillProblem.show_input
              Html ParsableText Translation get_id gettext
              get_translation_obj ParsableText_init parse render
              self language seed h).1
           = Raise e).
Proof.
  intros (_ & _ & Htext & Hsub & Hbag & _)%MultifillProblem_init_Ok.
  destruct (choose_subtask_string_constructed _ _ _ Hsub) as [s Hs].
  destruct (constructed_bags s _ Hs) as [Hfits Hlongs].
  split; [intros Hle; apply Hfits; lia|]. split.
  - intros Hfit.
    destruct (sample_loop_valid s _ (get_id self) seed Hs Hfit)
      as (out & g' & Hlen & Hsubm & Hrun).
    destruct (Hrun h) as [_ Hsample].
    assert (Forall (fun subtask_id =>
                      0 <= subtask_id
                      < Z.of_nat (length (MultifillProblem._subtasks self))) out)
      as Hids.
    { apply Forall_forall. intros x Hx. eapply elem_of_submseteq in Hx; [|done].
      apply elem_of_seqZ in Hx. lia. }
    exists out. rewrite Hsample. split; [done|]. split; [done|].
    assert ((DisplayableMultifillProblem.show_input
               Html ParsableText Translation get_id gettext get_translation_obj
               ParsableText_init parse render self language seed h).1
            = Ok (subtasks ←
                    for_each (DisplayableMultifillProblem.shown_body
                                Html ParsableText Translation get_translation_obj
                                ParsableText_init parse self language out)
                             (imap (fun i => pair (0 + i)%nat) out) [];
                  mret (render "tasks/multifill.html" (get_id self)
                          (DisplayableMultifillProblem.show_header
                             ParsableText Translation gettext get_translation_obj
                             ParsableText_init self language)
                          subtasks))) as ->.
    { unfold DisplayableMultifillProblem.show_input. cbv zeta.
      unfold mbind at 1, M_bind at 1. by rewrite Hsample. }
    split.
    + intros Hfew.
      destruct (shown_loop_Return Html ParsableText Translation get_translation_obj
                  ParsableText_init parse self language out out 0 []
                  Htext Hids) as (subtasks & Hshown & Hloop); [lia|].
      exists subtasks. split; [done|].
      by rewrite Hloop.
    + intros Hmany.
      rewrite (shown_loop_Throw Html ParsableText Translation get_translation_obj
                 ParsableText_init parse self language out out 0 []
                 Htext Hids) by lia.
      done.
  - intros [bag Hlong]%long_bag_unfit.
    destruct (sample_loop_long s _ (get_id self) seed bag Hs Hlong)
      as (g' & Hrun).
    destruct (Hrun h) as [_ Hsample].
    exists (range_error bag). split.
    + unfold range_error. destruct (maxsize <? bag); auto.
    + unfold DisplayableMultifillProblem.show_input. cbv zeta.
      unfold mbind at 1, M_bind at 1. by rewrite Hsample.
Qed.

Lemma show_input_constructed_witness :
  (3 <= list_max -> bags_fit (mk "1/2;1" 2 3 [[(1, 2)]; [(1, 1)]]))
  /\ (bags_fit (mk "1/2;1" 2 3 [[(1, 2)]; [(1, 1)]]) ->
      exists out,
        (sample_subtasks (mk "1/2;1" 2 3 [[(1, 2)]; [(1, 1)]]) "p1" "heidi" ∅).1
        = Ok out
        /\ Z.of_nat (length out) = 2
        /\ (Z.of_nat (length out) <= 1114015 ->
            exists subtasks,
              Forall2 (fun entry =>
                         shows str str unit (fun _ _ => tt)
                               (fun content _ _ => content)
                               (fun parsable => parsable)
                               (MultifillProblem.mk "Fill in"
              [ {| MultifillProblem.text := Some "a";
                   MultifillProblem.giveDetailedFeedback := None |};
                {| MultifillProblem.text := Some "b";
                   MultifillProblem.giveDetailedFeedback := None |};
                {| MultifillProblem.text := Some "c";
                   MultifillProblem.giveDetailedFeedback := None |} ]
              (mk "1/2;1" 2 3 [[(1, 2)]; [(1, 1)]])
              (ScoreString.mk "0/3/3" 0 3 3))
                               "en" (length out) entry.1 entry.2)
                      (imap pair out) subtasks
              /\ (DisplayableMultifillProblem.show_input
           str str unit (fun _ => "p1") (fun _ _ text => text)
           (fun _ _ => tt) (fun content _ _ => content)
           (fun parsable => parsable)
           (fun _ _ _ subtasks =>
              Py.join "" (DisplayableMultifillProblem.html <$> subtasks))
           (MultifillProblem.mk "Fill in"
              [ {| MultifillProblem.text := Some "a";
                   MultifillProblem.giveDetailedFeedback := None |};
                {| MultifillProblem.text := Some "b";
                   MultifillProblem.giveDetailedFeedback := None |};
                {| MultifillProblem.text := Some "c";
                   MultifillProblem.giveDetailedFeedback := None |} ]
              (mk "1/2;1" 2 3 [[(1, 2)]; [(1, 1)]])
              (ScoreString.mk "0/3/3" 0 3 3))
           "en" "heidi" ∅).1
                 = Ok (Return
                         (Py.join ""
                            (DisplayableMultifillProblem.html <$> subtasks))))
        /\ (1114015 < Z.of_nat (length out) ->
            (DisplayableMultifillProblem.show_input
           str str unit (fun _ => "p1") (fun _ _ text => text)
           (fun _ _ => tt) (fun content _ _ => content)
           (fun parsable => parsable)
           (fun _ _ _ subtasks =>
              Py.join "" (DisplayableMultifillProblem.html <$> subtasks))
           (MultifillProblem.mk "Fill in"
              [ {| MultifillProblem.text := Some "a";
                   MultifillProblem.giveDetailedFeedback := None |};
                {| MultifillProblem.text := Some "b";
                   MultifillProblem.giveDetailedFeedback := None |};
                {| MultifillProblem.text := Some "c";
                   MultifillProblem.giveDetailedFeedback := None |} ]
              (mk "1/2;1" 2 3 [[(1, 2)]; [(1, 1)]])
              (ScoreString.mk "0/3/3" 0 3 3))
           "en" "heidi" ∅).1
            = Ok (Throw DisplayableMultifillProblem.ChrRange)))
  /\ (~ bags_fit (mk "1/2;1" 2 3 [[(1, 2)]; [(1, 1)]]) ->
      exists e,
        (e = OverflowError \/ e = MemoryError)
        /\ (DisplayableMultifillProblem.show_input
           str str unit (fun _ => "p1") (fun _ _ text => text)
           (fun _ _ => tt) (fun content _ _ => content)
           (fun parsable => parsable)
           (fun _ _ _ subtasks =>
              Py.join "" (DisplayableMultifillProblem.html <$> subtasks))
           (MultifillProblem.mk "Fill in"
              [ {| MultifillProblem.text := Some "a";
                   MultifillProblem.giveDetailedFeedback := None |};
                {| MultifillProblem.text := Some "b";
                   MultifillProblem.giveDetailedFeedback := None |};
                {| MultifillProblem.text := Some "c";
                   MultifillProblem.giveDetailedFeedback := None |} ]
              (mk "1/2;1" 2 3 [[(1, 2)]; [(1, 1)]])
              (ScoreString.mk "0/3/3" 0 3 3))
           "en" "heidi" ∅).1
           = Raise e).
Proof.
  apply (show_input_constructed str str unit (fun _ => "p1") (fun _ _ text => text)
           (fun _ _ => tt) (fun content _ _ => content)
           (fun parsable => parsable)
           (fun _ _ _ subtasks =>
              Py.join "" (DisplayableMultifillProblem.html <$> subtasks))
           (fun _ _ => Ok tt) "p1"
           {| MultifillProblem.header := Some "Fill in";
              MultifillProblem.subtasks :=
                Some [ {| MultifillProblem.text := Some "a";
                          MultifillProblem.giveDetailedFeedback := None |};
                       {| MultifillProblem.text := Some "b";
                          MultifillProblem.giveDetailedFeedback := None |};
                       {| MultifillProblem.text := Some "c";
                          MultifillProblem.giveDetailedFeedback := None |} ];
              MultifillProblem.subtask_string := Some "1/2;1";
              MultifillProblem.score_string := None |}
           (MultifillProblem.mk "Fill in"
              [ {| MultifillProblem.text := Some "a";
                   MultifillProblem.giveDetailedFeedback := None |};
                {| MultifillProblem.text := Some "b";
                   MultifillProblem.giveDetailedFeedback := None |};
                {| MultifillProblem.text := Some "c";
                   MultifillProblem.giveDetailedFeedback := None |} ]
              (mk "1/2;1" 2 3 [[(1, 2)]; [(1, 1)]])
              (ScoreString.mk "0/3/3" 0 3 3))
           "en" "heidi" ∅).
  reflexivity.
Defined.
